(** * npmdata: file filtering, version constraints, marker files and the
      extract / check engine

    Part I embeds [lib/src/utils.ts] and the default pattern table of
    [types.ts].  The Node.js and third-party functions the code calls
    ([path.basename], [path.resolve], [minimatch], [RegExp.prototype.test],
    [JSON.parse], [JSON.stringify]) are interfaces (type classes); every
    general theorem holds for all their instances.

    Part II models the consumer engine ([extract], [check]), whose
    implementation file is not part of the sources at hand, from the
    written specification.  Part III is the marker file on disk.  Part IV
    embeds the functions of [utils.ts] that Part I leaves out
    ([removeFile], [copyFile], [getFileHash], [detectPackageManager],
    [getInstalledPackageVersion], [runCommand]) and Part V the runner that
    the bin script of a data package calls ([collectPackages],
    [parseArgs], [run]).

    Reference instances of the interfaces and sample inputs follow; they
    let the definitions run in the concrete runs at the end. *)

From Stdlib Require Import String Ascii List Bool ZArith Lia DecimalString.
From stdpp Require Import base gmap list strings.
Import ListNotations.
Open Scope string_scope.

(* ================================================================== *)
(** * Part I.  utils.ts                                                *)
(* ================================================================== *)

(** ** JavaScript strings

    A JavaScript string is represented by the bytes of its UTF-8 encoding.
    The string methods the code uses only look for ASCII characters
    (['!'], ['**'], ['.']), for which byte positions and UTF-16 positions
    of a prefix agree. *)

Module Js.

(** [s.startsWith(p)] *)
Definition startsWith (s p : string) : bool := String.prefix p s.

(** [s.slice(1)] *)
Definition slice1 (s : string) : string :=
  match s with
  | EmptyString => EmptyString
  | String _ rest => rest
  end.

(** [s.includes(needle)] *)
Fixpoint includes (s needle : string) : bool :=
  String.prefix needle s ||
  match s with
  | EmptyString => false
  | String _ rest => includes rest needle
  end.

(** [s.split(sep)] for a separator of one character *)
Fixpoint split (sep : ascii) (s : string) : list string :=
  match s with
  | EmptyString => [EmptyString]
  | String c rest =>
    if Ascii.eqb c sep
    then EmptyString :: split sep rest
    else match split sep rest with
         | first :: others => String c first :: others
         | [] => [String c EmptyString]
         end
  end.

(** The result of running a statement that may throw.  The payload of
    [Throw] is [String(error)]. *)
Inductive completion (A : Type) : Type :=
| Return (a : A)
| Throw (e : string).
Arguments Return {A} a.
Arguments Throw {A} e.

(** [try { body } catch (e) { handler(e) }] *)
Definition try_catch {A} (body : completion A) (handler : string -> completion A)
  : completion A :=
  match body with
  | Return a => Return a
  | Throw e => handler e
  end.

Definition bind {A B} (k : A -> completion B) (c : completion A) : completion B :=
  match c with
  | Return a => k a
  | Throw e => Throw e
  end.

End Js.

#[global] Instance completion_ret : MRet Js.completion := @Js.Return.
#[global] Instance completion_bind : MBind Js.completion := @Js.bind.

(** ** The platform functions the code imports *)

(** [node:path] *)
Class NodePath := {
  basename : string -> string;
  dirname : string -> string;
  resolve : string -> string;
  join : string -> string -> string
}.

(** The options object passed to [minimatch]; the code sets [matchBase]
    or passes no options. *)
Record MinimatchOptions := { matchBase : bool }.

Definition noOptions : MinimatchOptions := {| matchBase := false |}.

(** [minimatch(path, pattern, options)] *)
Class Minimatch := {
  minimatch : string -> string -> MinimatchOptions -> bool
}.

(** [RegExp] objects and [pattern.test(content)].  A [RegExp] object with
    the [g] or [y] flag keeps in [lastIndex] where its next test starts,
    so a test reads and writes the object: a value of [RegExp] names one
    object, [RegExpStore] is the state of all the [RegExp] objects of the
    program, and [regexp_test] gives the verdict and the state after the
    test. *)
Class JsRegExp := {
  RegExp : Type;
  RegExpStore : Type;
  regexp_test : RegExp -> string -> RegExpStore -> bool * RegExpStore
}.

(** ** matchesFilenamePattern *)

(** The argument type [string | string[]]. *)
Inductive PatternArg : Type :=
| OnePattern (p : string)
| PatternArray (ps : list string).

(** [Array.isArray(patterns) ? patterns : [patterns]] *)
Definition patternList (patterns : PatternArg) : list string :=
  match patterns with
  | PatternArray ps => ps
  | OnePattern p => [p]
  end.

(** [!patterns]: [undefined] and the empty string are falsy, every array
    (the empty one too) is truthy. *)
Definition falsyPatterns (patterns : option PatternArg) : bool :=
  match patterns with
  | None => true
  | Some (OnePattern p) => String.eqb p EmptyString
  | Some (PatternArray _) => false
  end.

Section FilenamePatterns.
Context `{NodePath} `{Minimatch}.

(** [matchesPattern]: a pattern with ['**'] is matched against the
    absolute path, any other pattern against the file name. *)
Definition matchesPattern (filePath fileName absolutePath pattern : string) : bool :=
  if Js.includes pattern "**"
  then minimatch absolutePath pattern {| matchBase := true |}
  else minimatch fileName pattern noOptions.

(** The two filters of the pattern list. *)
Definition includePatterns (l : list string) : list string :=
  List.filter (fun p => negb (Js.startsWith p "!")) l.

Definition excludePatterns (l : list string) : list string :=
  List.map Js.slice1 (List.filter (fun p => Js.startsWith p "!") l).

(** [matchesFilenamePattern]; the loop over the exclude patterns with its
    early [return false] is [existsb]. *)
Definition matchesFilenamePattern (filePath : string) (patterns : option PatternArg)
  : bool :=
  match patterns with
  | None => true
  | Some pats =>
    if falsyPatterns patterns then true
    else
      let fileName := basename filePath in
      let absolutePath := resolve filePath in
      let incl := includePatterns (patternList pats) in
      let excl := excludePatterns (patternList pats) in
      if (0 <? length excl)%nat
         && existsb (matchesPattern filePath fileName absolutePath) excl
      then false
      else if (0 <? length incl)%nat
      then existsb (matchesPattern filePath fileName absolutePath) incl
      else true
  end.

(** A path matches an exclude pattern ['!' + g] when the matcher the code
    uses accepts it for [g]. *)
Definition matchesExclude (filePath pattern : string) : Prop :=
  Js.startsWith pattern "!" = true /\
  matchesPattern filePath (basename filePath) (resolve filePath)
    (Js.slice1 pattern) = true.

End FilenamePatterns.

(** [DEFAULT_FILENAME_PATTERNS] of types.ts *)
Definition DEFAULT_FILENAME_PATTERNS : list string :=
  ["**"; "!package.json"; "!bin/**"; "!README.md"; "!node_modules/**"].

(** ** The file system

    Paths are the strings the code passes to [node:fs].  A regular file
    carries its bytes and its permission bits ([0o400] lets the process
    read it, [0o200] write it). *)

Inductive FsNode : Type :=
| RegularFile (data : string) (mode : N)
| Directory.

Abbreviation FileSystem := (gmap string FsNode).

Definition ownerCanRead (mode : N) : bool := N.testbit mode 8.
Definition ownerCanWrite (mode : N) : bool := N.testbit mode 7.

(** Mode of a file created by [writeFileSync]: [0o666] under umask [0o022]. *)
Definition newFileMode : N := 420.

Inductive BufferEncoding : Type := Utf8 | Latin1.

(** [Buffer.from(text, encoding)] and [buffer.toString(encoding)]; with
    strings held as UTF-8 bytes the [utf8] codec copies them. *)
Class NodeBuffer := {
  encode : BufferEncoding -> string -> string;
  decode : BufferEncoding -> string -> string
}.

Definition isRegularFile (fs : FileSystem) (p : string) : bool :=
  match fs !! p with
  | Some (RegularFile _ _) => true
  | _ => false
  end.

Definition existsSync (fs : FileSystem) (p : string) : bool :=
  match fs !! p with
  | Some _ => true
  | None => false
  end.

(** [fs.readFileSync(p)]: the bytes of the file. *)
Definition readFileSync (fs : FileSystem) (p : string) : Js.completion string :=
  match fs !! p with
  | Some (RegularFile data mode) =>
    if ownerCanRead mode then Js.Return data
    else Js.Throw ("Error: EACCES: permission denied, open '" ++ p ++ "'")
  | Some Directory =>
    Js.Throw "Error: EISDIR: illegal operation on a directory, read"
  | None =>
    Js.Throw ("Error: ENOENT: no such file or directory, open '" ++ p ++ "'")
  end.

Section FsWrites.
Context `{NodePath} `{NodeBuffer}.

(** The proper ancestors of [p], nearest first; [dirname] is iterated
    until it stops changing the path, at most [fuel] times. *)
Fixpoint parents (fuel : nat) (p : string) : list string :=
  match fuel with
  | O => []
  | S fuel' =>
    let d := dirname p in
    if String.eqb d p then [] else d :: parents fuel' d
  end.

Definition pathChain (dir : string) : list string :=
  dir :: parents (String.length dir) dir.

(** [fs.mkdirSync(dir, { recursive: true })]: creates [dir] and its
    missing ancestors; fails when one of them is a regular file. *)
Definition mkdirSync_recursive (fs : FileSystem) (dir : string)
  : Js.completion FileSystem :=
  if existsb (isRegularFile fs) (pathChain dir)
  then Js.Throw ("Error: EEXIST: file already exists, mkdir '" ++ dir ++ "'")
  else Js.Return (fold_right (fun a acc => <[a := Directory]> acc) fs (pathChain dir)).

(** [fs.writeFileSync(p, text, encoding)] *)
Definition writeFileSync (fs : FileSystem) (p text : string) (enc : BufferEncoding)
  : Js.completion FileSystem :=
  match fs !! dirname p with
  | Some Directory =>
    match fs !! p with
    | Some Directory =>
      Js.Throw ("Error: EISDIR: illegal operation on a directory, open '" ++ p ++ "'")
    | Some (RegularFile _ mode) =>
      if ownerCanWrite mode
      then Js.Return (<[p := RegularFile (encode enc text) mode]> fs)
      else Js.Throw ("Error: EACCES: permission denied, open '" ++ p ++ "'")
    | None => Js.Return (<[p := RegularFile (encode enc text) newFileMode]> fs)
    end
  | _ => Js.Throw ("Error: ENOENT: no such file or directory, open '" ++ p ++ "'")
  end.

(** [ensureDir] *)
Definition ensureDir (fs : FileSystem) (dir : string) : Js.completion FileSystem :=
  if negb (existsSync fs dir) then mkdirSync_recursive fs dir
  else Js.Return fs.

End FsWrites.

(** ** JSON files *)

(** The values [JSON.parse] returns and [JSON.stringify] writes.  An object
    holds its properties in insertion order, the order [JSON.stringify]
    writes them in. *)
#[local] Unset Elimination Schemes.
Inductive Json : Type :=
| JNull
| JBool (b : bool)
| JNumber (z : Z)
| JString (s : string)
| JArray (items : list Json)
| JObject (fields : list (string * Json)).
#[local] Set Elimination Schemes.

Module JSON.

Definition lf : string := String (ascii_of_nat 10) EmptyString.

Definition hexDigit (n : nat) : ascii :=
  nth n ["0"; "1"; "2"; "3"; "4"; "5"; "6"; "7"; "8"; "9";
         "a"; "b"; "c"; "d"; "e"; "f"]%char "0"%char.

(** The escape of one character inside a JSON string. *)
Definition escapeChar (c : ascii) : string :=
  let n := nat_of_ascii c in
  if (n =? 34)%nat then "\" ++ String c EmptyString
  else if (n =? 92)%nat then "\\"
  else if (n =? 8)%nat then "\b"
  else if (n =? 9)%nat then "\t"
  else if (n =? 10)%nat then "\n"
  else if (n =? 12)%nat then "\f"
  else if (n =? 13)%nat then "\r"
  else if (n <? 32)%nat
  then "\u00" ++ String (hexDigit (n / 16)) (String (hexDigit (n mod 16)) EmptyString)
  else String c EmptyString.

Fixpoint escape (s : string) : string :=
  match s with
  | EmptyString => EmptyString
  | String c rest => escapeChar c ++ escape rest
  end.

(** [QuoteJSONString] *)
Definition quote (s : string) : string :=
  String (ascii_of_nat 34) (escape s) ++ String (ascii_of_nat 34) EmptyString.

Fixpoint spaces (n : nat) : string :=
  match n with
  | O => EmptyString
  | S n' => String " " (spaces n')
  end.

(** The items of an array or object, one per line at [inner] spaces. *)
Fixpoint joinLines (inner : nat) (items : list string) : string :=
  match items with
  | [] => EmptyString
  | [x] => spaces inner ++ x
  | x :: rest => spaces inner ++ x ++ "," ++ lf ++ joinLines inner rest
  end.

Definition block (opening closing : string) (current inner : nat)
    (items : list string) : string :=
  match items with
  | [] => opening ++ closing
  | _ => opening ++ lf ++ joinLines inner items ++ lf ++ spaces current ++ closing
  end.

(** [SerializeJSONProperty] with a gap of [indent] spaces, at the
    indentation [current]. *)
Fixpoint serialize (indent current : nat) (v : Json) {struct v} : string :=
  match v with
  | JNull => "null"
  | JBool true => "true"
  | JBool false => "false"
  | JNumber z => DecimalString.NilZero.string_of_int (Z.to_int z)
  | JString s => quote s
  | JArray items =>
    block "[" "]" current (current + indent)
      (List.map (serialize indent (current + indent)) items)
  | JObject fields =>
    block "{" "}" current (current + indent)
      ((fix props (l : list (string * Json)) : list string :=
          match l with
          | [] => []
          | (k, x) :: rest =>
            (quote k ++ ": " ++ serialize indent (current + indent) x) :: props rest
          end) fields)
  end.

(** [JSON.stringify(value, null, indent)] for [indent > 0] *)
Definition stringify (v : Json) (indent : nat) : string := serialize indent 0 v.

End JSON.

(** [JSON.parse]: only whether it returns or throws a [SyntaxError] matters
    to the code. *)
Class JsJSON := {
  JSON_parse : string -> Js.completion Json
}.

Section JsonFiles.
Context `{NodePath} `{NodeBuffer} `{JsJSON}.

(** [readJsonFile]; the error it throws is [new Error(message)], whose
    string is ["Error: " + message]. *)
Definition readJsonFile (fs : FileSystem) (filePath : string) : Js.completion Json :=
  Js.try_catch
    (content ← (buf ← readFileSync fs filePath; mret (decode Utf8 buf));
     JSON_parse content)
    (fun error =>
       Js.Throw ("Error: Failed to read JSON file " ++ filePath ++ ": " ++ error)).

(** [writeJsonFile] *)
Definition writeJsonFile (fs : FileSystem) (filePath : string) (data : Json)
  : Js.completion FileSystem :=
  fs1 ← ensureDir fs (dirname filePath);
  writeFileSync fs1 filePath (JSON.stringify data 2 ++ JSON.lf) Utf8.

End JsonFiles.

(** ** matchesContentRegex and findMatchingFiles *)

(** What a computation of the walk reads and writes beside the file
    system: the lines on the console and the state of the [RegExp]
    objects. *)
Record World `{JsRegExp} := {
  console : list string;
  regexps : RegExpStore
}.

(** A computation that writes to the console, tests regular expressions
    and may throw. *)
Definition Io `{JsRegExp} (A : Type) : Type := World -> Js.completion A * World.

Section IoMonad.
Context `{JsRegExp}.

Definition io_ret {A} (a : A) : Io A := fun w => (Js.Return a, w).

Definition io_bind {A B} (c : Io A) (k : A -> Io B) : Io B :=
  fun w =>
    match c w with
    | (Js.Return a, w') => k a w'
    | (Js.Throw e, w') => (Js.Throw e, w')
    end.

Definition io_lift {A} (c : Js.completion A) : Io A := fun w => (c, w).

Definition io_try {A} (body : Io A) (handler : string -> Io A) : Io A :=
  fun w =>
    match body w with
    | (Js.Return a, w') => (Js.Return a, w')
    | (Js.Throw e, w') => handler e w'
    end.

(** The world after one more line on the console. *)
Definition warned (line : string) (w : World) : World :=
  {| console := (console w ++ [line])%list; regexps := regexps w |}.

(** [console.warn(line)] *)
Definition console_warn (line : string) : Io unit :=
  fun w => (Js.Return tt, warned line w).

(** [pattern.test(content)] *)
Definition io_test (pattern : RegExp) (content : string) : Io bool :=
  fun w =>
    let '(verdict, store) := regexp_test pattern content (regexps w) in
    (Js.Return verdict, {| console := console w; regexps := store |}).

(** [patternList.some((pattern) => pattern.test(content))]: the patterns
    are tested in order, up to the first that matches. *)
Fixpoint someTest (patternList : list RegExp) (content : string) : Io bool :=
  match patternList with
  | [] => io_ret false
  | pattern :: rest =>
    io_bind (io_test pattern content)
      (fun ok => if ok then io_ret true else someTest rest content)
  end.

End IoMonad.

(** What [readdirSync] and [statSync] report below a directory.
    [readdirSync] returns the names in its order, or throws;
    [statSync] tells for each name a directory ([SubDir], with what
    [readdirSync] gives for it) from anything else ([FileEntry]), or throws
    ([StatFails]: a symbolic link whose target is gone, for one). *)
#[local] Unset Elimination Schemes.
Inductive DirEntry : Type :=
| FileEntry (name : string)
| SubDir (name : string) (listing : Js.completion (list DirEntry))
| StatFails (name : string) (error : string).
#[local] Set Elimination Schemes.

(** The walk meets no failure at this entry: [statSync] succeeds on it,
    and when it is a directory the walk enters (one whose name does not
    start with a dot), [readdirSync] succeeds on it and the walk meets no
    failure below. *)
Fixpoint walkableEntry (e : DirEntry) : bool :=
  match e with
  | FileEntry _ => true
  | StatFails _ _ => false
  | SubDir file listing =>
    if Js.startsWith file "." then true
    else match listing with
         | Js.Return entries => forallb walkableEntry entries
         | Js.Throw _ => false
         end
  end.

Definition walkable (listing : Js.completion (list DirEntry)) : bool :=
  match listing with
  | Js.Return entries => forallb walkableEntry entries
  | Js.Throw _ => false
  end.

Section ContentAndWalk.
Context `{NodePath} `{Minimatch} `{NodeBuffer} `{JsRegExp}.

(** The argument type [RegExp | RegExp[]]. *)
Inductive RegexArg : Type :=
| OneRegex (r : RegExp)
| RegexArray (rs : list RegExp).

Definition regexList (patterns : RegexArg) : list RegExp :=
  match patterns with
  | RegexArray rs => rs
  | OneRegex r => [r]
  end.

(** The line of the [console.warn] in the [catch] block. *)
Definition skipWarning (filePath : string) : string :=
  "Warning: Could not read file " ++ filePath
    ++ " for content regex check. Skipping file.".

(** [matchesContentRegex]; a [RegExp] and an array are truthy, so only an
    absent argument takes the first [return true]. *)
Definition matchesContentRegex (fs : FileSystem) (filePath : string)
    (patterns : option RegexArg) : Io bool :=
  match patterns with
  | None => io_ret true
  | Some pats =>
    io_try
      (io_bind (io_lift (buf ← readFileSync fs filePath; mret (decode Utf8 buf)))
         (fun content => someTest (regexList pats) content))
      (fun _ =>
         io_bind (console_warn (skipWarning filePath)) (fun _ => io_ret false))
  end.

(** One iteration of the loop of [walkDir], and the loop itself as the
    inner [fix]; [results] is the array the closure pushes to.  An error
    of [statSync], or of [readdirSync] in the recursive call, is not
    caught. *)
Fixpoint walkEntry (fs : FileSystem) (filenamePattern : option PatternArg)
    (contentRegex : option RegexArg) (currentDir : string) (e : DirEntry)
    (results : list string) {struct e} : Io (list string) :=
  match e with
  | StatFails file error => io_lift (Js.Throw error)
  | SubDir file listing =>
    let fullPath := join currentDir file in
    if negb (Js.startsWith file ".")
    then
      match listing with
      | Js.Throw error => io_lift (Js.Throw error)
      | Js.Return entries =>
        (fix walkAll (es : list DirEntry) (results : list string) : Io (list string) :=
           match es with
           | [] => io_ret results
           | e' :: es' =>
             io_bind (walkEntry fs filenamePattern contentRegex fullPath e' results)
                     (walkAll es')
           end) entries results
      end
    else io_ret results
  | FileEntry file =>
    let fullPath := join currentDir file in
    if matchesFilenamePattern fullPath filenamePattern
    then io_bind (matchesContentRegex fs fullPath contentRegex)
           (fun ok =>
              if ok then io_ret (results ++ [fullPath])%list else io_ret results)
    else io_ret results
  end.

(** The loop of [walkDir] over the names [readdirSync] returned. *)
Fixpoint walkDir (fs : FileSystem) (filenamePattern : option PatternArg)
    (contentRegex : option RegexArg) (currentDir : string) (es : list DirEntry)
    (results : list string) : Io (list string) :=
  match es with
  | [] => io_ret results
  | e :: es' =>
    io_bind (walkEntry fs filenamePattern contentRegex currentDir e results)
            (walkDir fs filenamePattern contentRegex currentDir es')
  end.

(** [findMatchingFiles(dir, filenamePattern, contentRegex)], where
    [listing] is what [readdirSync(dir)] gives, with what the file system
    holds below. *)
Definition findMatchingFiles (fs : FileSystem) (listing : Js.completion (list DirEntry))
    (dir : string) (filenamePattern : option PatternArg)
    (contentRegex : option RegexArg) : Io (list string) :=
  match listing with
  | Js.Throw error => io_lift (Js.Throw error)
  | Js.Return files => walkDir fs filenamePattern contentRegex dir files []
  end.

(** The files the walk comes to: those below [dir] with no ancestor
    directory, up to [dir], whose name starts with a dot. *)
Inductive reached : string -> list DirEntry -> string -> Prop :=
| reached_file dir es file :
    In (FileEntry file) es ->
    reached dir es (join dir file)
| reached_sub dir es file sub p :
    In (SubDir file (Js.Return sub)) es ->
    Js.startsWith file "." = false ->
    reached (join dir file) sub p ->
    reached dir es p.

(** Every file below [dir], hidden directories included. *)
Inductive fileBelow : string -> list DirEntry -> string -> Prop :=
| below_file dir es file :
    In (FileEntry file) es ->
    fileBelow dir es (join dir file)
| below_sub dir es file sub p :
    In (SubDir file (Js.Return sub)) es ->
    fileBelow (join dir file) sub p ->
    fileBelow dir es p.

(** A [RegExp] object without the [g] and [y] flags: a test leaves the
    object as it is, and its verdict depends on the content only. *)
Definition plainRegExp (r : RegExp) : Prop :=
  forall content store,
    snd (regexp_test r content store) = store /\
    forall store', fst (regexp_test r content store)
                   = fst (regexp_test r content store').

Definition plainPatterns (patterns : option RegexArg) : Prop :=
  match patterns with
  | None => True
  | Some pats => forall r, In r (regexList pats) -> plainRegExp r
  end.

(** The content dimension of the filter, as a proposition: the file can be
    read and one of the patterns matches its content ([store] is the
    state in which the patterns are tested; plain patterns do not look at
    it). *)
Definition contentAccepted (fs : FileSystem) (filePath : string)
    (patterns : option RegexArg) (store : RegExpStore) : Prop :=
  match patterns with
  | None => True
  | Some pats =>
    exists buf r,
      readFileSync fs filePath = Js.Return buf /\
      In r (regexList pats) /\
      fst (regexp_test r (decode Utf8 buf) store) = true
  end.

(** Both dimensions of the filter. *)
Definition accepted (fs : FileSystem) (filenamePattern : option PatternArg)
    (contentRegex : option RegexArg) (store : RegExpStore) (p : string) : Prop :=
  matchesFilenamePattern p filenamePattern = true /\
  contentAccepted fs p contentRegex store.

(** What the walk does at one entry where it meets no failure, with plain
    patterns: it returns, having pushed the reached files that both
    dimensions accept, and leaves the [RegExp] objects as they were. *)
Definition walkEntryOk (fs : FileSystem) (filenamePattern : option PatternArg)
    (contentRegex : option RegexArg) (e : DirEntry) : Prop :=
  walkableEntry e = true ->
  forall dir results w,
  exists found w',
    walkEntry fs filenamePattern contentRegex dir e results w
    = (Js.Return (results ++ found)%list, w') /\
    regexps w' = regexps w /\
    forall p,
      In p found <->
      reached dir [e] p /\ accepted fs filenamePattern contentRegex (regexps w) p.

(** What the walk does at any entry, whatever the patterns: it returns
    with more results where it meets no failure, and throws where it
    meets one. *)
Definition walkEntryRuns (fs : FileSystem) (filenamePattern : option PatternArg)
    (contentRegex : option RegexArg) (e : DirEntry) : Prop :=
  forall dir results w,
    if walkableEntry e
    then exists found w',
           walkEntry fs filenamePattern contentRegex dir e results w
           = (Js.Return (results ++ found)%list, w')
    else exists error w',
           walkEntry fs filenamePattern contentRegex dir e results w
           = (Js.Throw error, w').

End ContentAndWalk.

(** ** validateSemverMatch *)

Module Semver.

(** The numbers the function handles: what [Number.parseInt] returns (an
    integer, taken below [2^53] where doubles are exact, or [NaN]) and
    [undefined] for an array element that is not there. *)
Inductive JsNumber : Type :=
| Num (z : Z)
| NaN
| Undefined.

(** [a === b] *)
Definition strictEq (a b : JsNumber) : bool :=
  match a, b with
  | Num x, Num y => (x =? y)%Z
  | Undefined, Undefined => true
  | _, _ => false
  end.

(** [a > b], [a >= b], [a < b], [a <= b]: [undefined] converts to [NaN],
    and every comparison with [NaN] is false. *)
Definition gt (a b : JsNumber) : bool :=
  match a, b with Num x, Num y => (x >? y)%Z | _, _ => false end.
Definition ge (a b : JsNumber) : bool :=
  match a, b with Num x, Num y => (x >=? y)%Z | _, _ => false end.
Definition lt (a b : JsNumber) : bool :=
  match a, b with Num x, Num y => (x <? y)%Z | _, _ => false end.
Definition le (a b : JsNumber) : bool :=
  match a, b with Num x, Num y => (x <=? y)%Z | _, _ => false end.

(** [x || 0] on a number: [NaN] and [0] are falsy. *)
Definition orZero (a : JsNumber) : JsNumber :=
  match a with
  | Num z => Num z
  | NaN => Num 0
  | Undefined => Num 0
  end.

Definition isDigit (c : ascii) : bool :=
  let n := nat_of_ascii c in (48 <=? n)%nat && (n <=? 57)%nat.

Definition digitValue (c : ascii) : Z := Z.of_nat (nat_of_ascii c) - 48.

(** The ASCII white space that [parseInt] skips (space, tab, line feed,
    vertical tab, form feed, carriage return). *)
Definition isSpace (c : ascii) : bool :=
  let n := nat_of_ascii c in
  (n =? 32)%nat || ((9 <=? n)%nat && (n <=? 13)%nat).

Fixpoint skipSpaces (s : string) : string :=
  match s with
  | String c rest => if isSpace c then skipSpaces rest else s
  | EmptyString => s
  end.

(** The value of the longest prefix of digits, if there is a digit. *)
Fixpoint digitsValue (s : string) (acc : option Z) : option Z :=
  match s with
  | String c rest =>
    if isDigit c
    then digitsValue rest (Some (10 * default 0%Z acc + digitValue c)%Z)
    else acc
  | EmptyString => acc
  end.

(** [Number.parseInt(x, 10)] *)
Definition parseInt10 (x : string) : JsNumber :=
  let s := skipSpaces x in
  let '(sign, body) :=
    match s with
    | String "-" rest => ((-1)%Z, rest)
    | String "+" rest => (1%Z, rest)
    | _ => (1%Z, s)
    end in
  match digitsValue body None with
  | Some v => Num (sign * v)
  | None => NaN
  end.

(** [s.split('.')] *)
Definition splitDot (s : string) : list string := Js.split "." s.

(** Reading element [i] of an array: [undefined] past its end. *)
Definition element (l : list JsNumber) (i : nat) : JsNumber :=
  nth i l Undefined.

Definition Triple : Type := JsNumber * JsNumber * JsNumber.

Definition firstThree (l : list JsNumber) : Triple :=
  (element l 0, element l 1, element l 2).

(** [installedVersion.split('.').map((x) => Number.parseInt(x, 10))],
    destructured into [[major, minor, patch]]. *)
Definition installedTriple (installedVersion : string) : Triple :=
  firstThree (List.map parseInt10 (splitDot installedVersion)).

(** [version.split('.').map((x) => Number.parseInt(x, 10) || 0)],
    destructured into [[cMajor, cMinor, cPatch]]. *)
Definition constraintTriple (version : string) : Triple :=
  firstThree (List.map (fun x => orZero (parseInt10 x)) (splitDot version)).

(** *** The regular expression of the constraint

    From the start of the string to its end: group 1, any number of
    the characters [<=>^~]; group 2, one or more of [\d.]; optionally
    [-] and one or more of [\w.-]; optionally [+] and one or more of
    [\w.-].  Each class is followed by characters outside of it, so
    taking the longest run of each class is what the backtracking
    matcher finds. *)

Definition isOpChar (c : ascii) : bool :=
  existsb (Ascii.eqb c) ["<"; "="; ">"; "^"; "~"]%char.

Definition isVersionChar (c : ascii) : bool := isDigit c || Ascii.eqb c ".".

Definition isWordChar (c : ascii) : bool :=
  let n := nat_of_ascii c in
  isDigit c || ((65 <=? n)%nat && (n <=? 90)%nat)
  || ((97 <=? n)%nat && (n <=? 122)%nat) || (n =? 95)%nat.

Definition isTagChar (c : ascii) : bool :=
  isWordChar c || Ascii.eqb c "." || Ascii.eqb c "-".

(** The longest prefix of characters of a class, and the rest. *)
Fixpoint span (cls : ascii -> bool) (s : string) : string * string :=
  match s with
  | String c rest =>
    if cls c then let '(run, tail) := span cls rest in (String c run, tail)
    else (EmptyString, s)
  | EmptyString => (EmptyString, EmptyString)
  end.

(** The optional build tag and the end of the string. *)
Definition matchBuildAndEnd (s : string) : bool :=
  match s with
  | EmptyString => true
  | String "+" rest =>
    let '(build, tail) := span isTagChar rest in
    negb (String.eqb build EmptyString) && String.eqb tail EmptyString
  | _ => false
  end.

(** The optional pre-release tag, then the rest. *)
Definition matchTagsAndEnd (s : string) : bool :=
  match s with
  | String "-" rest =>
    let '(pre, tail) := span isTagChar rest in
    negb (String.eqb pre EmptyString) && matchBuildAndEnd tail
  | _ => matchBuildAndEnd s
  end.

(** [versionConstraint.match(constraintRegex)]: the groups [op] and
    [version], or nothing for [null]. *)
Definition constraintMatch (versionConstraint : string) : option (string * string) :=
  let '(op, afterOp) := span isOpChar versionConstraint in
  let '(version, afterVersion) := span isVersionChar afterOp in
  if negb (String.eqb version EmptyString) && matchTagsAndEnd afterVersion
  then Some (op, version)
  else None.

(** The range operators of the [switch], as predicates on the two triples. *)
Definition caret (i c : Triple) : bool :=
  let '(major, minor, patch) := i in
  let '(cMajor, cMinor, cPatch) := c in
  strictEq major cMajor
  && (gt minor cMinor || (strictEq minor cMinor && ge patch cPatch)).

Definition tilde (i c : Triple) : bool :=
  let '(major, minor, patch) := i in
  let '(cMajor, cMinor, cPatch) := c in
  strictEq major cMajor && strictEq minor cMinor && ge patch cPatch.

(** The four comparison cases share their shape: [strict] orders major
    and minor, [last] orders patch. *)
Definition ordered (strict last : JsNumber -> JsNumber -> bool) (i c : Triple)
  : bool :=
  let '(major, minor, patch) := i in
  let '(cMajor, cMinor, cPatch) := c in
  strict major cMajor
  || (strictEq major cMajor && strict minor cMinor)
  || (strictEq major cMajor && strictEq minor cMinor && last patch cPatch).

(** [validateSemverMatch]; an absent constraint and the empty string are
    falsy, and the [switch] on [op] is the chain of string tests. *)
Definition validateSemverMatch (installedVersion : string)
    (versionConstraint : option string) : bool :=
  match versionConstraint with
  | None => true
  | Some constraint =>
    if String.eqb constraint EmptyString then true
    else if String.eqb installedVersion constraint then true
    else
      let i := installedTriple installedVersion in
      match constraintMatch constraint with
      | None => false
      | Some (op, version) =>
        let c := constraintTriple version in
        if String.eqb op "^" then caret i c
        else if String.eqb op "~" then tilde i c
        else if String.eqb op ">=" then ordered gt ge i c
        else if String.eqb op ">" then ordered gt gt i c
        else if String.eqb op "<=" then ordered lt le i c
        else if String.eqb op "<" then ordered lt lt i c
        else if String.eqb op "=" || String.eqb op EmptyString
        then String.eqb installedVersion version
        else false
      end
  end.

(** The operators whose case compares the numbers. *)
Definition rangeOperators : list string := ["^"; "~"; ">="; ">"; "<="; "<"].

Definition isRangeOperator (op : string) : bool :=
  existsb (String.eqb op) rangeOperators.

(** The operator-to-predicate table of the [switch]. *)
Definition rangePredicate (op : string) : Triple -> Triple -> bool :=
  if String.eqb op "^" then caret
  else if String.eqb op "~" then tilde
  else if String.eqb op ">=" then ordered gt ge
  else if String.eqb op ">" then ordered gt gt
  else if String.eqb op "<=" then ordered lt le
  else if String.eqb op "<" then ordered lt lt
  else fun _ _ => false.

End Semver.

(* ================================================================== *)
(** * Part II.  The consumer engine                                    *)
(* ================================================================== *)

(** The file that implements [extract] and [check] (consumer.ts) is not
    among the sources; its tests and the types of its results are.  The
    engine below follows the written specification of the package: the
    data model (section 3), MarkerStore (4.1), SyncEngine (4.3),
    DiffChecker (4.4) and the error taxonomy (section 7).

    Where the data model and the algorithm differ on a file owned by
    another package, the algorithm of 4.3 is followed: step 5 counts it as
    not managed by the extracting package, and [upsert] keeps the entries
    of other packages.  Left out: the [.gitignore] upkeep, which writes
    neither package files nor markers; installing and resolving packages,
    whose result the engine is given; I/O failures of the copy. *)

Module Consumer.

(** A directory is the list of its path segments; a file is named by its
    directory and its name in that directory. *)
Abbreviation Dir := (list string).
Abbreviation FilePath := (list string * string)%type.

(** [ManagedFileMetadata] of types.ts; [path] is relative to the
    directory of the marker, [force] is written out as a boolean. *)
Record ManagedFileMetadata := {
  path : string;
  packageName : string;
  packageVersion : string;
  force : bool
}.

Abbreviation MarkerRecord := (list ManagedFileMetadata).

Record FileOnDisk := {
  bytes : string;
  readOnly : bool
}.

(** Modelled from the spec: the output tree as SyncEngine and DiffChecker
    see it (consumer.ts is missing).  The marker of each directory is
    held parsed, next to the files, as the explicit store of the design
    notes; an absent key is an absent marker file.  Reading and writing
    a marker as a JSON file is in Part I. *)
Record Disk := {
  files : gmap FilePath FileOnDisk;
  markers : gmap Dir MarkerRecord
}.

(** ** MarkerStore (4.1) *)

(** Modelled from the spec: [load(dir)] on the parsed store; an absent
    marker is the empty record. *)
Definition load (d : Disk) (dir : Dir) : MarkerRecord :=
  default [] (markers d !! dir).

Definition sameKey (a b : ManagedFileMetadata) : bool :=
  String.eqb (path a) (path b) && String.eqb (packageName a) (packageName b).

(** Modelled from the spec: [upsert] replaces the entry with the same
    [(path, packageName)], else appends; the other entries keep their
    places. *)
Fixpoint upsert (record : MarkerRecord) (entry : ManagedFileMetadata)
  : MarkerRecord :=
  match record with
  | [] => [entry]
  | e :: rest =>
    if sameKey e entry then entry :: rest else e :: upsert rest entry
  end.

(** Modelled from the spec: [isManaged(dir, relativePath, packageName?)]
    on a loaded record. *)
Definition isManaged (record : MarkerRecord) (relativePath : string)
    (package : option string) : bool :=
  existsb
    (fun e =>
       String.eqb (path e) relativePath
       && match package with
          | Some name => String.eqb (packageName e) name
          | None => true
          end)
    record.

(** The entries of a record for one path and one package. *)
Definition entriesFor (record : MarkerRecord) (relativePath package : string)
  : MarkerRecord :=
  List.filter
    (fun e => String.eqb (path e) relativePath && String.eqb (packageName e) package)
    record.

(** The package of the first entry for a path, if any: the owner a
    conflict names. *)
Definition ownerOf (record : MarkerRecord) (relativePath : string) : option string :=
  packageName <$> List.find (fun e => String.eqb (path e) relativePath) record.

(** Modelled from the spec: [save(dir, record)] on the parsed store. *)
Definition save (d : Disk) (dir : Dir) (record : MarkerRecord) : Disk :=
  {| files := files d; markers := <[dir := record]> (markers d) |}.

(** The copy of step 6: the bytes of the source at [dest], read-only. *)
Definition copyReadOnly (d : Disk) (dest : FilePath) (content : string) : Disk :=
  {| files := <[dest := {| bytes := content; readOnly := true |}]> (files d);
     markers := markers d |}.

(** ** What the engine is given *)

(** An installed package as the package-resolution boundary returns it:
    name, version and the files below its root, by relative path. *)
Record Package := {
  name : string;
  version : string;
  sourceFiles : gmap FilePath string
}.

(** The options of a call.  [shouldInclude] is the FilterEngine predicate
    the call's patterns (or the default patterns) stand for. *)
Record Config := {
  allowConflicts : bool;
  dryRun : bool;
  shouldInclude : FilePath -> string -> bool
}.

(** ContentHasher *)
Class ContentHasher := { hash : string -> string }.

Inductive Error : Type :=
| FileConflict (at_ : FilePath) (owner : option string)
| PackageNotInstalled (package : string).

(** [ProgressEvent] of types.ts *)
Inductive ProgressEvent : Type :=
| PackageStart (package version_ : string)
| PackageEnd (package version_ : string)
| FileAdded (package : string) (file : FilePath)
| FileModified (package : string) (file : FilePath)
| FileDeleted (package : string) (file : FilePath)
| FileSkipped (package : string) (file : FilePath).

Record Changes := {
  added : list FilePath;
  modified : list FilePath;
  deleted : list FilePath;
  skipped : list FilePath
}.

Definition noChanges : Changes :=
  {| added := []; modified := []; deleted := []; skipped := [] |}.

Definition mergeChanges (a b : Changes) : Changes :=
  {| added := added a ++ added b;
     modified := modified a ++ modified b;
     deleted := deleted a ++ deleted b;
     skipped := skipped a ++ skipped b |}%list.

Record PackageChanges := {
  pcName : string;
  pcVersion : string;
  pcChanges : Changes
}.

(** [ConsumerResult] of types.ts *)
Record ConsumerResult := {
  total : Changes;
  sourcePackages : list PackageChanges
}.

(** The state a walk threads: the output tree, the events emitted so far
    and the changes counted so far. *)
Record Run := {
  disk : Disk;
  events : list ProgressEvent;
  changes : Changes
}.

Definition emit (ev : ProgressEvent) (r : Run) : Run :=
  {| disk := disk r; events := (events r ++ [ev])%list; changes := changes r |}.

(** ** SyncEngine (4.3) *)

Definition destPath (outputDir : Dir) (p : FilePath) : FilePath :=
  ((outputDir ++ p.1)%list, p.2).

(** The candidate files of a package: its source files that the filter
    accepts, with their bytes. *)
Definition candidates (cfg : Config) (pkg : Package) : list (FilePath * string) :=
  List.filter (fun pc => shouldInclude cfg pc.1 pc.2)
              (map_to_list (sourceFiles pkg)).

Inductive Action : Type :=
| Add (forced : bool)
| Update
| Skip
| Conflict (owner : option string).

Section Engine.
Context `{ContentHasher}.

(** Modelled from the spec: steps 1 to 5 of the algorithm of 4.3. *)
Definition classify (cfg : Config) (pkg : Package) (outputDir : Dir) (d : Disk)
    (p : FilePath) (content : string) : Action :=
  let dest := destPath outputDir p in
  let marker := load d dest.1 in
  match files d !! dest with
  | None => Add false
  | Some onDisk =>
    if isManaged marker dest.2 (Some (name pkg))
    then if String.eqb (hash (bytes onDisk)) (hash content) then Skip else Update
    else if allowConflicts cfg then Add true
    else Conflict (ownerOf marker dest.2)
  end.


(** A candidate that is in place: its destination holds a file with the
    hash of the source, and the marker of the directory lists it for the
    package. *)
Definition inPlace (pkg : Package) (outputDir : Dir) (d : Disk)
    (candidate : FilePath * string) : Prop :=
  (exists onDisk,
     files d !! destPath outputDir candidate.1 = Some onDisk /\
     hash (bytes onDisk) = hash candidate.2) /\
  isManaged (load d (destPath outputDir candidate.1).1)
    (destPath outputDir candidate.1).2 (Some (name pkg)) = true.

(** Modelled from the spec: step 6, the write of an add or an update:
    the bytes of the source, read-only, and the marker entry. *)
Definition writeManaged (pkg : Package) (outputDir : Dir) (p : FilePath)
    (content : string) (forced : bool) (d : Disk) : Disk :=
  let dest := destPath outputDir p in
  let entry := {| path := dest.2; packageName := name pkg;
                  packageVersion := version pkg; force := forced |} in
  let copied := copyReadOnly d dest content in
  save copied dest.1 (upsert (load copied dest.1) entry).

Definition applyWrite (cfg : Config) (pkg : Package) (outputDir : Dir)
    (p : FilePath) (content : string) (forced : bool) (d : Disk) : Disk :=
  if dryRun cfg then d else writeManaged pkg outputDir p content forced d.

(** Modelled from the spec: steps 1 to 8 for one candidate file. *)
Definition processFile (cfg : Config) (pkg : Package) (outputDir : Dir)
    (candidate : FilePath * string) (r : Run) : Error + Run :=
  let '(p, content) := candidate in
  let dest := destPath outputDir p in
  let c := changes r in
  match classify cfg pkg outputDir (disk r) p content with
  | Conflict owner => inl (FileConflict dest owner)
  | Add forced =>
    inr {| disk := applyWrite cfg pkg outputDir p content forced (disk r);
           events := (events r ++ [FileAdded (name pkg) dest])%list;
           changes := {| added := (added c ++ [dest])%list; modified := modified c;
                         deleted := deleted c; skipped := skipped c |} |}
  | Update =>
    inr {| disk := applyWrite cfg pkg outputDir p content false (disk r);
           events := (events r ++ [FileModified (name pkg) dest])%list;
           changes := {| added := added c; modified := (modified c ++ [dest])%list;
                         deleted := deleted c; skipped := skipped c |} |}
  | Skip =>
    inr {| disk := disk r;
           events := (events r ++ [FileSkipped (name pkg) dest])%list;
           changes := {| added := added c; modified := modified c;
                         deleted := deleted c;
                         skipped := (skipped c ++ [dest])%list |} |}
  end.

(** The walk over the candidates: it stops at the first conflict, with
    the state it had reached. *)
Fixpoint walk (cfg : Config) (pkg : Package) (outputDir : Dir)
    (cands : list (FilePath * string)) (r : Run) : option Error * Run :=
  match cands with
  | [] => (None, r)
  | c :: rest =>
    match processFile cfg pkg outputDir c r with
    | inl err => (Some err, r)
    | inr r' => walk cfg pkg outputDir rest r'
    end
  end.

(** *** Orphan cleanup

    Modelled from the spec: a path a marker below [outputDir] records
    for this package, and that is no candidate destination of this run,
    is removed from disk and from its marker. *)
Definition candidateDests (cfg : Config) (pkg : Package) (outputDir : Dir)
  : list FilePath :=
  List.map (fun pc => destPath outputDir pc.1) (candidates cfg pkg).

Definition isOrphan (dests : list FilePath) (pkg : Package) (outputDir dir : Dir)
    (e : ManagedFileMetadata) : bool :=
  bool_decide (outputDir `prefix_of` dir)
  && String.eqb (packageName e) (name pkg)
  && negb (bool_decide ((dir, path e) ∈ dests)).

Definition orphansIn (dests : list FilePath) (pkg : Package) (outputDir : Dir)
    (marker : Dir * MarkerRecord) : list FilePath :=
  List.map (fun e => (marker.1, path e))
           (List.filter (isOrphan dests pkg outputDir marker.1) marker.2).

Definition orphanPaths (dests : list FilePath) (pkg : Package) (outputDir : Dir)
    (d : Disk) : list FilePath :=
  List.flat_map (orphansIn dests pkg outputDir) (map_to_list (markers d)).

Definition dropOrphans (dests : list FilePath) (pkg : Package) (outputDir : Dir)
    (d : Disk) : Disk :=
  {| files := fold_right delete (files d) (orphanPaths dests pkg outputDir d);
     markers :=
       map_imap
         (fun dir record =>
            Some (List.filter
                    (fun e => negb (isOrphan dests pkg outputDir dir e)) record))
         (markers d) |}.

Definition cleanup (cfg : Config) (pkg : Package) (outputDir : Dir) (r : Run) : Run :=
  let dests := candidateDests cfg pkg outputDir in
  let gone := orphanPaths dests pkg outputDir (disk r) in
  let c := changes r in
  {| disk := if dryRun cfg then disk r
             else dropOrphans dests pkg outputDir (disk r);
     events := (events r ++ List.map (FileDeleted (name pkg)) gone)%list;
     changes := {| added := added c; modified := modified c;
                   deleted := (deleted c ++ gone)%list; skipped := skipped c |} |}.

(** The state in which the walk of a package starts. *)
Definition beginPackage (pkg : Package) (d : Disk) (evs : list ProgressEvent) : Run :=
  {| disk := d;
     events := (evs ++ [PackageStart (name pkg) (version pkg)])%list;
     changes := noChanges |}.

(** Modelled from the spec: the extraction of one package, bracketed by
    [package-start] and [package-end].  A conflict ends it at once: no
    cleanup, no [package-end]. *)
Definition extractPackage (cfg : Config) (outputDir : Dir) (pkg : Package)
    (d : Disk) (evs : list ProgressEvent) : option Error * Run :=
  match walk cfg pkg outputDir (candidates cfg pkg) (beginPackage pkg d evs) with
  | (Some err, r) => (Some err, r)
  | (None, r) =>
    (None, emit (PackageEnd (name pkg) (version pkg)) (cleanup cfg pkg outputDir r))
  end.

(** What a call leaves behind: the output tree and the events delivered,
    and either the error thrown or the result returned. *)
Record Outcome (A : Type) := {
  returned : Error + A;
  finalDisk : Disk;
  delivered : list ProgressEvent
}.
Arguments returned {A} _.
Arguments finalDisk {A} _.
Arguments delivered {A} _.

Definition emptyResult : ConsumerResult :=
  {| total := noChanges; sourcePackages := [] |}.

(** Modelled from the spec: ConsumerOrchestrator for [extract]: the
    packages one after the other, the per-package changes accumulated;
    an error ends the call and leaves earlier writes in place. *)
Fixpoint extractAll (cfg : Config) (outputDir : Dir) (pkgs : list Package)
    (acc : ConsumerResult) (d : Disk) (evs : list ProgressEvent)
  : Outcome ConsumerResult :=
  match pkgs with
  | [] => {| returned := inr acc; finalDisk := d; delivered := evs |}
  | pkg :: rest =>
    match extractPackage cfg outputDir pkg d evs with
    | (Some err, r) =>
      {| returned := inl err; finalDisk := disk r; delivered := events r |}
    | (None, r) =>
      extractAll cfg outputDir rest
        {| total := mergeChanges (total acc) (changes r);
           sourcePackages :=
             (sourcePackages acc
              ++ [{| pcName := name pkg; pcVersion := version pkg;
                     pcChanges := changes r |}])%list |}
        (disk r) (events r)
    end
  end.

Definition extract (cfg : Config) (outputDir : Dir) (pkgs : list Package) (d : Disk)
  : Outcome ConsumerResult :=
  extractAll cfg outputDir pkgs emptyResult d [].

(** ** DiffChecker (4.4) *)

Record Differences := {
  missing : list FilePath;
  changed : list FilePath;
  extra : list FilePath
}.

Definition noDifferences : Differences :=
  {| missing := []; changed := []; extra := [] |}.

Definition mergeDifferences (a b : Differences) : Differences :=
  {| missing := missing a ++ missing b;
     changed := changed a ++ changed b;
     extra := extra a ++ extra b |}%list.

Definition inSync (df : Differences) : bool :=
  match missing df, changed df with
  | [], [] => true
  | _, _ => false
  end.

Record PackageCheck := {
  chkName : string;
  chkVersion : string;
  chkOk : bool;
  chkDifferences : Differences
}.

(** [CheckResult] of types.ts; [changed] is its [modified] list. *)
Record CheckResult := {
  ok : bool;
  differences : Differences;
  checkedPackages : list PackageCheck
}.

(** Modelled from the spec: the class of one candidate path. *)
Definition checkFile (pkg : Package) (outputDir : Dir) (d : Disk)
    (candidate : FilePath * string) (df : Differences) : Differences :=
  let '(p, content) := candidate in
  let dest := destPath outputDir p in
  if isManaged (load d dest.1) dest.2 (Some (name pkg))
  then match files d !! dest with
       | None =>
         {| missing := (missing df ++ [dest])%list; changed := changed df;
            extra := extra df |}
       | Some onDisk =>
         if String.eqb (hash (bytes onDisk)) (hash content) then df
         else {| missing := missing df; changed := (changed df ++ [dest])%list;
                 extra := extra df |}
       end
  else {| missing := missing df; changed := changed df;
          extra := (extra df ++ [dest])%list |}.

Definition checkPackage (cfg : Config) (outputDir : Dir) (pkg : Package) (d : Disk)
  : Differences :=
  fold_left (fun df c => checkFile pkg outputDir d c df) (candidates cfg pkg)
            noDifferences.

(** Modelled from the spec: [check] over the packages of a call, each
    given by its name and what the resolver found for it. *)
Fixpoint checkAll (cfg : Config) (outputDir : Dir)
    (pkgs : list (string * option Package)) (acc : CheckResult) (d : Disk)
  : Error + CheckResult :=
  match pkgs with
  | [] => inr acc
  | (wanted, None) :: _ => inl (PackageNotInstalled wanted)
  | (_, Some pkg) :: rest =>
    let df := checkPackage cfg outputDir pkg d in
    checkAll cfg outputDir rest
      {| ok := ok acc && inSync df;
         differences := mergeDifferences (differences acc) df;
         checkedPackages :=
           (checkedPackages acc
            ++ [{| chkName := name pkg; chkVersion := version pkg;
                   chkOk := inSync df; chkDifferences := df |}])%list |}
      d
  end.

Definition check (cfg : Config) (outputDir : Dir)
    (pkgs : list (string * option Package)) (d : Disk) : Error + CheckResult :=
  checkAll cfg outputDir pkgs
    {| ok := true; differences := noDifferences; checkedPackages := [] |} d.

End Engine.

Arguments returned {A} _.
Arguments finalDisk {A} _.
Arguments delivered {A} _.

End Consumer.

(* ================================================================== *)
(** * Part III.  Marker files on disk                                  *)
(* ================================================================== *)

(** The name of the marker file in a managed directory. *)
Definition MARKER_FILE : string := ".folder-publisher".

(** A marker record as the JSON value [{ managedFiles: [...] }]; the
    properties of an entry are in the order in which [ManagedFileMetadata]
    declares them. *)
Definition entryToJson (e : Consumer.ManagedFileMetadata) : Json :=
  JObject [("path", JString (Consumer.path e));
           ("packageName", JString (Consumer.packageName e));
           ("packageVersion", JString (Consumer.packageVersion e));
           ("force", JBool (Consumer.force e))].

Definition markerToJson (record : Consumer.MarkerRecord) : Json :=
  JObject [("managedFiles", JArray (List.map entryToJson record))].

(** The text of a marker file as the specification describes it: the
    record pretty-printed with two spaces per level ([JSON.block] lays out
    the lines of an object or array between its brackets), each entry with
    its properties in the declared order, and a newline at the end. *)
Definition entryText (e : Consumer.ManagedFileMetadata) : string :=
  JSON.block "{" "}" 4 6
    [JSON.quote "path" ++ ": " ++ JSON.quote (Consumer.path e);
     JSON.quote "packageName" ++ ": " ++ JSON.quote (Consumer.packageName e);
     JSON.quote "packageVersion" ++ ": " ++ JSON.quote (Consumer.packageVersion e);
     JSON.quote "force" ++ ": " ++ (if Consumer.force e then "true" else "false")].

Definition markerText (record : Consumer.MarkerRecord) : string :=
  JSON.block "{" "}" 0 2
    [JSON.quote "managedFiles" ++ ": "
     ++ JSON.block "[" "]" 2 4 (List.map entryText record)]
  ++ JSON.lf.

(** The file at [p] can be written: nothing is there, or a file the
    process may write. *)
Definition targetWritable (fs : FileSystem) (p : string) : Prop :=
  match fs !! p with
  | None => True
  | Some (RegularFile _ mode) => ownerCanWrite mode = true
  | Some Directory => False
  end.

Section MarkerFiles.
Context `{NodePath} `{NodeBuffer} `{JsJSON}.

(** The directory of [filePath] is there, or can be made: no regular file
    is in the way, and [filePath] is not among the directories made. *)
Definition parentAvailable (fs : FileSystem) (filePath : string) : Prop :=
  match fs !! dirname filePath with
  | Some Directory => True
  | Some (RegularFile _ _) => False
  | None =>
    existsb (isRegularFile fs) (pathChain (dirname filePath)) = false /\
    ~ In filePath (pathChain (dirname filePath))
  end.

Definition markerPath (dir : string) : string := join dir MARKER_FILE.

(** Modelled from the spec: [MarkerStore.load(dir)] (consumer.ts is
    missing): the empty record when the directory has no marker file,
    else the marker read with [readJsonFile], whose error stands for
    [CorruptMarker]. *)
Definition loadMarkerFile (fs : FileSystem) (dir : string) : Js.completion Json :=
  if existsSync fs (markerPath dir)
  then readJsonFile fs (markerPath dir)
  else Js.Return (markerToJson []).

(** The message of the error [readJsonFile] throws for the marker of
    [dir], when reading or parsing it failed with [e]. *)
Definition corruptMarkerMessage (dir e : string) : string :=
  "Error: Failed to read JSON file " ++ markerPath dir ++ ": " ++ e.

(** Modelled from the spec: [MarkerStore.save(dir, record)] (consumer.ts
    is missing), through [writeJsonFile]. *)
Definition saveMarkerFile (fs : FileSystem) (dir : string)
    (record : Consumer.MarkerRecord) : Js.completion FileSystem :=
  writeJsonFile fs (markerPath dir) (markerToJson record).

End MarkerFiles.

(* ================================================================== *)
(** * Part IV.  The other functions of utils.ts                        *)
(* ================================================================== *)

(** ** removeFile and copyFile *)

(** The mode [0o644] that [removeFile] sets before it unlinks. *)
Definition writableMode : N := 420.

(** [fs.chmodSync(p, mode)]; a directory carries no mode here. *)
Definition chmodSync (fs : FileSystem) (p : string) (mode : N)
  : Js.completion FileSystem :=
  match fs !! p with
  | Some (RegularFile data _) => Js.Return (<[p := RegularFile data mode]> fs)
  | Some Directory => Js.Return fs
  | None =>
    Js.Throw ("Error: ENOENT: no such file or directory, chmod '" ++ p ++ "'")
  end.

(** [fs.unlinkSync(p)] *)
Definition unlinkSync (fs : FileSystem) (p : string) : Js.completion FileSystem :=
  match fs !! p with
  | Some (RegularFile _ _) => Js.Return (delete p fs)
  | Some Directory =>
    Js.Throw ("Error: EISDIR: illegal operation on a directory, unlink '" ++ p ++ "'")
  | None =>
    Js.Throw ("Error: ENOENT: no such file or directory, unlink '" ++ p ++ "'")
  end.

(** [removeFile] *)
Definition removeFile (fs : FileSystem) (filePath : string) : Js.completion FileSystem :=
  Js.try_catch
    (if existsSync fs filePath
     then fs1 ← chmodSync fs filePath writableMode; unlinkSync fs1 filePath
     else Js.Return fs)
    (fun error =>
       Js.Throw ("Error: Failed to remove file " ++ filePath ++ ": " ++ error)).

Section CopyFile.
Context `{NodePath} `{NodeBuffer}.

(** [fs.copyFileSync(src, dest)]: the bytes and the mode of [src] at
    [dest]; an existing [dest] is opened for writing. *)
Definition copyFileSync (fs : FileSystem) (src dest : string)
  : Js.completion FileSystem :=
  match fs !! src with
  | Some (RegularFile data mode) =>
    if ownerCanRead mode
    then
      match fs !! dirname dest with
      | Some Directory =>
        match fs !! dest with
        | Some Directory =>
          Js.Throw ("Error: EISDIR: illegal operation on a directory, copyfile '"
                    ++ src ++ "' -> '" ++ dest ++ "'")
        | Some (RegularFile _ destMode) =>
          if ownerCanWrite destMode
          then Js.Return (<[dest := RegularFile data mode]> fs)
          else Js.Throw ("Error: EACCES: permission denied, copyfile '"
                         ++ src ++ "' -> '" ++ dest ++ "'")
        | None => Js.Return (<[dest := RegularFile data mode]> fs)
        end
      | _ =>
        Js.Throw ("Error: ENOENT: no such file or directory, copyfile '"
                  ++ src ++ "' -> '" ++ dest ++ "'")
      end
    else Js.Throw ("Error: EACCES: permission denied, copyfile '"
                   ++ src ++ "' -> '" ++ dest ++ "'")
  | Some Directory =>
    Js.Throw ("Error: EISDIR: illegal operation on a directory, copyfile '"
              ++ src ++ "' -> '" ++ dest ++ "'")
  | None =>
    Js.Throw ("Error: ENOENT: no such file or directory, copyfile '"
              ++ src ++ "' -> '" ++ dest ++ "'")
  end.

(** [copyFile] *)
Definition copyFile (fs : FileSystem) (src dest : string) : Js.completion FileSystem :=
  fs1 ← ensureDir fs (dirname dest);
  copyFileSync fs1 src dest.

End CopyFile.

(** ** getFileHash *)

(** [crypto.createHash('sha256').update(content).digest('hex')] *)
Class NodeCrypto := { sha256Hex : string -> string }.

(** [getFileHash] *)
Definition getFileHash `{NodeCrypto} (fs : FileSystem) (filePath : string)
  : Js.completion string :=
  content ← readFileSync fs filePath;
  mret (sha256Hex content).

(** ** detectPackageManager *)

Inductive PackageManager : Type := Npm | Yarn | Pnpm.

(** [array.includes(name)] on an array of strings *)
Definition arrayIncludes (l : list string) (name : string) : bool :=
  existsb (String.eqb name) l.

(** [detectPackageManager], as a function of the two things it observes:
    what [fs.readdirSync('.')] returns or throws, and the environment
    variable [npm_config_user_agent], absent or set. *)
Definition detectPackageManager (cwdListing : Js.completion (list string))
    (npm_config_user_agent : option string) : PackageManager :=
  let fromLockFiles : option PackageManager :=
    match cwdListing with
    | Js.Return lockFiles =>
      if arrayIncludes lockFiles "pnpm-lock.yaml" then Some Pnpm
      else if arrayIncludes lockFiles "yarn.lock" then Some Yarn
      else if arrayIncludes lockFiles "package-lock.json" then Some Npm
      else None
    | Js.Throw _ => None
    end in
  match fromLockFiles with
  | Some manager => manager
  | None =>
    let userAgent := default EmptyString npm_config_user_agent in
    if Js.includes userAgent "yarn" then Yarn
    else if Js.includes userAgent "pnpm" then Pnpm
    else Npm
  end.

(** ** Values read out of parsed JSON *)

(** A JavaScript value that is [undefined] or came out of [JSON.parse]. *)
Inductive JsValue : Type :=
| JsUndefined
| JsOf (v : Json).

(** The value of an own property; of a repeated key the last one stays. *)
Fixpoint lookupProperty (fields : list (string * Json)) (key : string) : JsValue :=
  match fields with
  | [] => JsUndefined
  | (k, v) :: rest =>
    match lookupProperty rest key with
    | JsOf later => JsOf later
    | JsUndefined => if String.eqb k key then JsOf v else JsUndefined
    end
  end.

(** [value.key] for the keys the code reads ([name], [version], [npmdata],
    [additionalPackages]), which no prototype defines: reading them off
    [null] throws, off a number, boolean, string or array gives
    [undefined]. *)
Definition getProperty (value : Json) (key : string) : Js.completion JsValue :=
  match value with
  | JNull =>
    Js.Throw ("TypeError: Cannot read properties of null (reading '" ++ key ++ "')")
  | JObject fields => Js.Return (lookupProperty fields key)
  | _ => Js.Return JsUndefined
  end.

(** ** getInstalledPackageVersion *)

(** [require.resolve(request)] and [require.resolve(request, { paths })] *)
Class NodeModule := {
  require_resolve : string -> option (list string) -> Js.completion string
}.

Section InstalledVersion.
Context `{NodeBuffer} `{JsJSON} `{NodeModule}.

(** [getInstalledPackageVersion]; the [catch] returns [null]. *)
Definition getInstalledPackageVersion (fs : FileSystem) (packageName : string)
    (packageManager : PackageManager) : Js.completion JsValue :=
  Js.try_catch
    (pkgPath ← require_resolve (packageName ++ "/package.json") None;
     buf ← readFileSync fs pkgPath;
     pkg ← JSON_parse (decode Utf8 buf);
     getProperty pkg "version")
    (fun _ => Js.Return (JsOf JNull)).

End InstalledVersion.

(** ** runCommand *)

(** [execSync(command, options)]: the output of the command, or the error
    of a command that failed. *)
Class ChildProcess := { execSync : string -> Js.completion string }.

(** [runCommand] *)
Definition runCommand `{ChildProcess} (command : string) : Js.completion string :=
  Js.try_catch (execSync command)
    (fun error =>
       Js.Throw ("Error: Command failed: " ++ command ++ JSON.lf ++ error)).

(* ================================================================== *)
(** * Part V.  The runner of a publishable package                     *)
(* ================================================================== *)

(** The double quote, for the texts the runner builds. *)
Definition quoteMark : string := String (ascii_of_nat 34) EmptyString.

(** ** collectPackages *)

(** [String(value)] and, for the elements of [array.join], the empty
    string for [null]. *)
Fixpoint jsToString (v : Json) : string :=
  match v with
  | JNull => "null"
  | JBool true => "true"
  | JBool false => "false"
  | JNumber z => DecimalString.NilZero.string_of_int (Z.to_int z)
  | JString s => s
  | JArray items =>
    (fix joined (l : list Json) : string :=
       match l with
       | [] => EmptyString
       | [x] => match x with JNull => EmptyString | _ => jsToString x end
       | x :: rest =>
         match x with JNull => EmptyString | _ => jsToString x end
         ++ "," ++ joined rest
       end) items
  | JObject _ => "[object Object]"
  end.

(** The string of one element in [array.join(',')]. *)
Definition elementString (x : JsValue) : string :=
  match x with
  | JsUndefined => EmptyString
  | JsOf JNull => EmptyString
  | JsOf v => jsToString v
  end.

(** [array.join(',')] *)
Fixpoint joinComma (l : list JsValue) : string :=
  match l with
  | [] => EmptyString
  | [x] => elementString x
  | x :: rest => elementString x ++ "," ++ joinComma rest
  end.

(** The characters of a string as one-character strings: what spreading a
    string yields (for ASCII text). *)
Fixpoint characters (s : string) : list Json :=
  match s with
  | EmptyString => []
  | String c rest => JString (String c EmptyString) :: characters rest
  end.

(** The elements [...additional] spreads: those of an array, the
    characters of a string; any other value is not iterable. *)
Definition spread (additional : Json) : Js.completion (list JsValue) :=
  match additional with
  | JArray items => Js.Return (List.map JsOf items)
  | JString s => Js.Return (List.map JsOf (characters s))
  | _ => Js.Throw "TypeError: additional is not iterable"
  end.

(** [pkg.npmdata?.additionalPackages ?? []] *)
Definition additionalPackagesOf (pkg : Json) : Js.completion Json :=
  npmdata ← getProperty pkg "npmdata";
  listed ← match npmdata with
           | JsUndefined => Js.Return JsUndefined
           | JsOf JNull => Js.Return JsUndefined
           | JsOf config => getProperty config "additionalPackages"
           end;
  match listed with
  | JsUndefined => Js.Return (JArray [])
  | JsOf JNull => Js.Return (JArray [])
  | JsOf value => Js.Return value
  end.

Section Runner.
Context `{NodePath} `{NodeBuffer} `{JsJSON} `{NodeModule}.

(** [collectPackages] *)
Definition collectPackages (fs : FileSystem) (pkgJsonPath : string)
  : Js.completion (list JsValue) :=
  buf ← readFileSync fs pkgJsonPath;
  pkg ← JSON_parse (decode Utf8 buf);
  additional ← additionalPackagesOf pkg;
  own ← getProperty pkg "name";
  spreadOut ← spread additional;
  mret (own :: spreadOut).

(** ** parseArgs *)

Record RunnerArgs := {
  outputDir : option string;
  force : bool;
  gitignore : bool;
  silent : bool;
  dryRun : bool;
  upgrade : bool;
  files : option string;
  contentRegex : option string
}.

Definition initialArgs : RunnerArgs :=
  {| outputDir := None; force := false; gitignore := false; silent := false;
     dryRun := false; upgrade := false; files := None; contentRegex := None |}.

(** [extraArgs[i + 1]] and the rest after it: [undefined] past the end. *)
Definition nextArgument (rest : list string) : option string * list string :=
  match rest with
  | [] => (None, [])
  | value :: rest' => (Some value, rest')
  end.

(** The loop of [parseArgs] from position [i]: [args] is what is left of
    [extraArgs] there, [a] the variables so far.  An option with a value
    skips the next argument. *)
Fixpoint parseArgsLoop (args : list string) (a : RunnerArgs) : RunnerArgs :=
  match args with
  | [] => a
  | arg :: rest =>
    if String.eqb arg "--output" || String.eqb arg "-o"
    then
      match rest with
      | [] => {| outputDir := None; force := force a; gitignore := gitignore a;
                 silent := silent a; dryRun := dryRun a; upgrade := upgrade a;
                 files := files a; contentRegex := contentRegex a |}
      | value :: rest' =>
        parseArgsLoop rest'
          {| outputDir := Some value; force := force a; gitignore := gitignore a;
             silent := silent a; dryRun := dryRun a; upgrade := upgrade a;
             files := files a; contentRegex := contentRegex a |}
      end
    else if String.eqb arg "--force"
    then parseArgsLoop rest
           {| outputDir := outputDir a; force := true; gitignore := gitignore a;
              silent := silent a; dryRun := dryRun a; upgrade := upgrade a;
              files := files a; contentRegex := contentRegex a |}
    else if String.eqb arg "--gitignore"
    then parseArgsLoop rest
           {| outputDir := outputDir a; force := force a; gitignore := true;
              silent := silent a; dryRun := dryRun a; upgrade := upgrade a;
              files := files a; contentRegex := contentRegex a |}
    else if String.eqb arg "--silent"
    then parseArgsLoop rest
           {| outputDir := outputDir a; force := force a; gitignore := gitignore a;
              silent := true; dryRun := dryRun a; upgrade := upgrade a;
              files := files a; contentRegex := contentRegex a |}
    else if String.eqb arg "--dry-run"
    then parseArgsLoop rest
           {| outputDir := outputDir a; force := force a; gitignore := gitignore a;
              silent := silent a; dryRun := true; upgrade := upgrade a;
              files := files a; contentRegex := contentRegex a |}
    else if String.eqb arg "--upgrade"
    then parseArgsLoop rest
           {| outputDir := outputDir a; force := force a; gitignore := gitignore a;
              silent := silent a; dryRun := dryRun a; upgrade := true;
              files := files a; contentRegex := contentRegex a |}
    else if String.eqb arg "--files"
    then
      match rest with
      | [] => {| outputDir := outputDir a; force := force a; gitignore := gitignore a;
                 silent := silent a; dryRun := dryRun a; upgrade := upgrade a;
                 files := None; contentRegex := contentRegex a |}
      | value :: rest' =>
        parseArgsLoop rest'
          {| outputDir := outputDir a; force := force a; gitignore := gitignore a;
             silent := silent a; dryRun := dryRun a; upgrade := upgrade a;
             files := Some value; contentRegex := contentRegex a |}
      end
    else if String.eqb arg "--content-regex"
    then
      match rest with
      | [] => {| outputDir := outputDir a; force := force a; gitignore := gitignore a;
                 silent := silent a; dryRun := dryRun a; upgrade := upgrade a;
                 files := files a; contentRegex := None |}
      | value :: rest' =>
        parseArgsLoop rest'
          {| outputDir := outputDir a; force := force a; gitignore := gitignore a;
             silent := silent a; dryRun := dryRun a; upgrade := upgrade a;
             files := files a; contentRegex := Some value |}
      end
    else parseArgsLoop rest a
  end.

(** [parseArgs] *)
Definition parseArgs (extraArgs : list string) : RunnerArgs :=
  parseArgsLoop extraArgs initialArgs.

(** The options that take the next argument as their value. *)
Definition takesValue (arg : string) : bool :=
  String.eqb arg "--output" || String.eqb arg "-o"
  || String.eqb arg "--files" || String.eqb arg "--content-regex".

(** ** run *)

(** [value ? template(value) : ''] for an optional string: [undefined] and
    the empty string are falsy. *)
Definition whenSet (value : option string) (template : string -> string) : string :=
  match value with
  | Some text => if String.eqb text EmptyString then EmptyString else template text
  | None => EmptyString
  end.

Definition whenTrue (flag : bool) (text : string) : string :=
  if flag then text else EmptyString.

Definition quoted (text : string) : string := quoteMark ++ text ++ quoteMark.

(** The command line [run] builds for a valid action. *)
Definition commandLine (fpCliPath action : string) (allPackages : list JsValue)
    (a : RunnerArgs) : string :=
  let outputFlag := whenSet (outputDir a) (fun dir => " --output " ++ quoted dir) in
  if String.eqb action "list"
  then "node " ++ quoted fpCliPath ++ " list" ++ outputFlag
  else
    "node " ++ quoted fpCliPath ++ " " ++ action
    ++ " --packages " ++ quoted (joinComma allPackages)
    ++ outputFlag
    ++ whenTrue (force a) " --force"
    ++ whenTrue (gitignore a) " --gitignore"
    ++ whenTrue (silent a) " --silent"
    ++ whenTrue (dryRun a) " --dry-run"
    ++ whenTrue (upgrade a) " --upgrade"
    ++ whenSet (files a) (fun value => " --files " ++ quoted value)
    ++ whenSet (contentRegex a) (fun value => " --content-regex " ++ quoted value).

(** What [run] comes to when nothing has thrown: the process exits with a
    message on the error stream, or the command is handed to [execSync]. *)
Inductive RunnerOutcome : Type :=
| Exits (code : nat) (stderr : string)
| Executes (command : string).

Definition invalidActionMessage (action : string) : string :=
  "Invalid action: " ++ quoted action ++ ". Must be " ++ quoted "extract" ++ ", "
  ++ quoted "check" ++ ", or " ++ quoted "list" ++ "." ++ JSON.lf.

(** [process.argv[2] ?? 'extract'] *)
Definition actionOf (argv : list string) : string := nth 2 argv "extract".

(** [run], up to its call of [execSync]; [argv] is [process.argv]. *)
Definition run (fs : FileSystem) (binDir : string) (argv : list string)
  : Js.completion RunnerOutcome :=
  let pkgJsonPath := join binDir "../package.json" in
  allPackages ← collectPackages fs pkgJsonPath;
  fpCliPath ← require_resolve "npmdata/dist/main.js" (Some [binDir]);
  let action := actionOf argv in
  if negb (String.eqb action "extract") && negb (String.eqb action "check")
     && negb (String.eqb action "list")
  then mret (Exits 1 (invalidActionMessage action))
  else mret (Executes (commandLine fpCliPath action allPackages
                         (parseArgs (skipn 3 argv)))).

End Runner.

(** ** Predicates used by the properties of these functions *)

(** The file at [p], if there is one, may be read. *)
Definition targetReadable (fs : FileSystem) (p : string) : Prop :=
  match fs !! p with
  | Some (RegularFile _ mode) => ownerCanRead mode = true
  | _ => True
  end.

Section WalkShapes.
Context `{NodePath} `{Minimatch} `{NodeBuffer} `{JsRegExp}.

(** What the walk does at one entry when no content patterns are given:
    whether it returns or throws, and the files it adds, depend on the
    listing and on the filename patterns only, and the console and the
    [RegExp] objects stay as they are. *)
Definition plainWalkOk (filenamePattern : option PatternArg) (e : DirEntry) : Prop :=
  forall dir,
    if walkableEntry e
    then exists found, forall fs results w,
           walkEntry fs filenamePattern None dir e results w
           = (Js.Return (results ++ found)%list, w)
    else exists error, forall fs results w,
           walkEntry fs filenamePattern None dir e results w
           = (Js.Throw error, w).

(** What the filters do at one entry where the walk meets no failure:
    they select among the files the walk without filters adds, in its
    order. *)
Definition selectingOk (fs : FileSystem) (filenamePattern : option PatternArg)
    (contentRegex : option RegexArg) (e : DirEntry) : Prop :=
  walkableEntry e = true ->
  forall dir, exists every,
    (forall fs0 results w,
       walkEntry fs0 None None dir e results w
       = (Js.Return (results ++ every)%list, w)) /\
    forall results w, exists found w',
      walkEntry fs filenamePattern contentRegex dir e results w
      = (Js.Return (results ++ found)%list, w') /\
      sublist found every.

End WalkShapes.

(** The variables of the loop of [parseArgs] after a run of arguments
    that are flags or unknown: each flag met is set, the values stay. *)
Definition withFlags (args : list string) (a : RunnerArgs) : RunnerArgs :=
  {| outputDir := outputDir a;
     force := force a || arrayIncludes args "--force";
     gitignore := gitignore a || arrayIncludes args "--gitignore";
     silent := silent a || arrayIncludes args "--silent";
     dryRun := dryRun a || arrayIncludes args "--dry-run";
     upgrade := upgrade a || arrayIncludes args "--upgrade";
     files := files a;
     contentRegex := contentRegex a |}.

(** An array of strings as [JSON.parse] returns it. *)
Definition stringValues (l : list string) : list Json := List.map JString l.

(* ================================================================== *)
(** * Reference instances of the platform interfaces                   *)
(* ================================================================== *)

(** Executable instances of the interfaces, for running the definitions on
    concrete inputs.  They cover the part of each platform function that
    the inputs used here exercise: POSIX paths; glob patterns made of
    literal characters, [?], [*] and [**]; regular expressions that are a
    literal text; JSON without fractions, exponents and non-ASCII escapes. *)

Module Reference.

Definition nonEmpty (s : string) : bool := negb (String.eqb s EmptyString).

Fixpoint joinWith (sep : string) (l : list string) : string :=
  match l with
  | [] => EmptyString
  | [x] => x
  | x :: rest => x ++ sep ++ joinWith sep rest
  end.

Fixpoint endsWithSlash (s : string) : bool :=
  match s with
  | EmptyString => false
  | String c EmptyString => Ascii.eqb c "/"
  | String _ rest => endsWithSlash rest
  end.

(** *** node:path on POSIX *)

Definition isAbsolute (p : string) : bool := Js.startsWith p "/".

(** Resolves [.] and [..] and drops empty segments; [acc] is the stack
    of segments kept so far, innermost first. *)
Fixpoint normalizeSegments (absolute : bool) (segs acc : list string) : list string :=
  match segs with
  | [] => rev acc
  | s :: rest =>
    if String.eqb s EmptyString || String.eqb s "."
    then normalizeSegments absolute rest acc
    else if String.eqb s ".."
    then match acc with
         | top :: acc' =>
           if String.eqb top ".."
           then normalizeSegments absolute rest (s :: acc)
           else normalizeSegments absolute rest acc'
         | [] =>
           if absolute then normalizeSegments absolute rest []
           else normalizeSegments absolute rest [s]
         end
    else normalizeSegments absolute rest (s :: acc)
  end.

Definition normalize (p : string) : string :=
  let body := joinWith "/" (normalizeSegments (isAbsolute p) (Js.split "/" p) []) in
  let trailing := if endsWithSlash p && nonEmpty body then "/" else EmptyString in
  if isAbsolute p then "/" ++ body ++ trailing
  else if nonEmpty body then body ++ trailing
  else if endsWithSlash p then "./" else ".".

Definition posix_join (a b : string) : string :=
  if nonEmpty a && nonEmpty b then normalize (a ++ "/" ++ b)
  else normalize (a ++ b).

Definition posix_resolve (cwd p : string) : string :=
  let full := if isAbsolute p then p else cwd ++ "/" ++ p in
  "/" ++ joinWith "/" (normalizeSegments true (Js.split "/" full) []).

Definition posix_basename (p : string) : string :=
  List.last (List.filter nonEmpty (Js.split "/" p)) EmptyString.

Definition posix_dirname (p : string) : string :=
  match removelast (List.filter nonEmpty (Js.split "/" p)) with
  | [] => if isAbsolute p then "/" else "."
  | ds => (if isAbsolute p then "/" else EmptyString) ++ joinWith "/" ds
  end.

(** [node:path] for a process whose working directory is [cwd]. *)
Definition posixPath (cwd : string) : NodePath :=
  {| basename := posix_basename;
     dirname := posix_dirname;
     resolve := posix_resolve cwd;
     join := posix_join |}.

(** *** minimatch on patterns of literals, [?], [*] and [**] *)

(** One path segment against one pattern segment without the dot rule. *)
Fixpoint wild (p : string) : string -> bool :=
  match p with
  | EmptyString => fun s => String.eqb s EmptyString
  | String c p' =>
    if Ascii.eqb c "*"
    then fix star (s : string) : bool :=
           wild p' s
           || match s with
              | EmptyString => false
              | String _ s' => star s'
              end
    else if Ascii.eqb c "?"
    then fun s => match s with
                  | String _ s' => wild p' s'
                  | EmptyString => false
                  end
    else fun s => match s with
                  | String d s' => Ascii.eqb c d && wild p' s'
                  | EmptyString => false
                  end
  end.

(** A segment that starts with a dot is matched only by a pattern segment
    that starts with a dot; the empty segment only by the empty pattern. *)
Definition segmentMatch (p f : string) : bool :=
  if String.eqb f EmptyString then String.eqb p EmptyString
  else if Js.startsWith f "." && negb (Js.startsWith p ".") then false
  else wild p f.

(** What [**] may swallow: no segment that starts with a dot. *)
Definition swallowed (f : string) : bool := negb (Js.startsWith f ".").

Fixpoint segmentsMatch (ps : list string) : list string -> bool :=
  match ps with
  | [] => fun fs =>
    match fs with
    | [] => true
    | [f] => String.eqb f EmptyString
    | _ => false
    end
  | p :: ps' =>
    if String.eqb p "**"
    then fun fs =>
      match fs, ps' with
      | [], _ => false
      | _, [] => forallb swallowed fs
      | _, _ =>
        (fix skip (fs : list string) : bool :=
           match fs with
           | [] => false
           | f :: fs' => segmentsMatch ps' fs || (swallowed f && skip fs')
           end) fs
      end
    else fun fs =>
      match fs with
      | f :: fs' => segmentMatch p f && segmentsMatch ps' fs'
      | [] => false
      end
  end.

Definition glob (file pattern : string) (options : MinimatchOptions) : bool :=
  let ps := Js.split "/" pattern in
  let fs := Js.split "/" file in
  match ps with
  | [_] =>
    if matchBase options
    then segmentsMatch ps [List.last (List.filter nonEmpty fs) EmptyString]
    else segmentsMatch ps fs
  | _ => segmentsMatch ps fs
  end.

Definition globMinimatch : Minimatch := {| minimatch := glob |}.

(** *** Regular expressions that are a literal text *)

(** Without flags: the text is searched in the whole content, and the
    object has no state. *)
Definition literalRegExp : JsRegExp :=
  {| RegExp := string;
     RegExpStore := unit;
     regexp_test := fun r content store => (Js.includes content r, store) |}.

(** With the [g] flag: the text is searched from [lastIndex]; a test that
    finds it leaves [lastIndex] behind the occurrence, a test that does not
    sets it back to 0.  The store holds the [lastIndex] of each object. *)
Record GlobalLiteral := { objectId : nat; literal : string }.

(** The rest of [s] from position [i], if [s] is that long. *)
Fixpoint fromIndex (i : nat) (s : string) : option string :=
  match i, s with
  | O, _ => Some s
  | S i', String _ rest => fromIndex i' rest
  | S _, EmptyString => None
  end.

(** The position of the first occurrence of [needle] in [s]. *)
Fixpoint firstIndex (needle s : string) : option nat :=
  if String.prefix needle s then Some O
  else match s with
       | String _ rest => option_map S (firstIndex needle rest)
       | EmptyString => None
       end.

Definition globalTest (r : GlobalLiteral) (content : string) (store : gmap nat nat)
  : bool * gmap nat nat :=
  let lastIndex := default O (store !! objectId r) in
  match fromIndex lastIndex content with
  | Some tail =>
    match firstIndex (literal r) tail with
    | Some k =>
      (true, <[objectId r := (lastIndex + k + String.length (literal r))%nat]> store)
    | None => (false, <[objectId r := O]> store)
    end
  | None => (false, <[objectId r := O]> store)
  end.

Definition globalRegExp : JsRegExp :=
  {| RegExp := GlobalLiteral; RegExpStore := gmap nat nat; regexp_test := globalTest |}.

(** *** JSON.parse on the subset *)

Definition isJsonSpace (c : ascii) : bool :=
  let n := nat_of_ascii c in
  (n =? 32)%nat || (n =? 9)%nat || (n =? 10)%nat || (n =? 13)%nat.

Fixpoint skipWs (s : string) : string :=
  match s with
  | String c rest => if isJsonSpace c then skipWs rest else s
  | EmptyString => s
  end.

(** [s] without the prefix [word], when it starts with it. *)
Fixpoint expect (word s : string) : option string :=
  match word, s with
  | EmptyString, _ => Some s
  | String a word', String b s' => if Ascii.eqb a b then expect word' s' else None
  | _, EmptyString => None
  end.

Definition unescape (c : ascii) : option ascii :=
  let n := nat_of_ascii c in
  if (n =? 34)%nat || (n =? 92)%nat || (n =? 47)%nat then Some c
  else if Ascii.eqb c "b" then Some (ascii_of_nat 8)
  else if Ascii.eqb c "t" then Some (ascii_of_nat 9)
  else if Ascii.eqb c "n" then Some (ascii_of_nat 10)
  else if Ascii.eqb c "f" then Some (ascii_of_nat 12)
  else if Ascii.eqb c "r" then Some (ascii_of_nat 13)
  else None.

(** The characters of a string literal after its opening quote, and
    what follows the closing quote. *)
Fixpoint stringBody (s : string) : option (string * string) :=
  match s with
  | EmptyString => None
  | String c rest =>
    let n := nat_of_ascii c in
    if (n =? 34)%nat then Some (EmptyString, rest)
    else if (n =? 92)%nat
    then match rest with
         | String e rest' =>
           match unescape e, stringBody rest' with
           | Some c', Some (body, tail) => Some (String c' body, tail)
           | _, _ => None
           end
         | EmptyString => None
         end
    else if (n <? 32)%nat then None
    else match stringBody rest with
         | Some (body, tail) => Some (String c body, tail)
         | None => None
         end
  end.

(** An integer literal: an optional minus and digits, with nothing of a
    fraction or an exponent after them. *)
Definition integer (s : string) : option (Z * string) :=
  let '(negative, body) :=
    match s with
    | String "-" rest => (true, rest)
    | _ => (false, s)
    end in
  let '(digits, tail) := Semver.span Semver.isDigit body in
  match Semver.digitsValue digits None, tail with
  | None, _ => None
  | Some _, String "." _ | Some _, String "e" _ | Some _, String "E" _ => None
  | Some v, _ => Some (if negative then (- v)%Z else v, tail)
  end.

Fixpoint value (fuel : nat) (s : string) : option (Json * string) :=
  match fuel with
  | O => None
  | S fuel' =>
    match skipWs s with
    | EmptyString => None
    | String c rest =>
      if Ascii.eqb c "n" then pair JNull <$> expect "ull" rest
      else if Ascii.eqb c "t" then pair (JBool true) <$> expect "rue" rest
      else if Ascii.eqb c "f" then pair (JBool false) <$> expect "alse" rest
      else if (nat_of_ascii c =? 34)%nat
      then match stringBody rest with
           | Some (body, tail) => Some (JString body, tail)
           | None => None
           end
      else if Ascii.eqb c "["
      then match skipWs rest with
           | String "]" tail => Some (JArray [], tail)
           | _ =>
             (fix items (n : nat) (s : string) (acc : list Json)
                : option (Json * string) :=
                match n with
                | O => None
                | S n' =>
                  match value fuel' s with
                  | Some (v, s1) =>
                    match skipWs s1 with
                    | String "," s2 => items n' s2 (acc ++ [v])%list
                    | String "]" s2 => Some (JArray (acc ++ [v])%list, s2)
                    | _ => None
                    end
                  | None => None
                  end
                end) fuel' rest []
           end
      else if Ascii.eqb c "{"
      then match skipWs rest with
           | String "}" tail => Some (JObject [], tail)
           | _ =>
             (fix members (n : nat) (s : string) (acc : list (string * Json))
                : option (Json * string) :=
                match n with
                | O => None
                | S n' =>
                  match skipWs s with
                  | String q s0 =>
                    if (nat_of_ascii q =? 34)%nat
                    then match stringBody s0 with
                         | Some (key, s1) =>
                           match skipWs s1 with
                           | String ":" s2 =>
                             match value fuel' s2 with
                             | Some (v, s3) =>
                               match skipWs s3 with
                               | String "," s4 =>
                                 members n' s4 (acc ++ [(key, v)])%list
                               | String "}" s4 =>
                                 Some (JObject (acc ++ [(key, v)])%list, s4)
                               | _ => None
                               end
                             | None => None
                             end
                           | _ => None
                           end
                         | None => None
                         end
                    else None
                  | EmptyString => None
                  end
                end) fuel' rest []
           end
      else match integer (String c rest) with
           | Some (z, tail) => Some (JNumber z, tail)
           | None => None
           end
    end
  end.

Definition parse (text : string) : Js.completion Json :=
  match value (S (String.length text)) text with
  | Some (v, tail) =>
    if String.eqb (skipWs tail) EmptyString then Js.Return v
    else Js.Throw "SyntaxError: Unexpected non-whitespace character after JSON"
  | None => Js.Throw "SyntaxError: Unexpected token in JSON"
  end.

Definition subsetJSON : JsJSON := {| JSON_parse := parse |}.

(** *** Buffers: strings are held as their UTF-8 bytes *)
Definition bytesBuffer : NodeBuffer :=
  {| encode := fun _ text => text; decode := fun _ buf => buf |}.

(** *** ContentHasher: the content stands for its own digest *)
Definition contentDigest : Consumer.ContentHasher := {| Consumer.hash := fun s => s |}.

(** [node:path] for a process started in [/work]. *)
Definition workPath : NodePath := posixPath "/work".

(** *** node:crypto and module resolution *)

(** A digest that keeps the content: enough to tell contents apart. *)
Definition plainDigest : NodeCrypto := {| sha256Hex := fun content => content |}.

(** Every request resolves below [/work/node_modules]. *)
Definition nodeModules : NodeModule :=
  {| require_resolve := fun request _ => Js.Return ("/work/node_modules/" ++ request) |}.

End Reference.

(* ================================================================== *)
(** * Sample inputs                                                    *)
(* ================================================================== *)

(** The inputs of the concrete runs at the end of the file; most are the
    fixtures of the test suites of the package. *)

Section SampleInputs.
#[local] Existing Instance Reference.contentDigest.

(** A console without lines; the literal patterns have no state. *)
Definition quiet : @World Reference.literalRegExp :=
  @Build_World Reference.literalRegExp [] tt.

(** The same, with every [lastIndex] at 0. *)
Definition quietGlobal : @World Reference.globalRegExp :=
  @Build_World Reference.globalRegExp [] (∅ : gmap nat nat).

(** A directory with a symbolic link whose target is gone. *)
Definition staleLinkListing : list DirEntry :=
  [FileEntry "index.md";
   StatFails "stale-link" "Error: ENOENT: no such file or directory, stat '/pkg/stale-link'";
   FileEntry "late.md"].

(** Two files with the same content. *)
Definition todoListing : list DirEntry := [FileEntry "a.txt"; FileEntry "b.txt"].

Definition todoTree : FileSystem :=
  {[ "/notes" := Directory;
     "/notes/a.txt" := RegularFile "TODO" 420%N;
     "/notes/b.txt" := RegularFile "TODO" 420%N ]}.

(** A package directory with a file in a hidden directory. *)
Definition hiddenListing : list DirEntry :=
  [FileEntry "index.md"; SubDir ".config" (Js.Return [FileEntry "notes.md"])].

(** The directory of the unit tests of [findMatchingFiles]. *)
Definition testListing : list DirEntry :=
  [FileEntry "file1.md"; FileEntry "file2.txt"; FileEntry "file4.txt";
   SubDir "subdir" (Js.Return [FileEntry "file3.md"])].

Definition testTree : FileSystem :=
  {[ "/tmp/utils-test" := Directory;
     "/tmp/utils-test/file1.md" := RegularFile "content" 420%N;
     "/tmp/utils-test/file2.txt" := RegularFile "No header here" 420%N;
     "/tmp/utils-test/file4.txt" := RegularFile "# Header" 420%N;
     "/tmp/utils-test/subdir" := Directory;
     "/tmp/utils-test/subdir/file3.md" := RegularFile "content" 420%N ]}.

(** A file the process may not read. *)
Definition lockedFs : FileSystem :=
  {[ "/pkg" := Directory; "/pkg/secret.txt" := RegularFile "# Header" 0%N ]}.

Definition guideEntry : Consumer.ManagedFileMetadata :=
  {| Consumer.path := "guide.md"; Consumer.packageName := "test-extract-package";
     Consumer.packageVersion := "1.0.0"; Consumer.force := false |}.

Definition rootOnly : FileSystem := {[ "/" := Directory ]}.

(** The text the marker of [guideEntry] is saved as, line by line; [dq] is
    the double quote. *)
Definition dq : string := String (ascii_of_nat 34) EmptyString.

Definition guideMarkerLines : list string :=
  ["{";
   "  " ++ dq ++ "managedFiles" ++ dq ++ ": [";
   "    {";
   "      " ++ dq ++ "path" ++ dq ++ ": " ++ dq ++ "guide.md" ++ dq ++ ",";
   "      " ++ dq ++ "packageName" ++ dq ++ ": " ++ dq ++ "test-extract-package"
     ++ dq ++ ",";
   "      " ++ dq ++ "packageVersion" ++ dq ++ ": " ++ dq ++ "1.0.0" ++ dq ++ ",";
   "      " ++ dq ++ "force" ++ dq ++ ": false";
   "    }";
   "  ]";
   "}"].

(** A marker file that is not JSON. *)
Definition corruptFs : FileSystem :=
  {[ "/out" := Directory;
     "/out/.folder-publisher" := RegularFile "{ managedFiles: oops" 420%N ]}.



Definition strictConfig : Consumer.Config :=
  {| Consumer.allowConflicts := false; Consumer.dryRun := false;
     Consumer.shouldInclude := fun _ _ => true |}.


Definition guidePackage : Consumer.Package :=
  {| Consumer.name := "test-update-package";
     Consumer.version := "1.0.0";
     Consumer.sourceFiles :=
       {[ (["docs"], "guide.md") := "# Guide v1"; ([], "index.md") := "# Index" ]} |}.

Definition emptyDisk : Consumer.Disk :=
  {| Consumer.files := ∅; Consumer.markers := ∅ |}.

Definition firstResult : Consumer.ConsumerResult :=
  match Consumer.returned
          (Consumer.extract strictConfig ["output"] [guidePackage] emptyDisk) with
  | inr result => result
  | inl _ => Consumer.emptyResult
  end.

(** The package.json of a data package that names two more packages. *)
Definition dataPackageJson : Json :=
  JObject [("name", JString "my-data"); ("version", JString "1.2.3");
           ("npmdata",
            JObject [("additionalPackages",
                      JArray [JString "extra-a"; JString "extra-b"])])].

(** The package with its bin directory, and its installed copy. *)
Definition packageFs : FileSystem :=
  {[ "/pkg" := Directory;
     "/pkg/bin" := Directory;
     "/pkg/package.json" := RegularFile (JSON.stringify dataPackageJson 2) 420%N;
     "/work/node_modules/my-data/package.json"
     := RegularFile (JSON.stringify dataPackageJson 2) 420%N ]}.

(** A package.json whose [additionalPackages] is a string. *)
Definition mistypedPackageJson : Json :=
  JObject [("name", JString "my-data");
           ("npmdata", JObject [("additionalPackages", JString "ab")])].

Definition mistypedFs : FileSystem :=
  {[ "/pkg/package.json" := RegularFile (JSON.stringify mistypedPackageJson 2) 420%N ]}.

(** An extracted file, read-only ([0o444]). *)
Definition extractedFs : FileSystem :=
  {[ "/" := Directory;
     "/out" := Directory;
     "/out/guide.md" := RegularFile "# Guide" 292%N ]}.

End SampleInputs.

(* ================================================================== *)
(** * Properties of Part I                                             *)
(* ================================================================== *)

(** ** Strings *)

Lemma prefix_app (p rest : string) : String.prefix p (p ++ rest) = true.
Proof.
  induction p as [|c p IH]; simpl.
  - destruct rest; reflexivity.
  - destruct (ascii_dec c c); [exact IH | congruence].
Qed.

Lemma includes_app (before p rest : string) :
  Js.includes (before ++ p ++ rest) p = true.
Proof.
  induction before as [|c before IH]; simpl.
  - destruct p as [|a p]; simpl.
    + destruct rest; reflexivity.
    + destruct (ascii_dec a a); [|congruence].
      rewrite prefix_app. reflexivity.
  - rewrite IH. apply orb_true_r.
Qed.

Lemma eqb_empty_false (s : string) :
  Js.startsWith s "!" = true -> String.eqb s EmptyString = false.
Proof. destruct s; [discriminate | reflexivity]. Qed.

(** ** Filename patterns *)

Section FilenamePatternFacts.
Context `{NodePath} `{Minimatch}.

Lemma in_excludePatterns (l : list string) (pattern : string) :
  In pattern l -> Js.startsWith pattern "!" = true ->
  In (Js.slice1 pattern) (excludePatterns l).
Proof.
  intros Hin Hbang. unfold excludePatterns.
  apply in_map. apply filter_In. split; assumption.
Qed.

Lemma nonempty_length {A} (l : list A) (x : A) : In x l -> (0 <? length l)%nat = true.
Proof. destruct l; [intros [] | reflexivity]. Qed.

Lemma truthy_patterns (patterns : PatternArg) (pattern : string) :
  In pattern (patternList patterns) -> Js.startsWith pattern "!" = true ->
  falsyPatterns (Some patterns) = false.
Proof.
  destruct patterns as [p|ps]; simpl; [|reflexivity].
  intros [<-|[]] Hbang. apply eqb_empty_false, Hbang.
Qed.

(** When the test the code makes for an exclude pattern succeeds (on the
    base name of the path, or on its resolved form for a pattern that holds
    ['**']), [matchesFilenamePattern] returns false, whatever the other
    patterns of the list are. *)
Lemma exclude_takes_precedence (filePath : string) (patterns : PatternArg)
    (pattern : string) :
  In pattern (patternList patterns) ->
  matchesExclude filePath pattern ->
  matchesFilenamePattern filePath (Some patterns) = false.
Proof.
  intros Hin [Hbang Hmatch].
  unfold matchesFilenamePattern.
  rewrite (truthy_patterns _ _ Hin Hbang).
  pose proof (in_excludePatterns _ _ Hin Hbang) as Hex.
  rewrite (nonempty_length _ _ Hex). simpl.
  replace (existsb _ (excludePatterns (patternList patterns))) with true.
  - reflexivity.
  - symmetry. apply existsb_exists. exists (Js.slice1 pattern). split; assumption.
Qed.

(** C10.  With the empty array as pattern list, [matchesFilenamePattern]
    accepts every path, as it does when the argument is absent. *)
Theorem empty_pattern_list_accepts (filePath : string) :
  matchesFilenamePattern filePath (Some (PatternArray [])) = true /\
  matchesFilenamePattern filePath (Some (PatternArray [])) =
  matchesFilenamePattern filePath None.
Proof. split; reflexivity. Qed.

(** Under the default patterns the two names are tested against the base
    name, and ['**'] and the two directory globs against the resolved,
    absolute path. *)
Lemma default_patterns_verdict (filePath : string) :
  matchesFilenamePattern filePath (Some (PatternArray DEFAULT_FILENAME_PATTERNS))
  = negb (minimatch (basename filePath) "package.json" noOptions
          || minimatch (resolve filePath) "bin/**" {| matchBase := true |}
          || minimatch (basename filePath) "README.md" noOptions
          || minimatch (resolve filePath) "node_modules/**" {| matchBase := true |})
    && minimatch (resolve filePath) "**" {| matchBase := true |}.
Proof.
  unfold matchesFilenamePattern, DEFAULT_FILENAME_PATTERNS. cbn.
  unfold matchesPattern. cbn.
  destruct (minimatch (basename filePath) "package.json" noOptions); [reflexivity|].
  destruct (minimatch (resolve filePath) "bin/**" _); [reflexivity|].
  destruct (minimatch (basename filePath) "README.md" noOptions); [reflexivity|].
  destruct (minimatch (resolve filePath) "node_modules/**" _); [reflexivity|].
  cbn. rewrite orb_false_r. reflexivity.
Qed.

End FilenamePatternFacts.

(** ** Content patterns and the directory walk *)

(** Induction on a listing, through the entries of its directories. *)
Lemma DirEntry_nested_ind (P : DirEntry -> Prop)
    (Hfile : forall name, P (FileEntry name))
    (Hdir : forall name entries,
        Forall P entries -> P (SubDir name (Js.Return entries)))
    (Hclosed : forall name error, P (SubDir name (Js.Throw error)))
    (Hstat : forall name error, P (StatFails name error)) :
  forall e, P e.
Proof.
  fix IH 1. intros [name|name [entries|error]|name error].
  - apply Hfile.
  - apply Hdir. induction entries as [|e es IHes]; constructor.
    + apply IH.
    + exact IHes.
  - apply Hclosed.
  - apply Hstat.
Qed.

Section WalkFacts.
Context `{NodePath} `{Minimatch} `{NodeBuffer} `{JsRegExp}.

Variable fs : FileSystem.
Variable filenamePattern : option PatternArg.
Variable contentRegex : option RegexArg.

Lemma matchesContentRegex_unreadable filePath pats e w :
  readFileSync fs filePath = Js.Throw e ->
  matchesContentRegex fs filePath (Some pats) w
  = (Js.Return false, warned (skipWarning filePath) w).
Proof.
  intros Hread. unfold matchesContentRegex, io_try, io_bind, io_lift.
  rewrite Hread. reflexivity.
Qed.

(** The tests of [some] throw nothing and write nothing to the console. *)
Lemma someTest_returns rs content w :
  exists b w', someTest rs content w = (Js.Return b, w') /\ console w' = console w.
Proof.
  revert w. induction rs as [|r rs IH]; intros w; cbn [someTest].
  - exists false, w. split; reflexivity.
  - unfold io_bind, io_test.
    destruct (regexp_test r content (regexps w)) as [verdict store].
    destruct verdict.
    + eexists _, _. split; reflexivity.
    + destruct (IH {| console := console w; regexps := store |}) as (b & w' & Hrun & Hc).
      exists b, w'. split; [exact Hrun | exact Hc].
Qed.

(** With plain patterns [some] is [existsb] on the verdicts and leaves the
    objects as they are. *)
Lemma someTest_plain rs content w :
  (forall r, In r rs -> plainRegExp r) ->
  someTest rs content w
  = (Js.Return (existsb (fun r => fst (regexp_test r content (regexps w))) rs), w).
Proof.
  intros Hplain. destruct w as [lines store]. cbn [regexps].
  induction rs as [|r rs IH]; cbn [someTest existsb]; [reflexivity|].
  unfold io_bind, io_test. cbn [regexps console].
  destruct (Hplain r (or_introl eq_refl) content store) as [Hsame _].
  destruct (regexp_test r content store) as [verdict store'].
  cbn [fst snd] in *. subst store'.
  destruct verdict; [reflexivity|].
  apply IH. intros r' Hin. apply Hplain. right. exact Hin.
Qed.

(** [matchesContentRegex] throws nothing. *)
Lemma matchesContentRegex_returns filePath w :
  exists b w', matchesContentRegex fs filePath contentRegex w = (Js.Return b, w').
Proof.
  unfold matchesContentRegex. destruct contentRegex as [pats|].
  - unfold io_try, io_bind, io_lift, io_ret, console_warn.
    destruct (readFileSync fs filePath) as [buf|e]; simpl.
    + destruct (someTest_returns (regexList pats) (decode Utf8 buf) w)
        as (b & w' & Hrun & _).
      rewrite Hrun. eauto.
    + eauto.
  - eexists _, _. reflexivity.
Qed.

(** With plain patterns [matchesContentRegex] returns true exactly when
    the content dimension accepts the file, and leaves the [RegExp]
    objects as they are. *)
Lemma matchesContentRegex_spec filePath w :
  plainPatterns contentRegex ->
  exists b w',
    matchesContentRegex fs filePath contentRegex w = (Js.Return b, w') /\
    regexps w' = regexps w /\
    (b = true <-> contentAccepted fs filePath contentRegex (regexps w)).
Proof.
  unfold matchesContentRegex, contentAccepted, plainPatterns.
  destruct contentRegex as [pats|]; intros Hplain.
  - unfold io_try, io_bind, io_lift, io_ret, console_warn.
    destruct (readFileSync fs filePath) as [buf|e] eqn:Hread; simpl.
    + rewrite (someTest_plain _ _ _ Hplain).
      eexists _, _. split; [reflexivity|]. split; [reflexivity|].
      rewrite existsb_exists. split.
      * intros (r & Hin & Htest). exists buf, r. auto.
      * intros (buf' & r & Hbuf & Hin & Htest).
        injection Hbuf as <-. exists r. auto.
    + eexists _, _. split; [reflexivity|]. split; [reflexivity|].
      split; [discriminate|].
      intros (buf' & r & Hbuf & _). discriminate.
  - eexists _, _. split; [reflexivity|]. split; [reflexivity|]. tauto.
Qed.

(** The inner loop of [walkEntry] is [walkDir]. *)
Lemma walkEntry_SubDir currentDir file entries results w :
  walkEntry fs filenamePattern contentRegex currentDir
    (SubDir file (Js.Return entries)) results w
  = if negb (Js.startsWith file ".")
    then walkDir fs filenamePattern contentRegex (join currentDir file)
           entries results w
    else io_ret results w.
Proof.
  simpl. destruct (negb (Js.startsWith file ".")); [|reflexivity].
  revert results w. induction entries as [|e es IH]; intros results w; simpl.
  - reflexivity.
  - unfold io_bind.
    destruct (walkEntry fs filenamePattern contentRegex (join currentDir file)
                e results w) as [[r|err] w']; [apply IH | reflexivity].
Qed.

Lemma reached_nil dir p : ~ reached dir [] p.
Proof. intros Hr. inversion Hr; subst; simpl in *; contradiction. Qed.

Lemma reached_cons dir e es p :
  reached dir (e :: es) p <-> reached dir [e] p \/ reached dir es p.
Proof.
  split.
  - intros Hr. inversion Hr as [d l file Hin|d l file sub q Hin Hdot Hsub]; subst.
    + destruct Hin as [->|Hin].
      * left. apply reached_file. simpl. auto.
      * right. apply reached_file. exact Hin.
    + destruct Hin as [->|Hin].
      * left. eapply reached_sub; [simpl; eauto | exact Hdot | exact Hsub].
      * right. eapply reached_sub; eauto.
  - intros [Hr|Hr].
    + inversion Hr as [d l file Hin|d l file sub q Hin Hdot Hsub]; subst.
      * destruct Hin as [->|[]]. apply reached_file. simpl. auto.
      * destruct Hin as [->|[]].
        eapply reached_sub; [simpl; eauto | exact Hdot | exact Hsub].
    + inversion Hr as [d l file Hin|d l file sub q Hin Hdot Hsub]; subst.
      * apply reached_file. simpl. auto.
      * eapply reached_sub; [simpl; eauto | exact Hdot | exact Hsub].
Qed.

Lemma reached_file_only dir file p :
  reached dir [FileEntry file] p <-> p = join dir file.
Proof.
  split.
  - intros Hr. inversion Hr as [d l f Hin|d l f sub q Hin Hdot Hsub]; subst.
    + destruct Hin as [Heq|[]]. injection Heq as <-. reflexivity.
    + destruct Hin as [Heq|[]]. discriminate.
  - intros ->. apply reached_file. simpl. auto.
Qed.

Lemma reached_sub_only dir file listing p :
  reached dir [SubDir file listing] p <->
  Js.startsWith file "." = false /\
  exists sub, listing = Js.Return sub /\ reached (join dir file) sub p.
Proof.
  split.
  - intros Hr. inversion Hr as [d l f Hin|d l f sub' q Hin Hdot Hsub]; subst.
    + destruct Hin as [Heq|[]]. discriminate.
    + destruct Hin as [Heq|[]]. injection Heq as Hf Hl. subst. eauto.
  - intros [Hdot (sub & -> & Hsub)].
    eapply reached_sub; [simpl; eauto | exact Hdot | exact Hsub].
Qed.

#[local] Abbreviation accepted := (accepted fs filenamePattern contentRegex).
#[local] Abbreviation walkEntryOk := (walkEntryOk fs filenamePattern contentRegex).
#[local] Abbreviation walkEntryRuns := (walkEntryRuns fs filenamePattern contentRegex).

Lemma walkDir_ok es :
  Forall walkEntryOk es ->
  forallb walkableEntry es = true ->
  forall dir results w,
  exists found w',
    walkDir fs filenamePattern contentRegex dir es results w
    = (Js.Return (results ++ found)%list, w') /\
    regexps w' = regexps w /\
    forall p, In p found <-> reached dir es p /\ accepted (regexps w) p.
Proof.
  induction 1 as [|e es He _ IH]; intros Hwalk dir results w.
  - exists [], w. split; [|split].
    + simpl. unfold io_ret. rewrite app_nil_r. reflexivity.
    + reflexivity.
    + intros p. split; [intros [] | intros [Hr _]; exact (reached_nil _ _ Hr)].
  - cbn [forallb] in Hwalk. apply andb_true_iff in Hwalk as [Hwe Hwes].
    destruct (He Hwe dir results w) as (found1 & w1 & Hrun1 & Hstore1 & Hspec1).
    destruct (IH Hwes dir (results ++ found1)%list w1)
      as (found2 & w2 & Hrun2 & Hstore2 & Hspec2).
    exists (found1 ++ found2)%list, w2. split; [|split].
    + simpl. unfold io_bind. rewrite Hrun1, Hrun2.
      rewrite <- app_assoc. reflexivity.
    + congruence.
    + intros p. rewrite Hstore1 in Hspec2.
      rewrite (reached_cons dir e es p), in_app_iff, Hspec1, Hspec2.
      tauto.
Qed.

Lemma walkEntry_ok e : plainPatterns contentRegex -> walkEntryOk e.
Proof.
  intros Hplain.
  induction e as [file|file entries IH|file error|file error]
    using DirEntry_nested_ind; intros Hwalk dir results w.
  - simpl.
    destruct (matchesFilenamePattern (join dir file) filenamePattern) eqn:Hname.
    + destruct (matchesContentRegex_spec (join dir file) w Hplain)
        as (b & w' & Hrun & Hstore & Hb).
      unfold io_bind. rewrite Hrun. destruct b.
      * exists [join dir file], w'. split; [reflexivity|]. split; [exact Hstore|].
        intros p. rewrite reached_file_only. simpl. unfold accepted. split.
        -- intros [<-|[]]. split; [reflexivity|]. split; [exact Hname|].
           apply Hb. reflexivity.
        -- intros [-> _]. auto.
      * exists [], w'. split; [unfold io_ret; rewrite app_nil_r; reflexivity|].
        split; [exact Hstore|].
        intros p. rewrite reached_file_only. unfold accepted. split; [intros []|].
        intros [-> [_ Hc]]. apply Hb in Hc. discriminate.
    + exists [], w. split; [unfold io_ret; rewrite app_nil_r; reflexivity|].
      split; [reflexivity|].
      intros p. rewrite reached_file_only. unfold accepted. split; [intros []|].
      intros [-> [Hn _]]. congruence.
  - rewrite walkEntry_SubDir. cbn [walkableEntry] in Hwalk.
    destruct (Js.startsWith file ".") eqn:Hdot; simpl.
    + exists [], w. split; [unfold io_ret; rewrite app_nil_r; reflexivity|].
      split; [reflexivity|].
      intros p. rewrite reached_sub_only. split; [intros []|].
      intros [[Hd _] _]. congruence.
    + destruct (walkDir_ok entries IH Hwalk (join dir file) results w)
        as (found & w' & Hrun & Hstore & Hspec).
      exists found, w'. split; [exact Hrun|]. split; [exact Hstore|].
      intros p. rewrite Hspec, reached_sub_only. split.
      * intros [Hr Ha]. split; [|exact Ha]. split; [exact Hdot|]. eauto.
      * intros [[_ (sub & Heq & Hr)] Ha]. injection Heq as <-. auto.
  - cbn [walkableEntry] in Hwalk.
    destruct (Js.startsWith file ".") eqn:Hdot; [|discriminate Hwalk].
    exists [], w. split; [|split; [reflexivity|]].
    + cbn [walkEntry]. rewrite Hdot. unfold io_ret. rewrite app_nil_r. reflexivity.
    + intros p. rewrite reached_sub_only. split; [intros []|].
      intros [[Hd _] _]. congruence.
  - discriminate Hwalk.
Qed.

(** The walk over a list of entries returns when it meets no failure and
    throws when it meets one, whatever the patterns. *)
Lemma walkDir_runs es :
  Forall walkEntryRuns es ->
  forall dir results w,
    if forallb walkableEntry es
    then exists found w',
           walkDir fs filenamePattern contentRegex dir es results w
           = (Js.Return (results ++ found)%list, w')
    else exists error w',
           walkDir fs filenamePattern contentRegex dir es results w
           = (Js.Throw error, w').
Proof.
  induction 1 as [|e es He _ IH]; intros dir results w.
  - cbn [forallb]. exists [], w. simpl. unfold io_ret. rewrite app_nil_r. reflexivity.
  - cbn [forallb walkDir]. unfold io_bind.
    specialize (He dir results w).
    destruct (walkableEntry e); cbn [andb].
    + destruct He as (found1 & w1 & Hrun1). rewrite Hrun1.
      specialize (IH dir (results ++ found1)%list w1).
      destruct (forallb walkableEntry es).
      * destruct IH as (found2 & w2 & Hrun2).
        exists (found1 ++ found2)%list, w2. rewrite Hrun2, <- app_assoc. reflexivity.
      * exact IH.
    + destruct He as (error & w1 & Hrun1). rewrite Hrun1. eauto.
Qed.

Lemma walkEntry_runs e : walkEntryRuns e.
Proof.
  induction e as [file|file entries IH|file error|file error]
    using DirEntry_nested_ind; intros dir results w.
  - cbn [walkableEntry walkEntry].
    destruct (matchesFilenamePattern (join dir file) filenamePattern).
    + destruct (matchesContentRegex_returns (join dir file) w) as (b & w' & Hrun).
      unfold io_bind. rewrite Hrun. destruct b.
      * exists [join dir file], w'. reflexivity.
      * exists [], w'. unfold io_ret. rewrite app_nil_r. reflexivity.
    + exists [], w. unfold io_ret. rewrite app_nil_r. reflexivity.
  - rewrite walkEntry_SubDir. cbn [walkableEntry].
    destruct (Js.startsWith file ".") eqn:Hdot; cbn [negb].
    + exists [], w. unfold io_ret. rewrite app_nil_r. reflexivity.
    + exact (walkDir_runs entries IH (join dir file) results w).
  - cbn [walkableEntry walkEntry].
    destruct (Js.startsWith file ".") eqn:Hdot; cbn [negb].
    + exists [], w. unfold io_ret. rewrite app_nil_r. reflexivity.
    + exists error, w. reflexivity.
  - cbn [walkableEntry walkEntry]. exists error, w. reflexivity.
Qed.

(** [findMatchingFiles] throws when the walk meets a failure. *)
Lemma findMatchingFiles_throws listing dir w :
  walkable listing = false ->
  exists error w',
    findMatchingFiles fs listing dir filenamePattern contentRegex w
    = (Js.Throw error, w').
Proof.
  unfold walkable, findMatchingFiles. destruct listing as [files|error]; intros Hwalk.
  - assert (Hall : Forall walkEntryRuns files).
    { apply Forall_forall. intros e _. apply walkEntry_runs. }
    pose proof (walkDir_runs files Hall dir [] w) as Hruns.
    rewrite Hwalk in Hruns. exact Hruns.
  - exists error, w. reflexivity.
Qed.

(** C4, amended.  When [readdirSync] succeeds on every directory the walk
    enters and [statSync] on every entry it meets, and the content
    patterns carry neither the [g] nor the [y] flag, [findMatchingFiles]
    returns, and the paths it returns are the files the walk reaches
    (those with no hidden directory, a directory whose name starts with a
    dot, between them and [dir]) that satisfy the filename patterns and,
    when content patterns are given, whose content can be read and matches
    one of them.  An absent filename argument accepts every path and an
    absent content argument every file.  When [readdirSync] or [statSync]
    fails on the way, the error is not caught: [findMatchingFiles]
    throws. *)
Theorem findMatchingFiles_spec files dir w :
  (plainPatterns contentRegex ->
   walkable (Js.Return files) = true ->
   exists results w',
     findMatchingFiles fs (Js.Return files) dir filenamePattern contentRegex w
     = (Js.Return results, w') /\
     forall p,
       In p results <->
       reached dir files p /\
       matchesFilenamePattern p filenamePattern = true /\
       contentAccepted fs p contentRegex (regexps w)) /\
  (forall listing,
     walkable listing = false ->
     exists error w',
       findMatchingFiles fs listing dir filenamePattern contentRegex w
       = (Js.Throw error, w')) /\
  (forall p, matchesFilenamePattern p None = true) /\
  (forall p w0,
     matchesContentRegex fs p None w0 = (Js.Return true, w0) /\
     contentAccepted fs p None (regexps w0)).
Proof.
  split; [|split; [|split]].
  - intros Hplain Hwalk.
    assert (Hall : Forall walkEntryOk files).
    { apply Forall_forall. intros e _. apply walkEntry_ok, Hplain. }
    destruct (walkDir_ok files Hall Hwalk dir [] w)
      as (found & w' & Hrun & _ & Hspec).
    exists found, w'. split; [exact Hrun | exact Hspec].
  - intros listing Hwalk. apply findMatchingFiles_throws, Hwalk.
  - reflexivity.
  - intros p w0. split; [reflexivity | exact I].
Qed.

(** C9.  When the file cannot be read and content patterns are given,
    [matchesContentRegex] returns false after a warning on the console
    and throws nothing; the walk then leaves the file out of its results
    and goes on. *)
Theorem unreadable_file_is_skipped filePath pats e w :
  readFileSync fs filePath = Js.Throw e ->
  matchesContentRegex fs filePath (Some pats) w
  = (Js.Return false, warned (skipWarning filePath) w) /\
  forall dir file results,
    filePath = join dir file ->
    exists w',
      walkEntry fs filenamePattern (Some pats) dir (FileEntry file) results w
      = (Js.Return results, w').
Proof.
  intros Hread. split.
  - apply matchesContentRegex_unreadable with (e := e). exact Hread.
  - intros dir file results ->. cbn [walkEntry].
    destruct (matchesFilenamePattern (join dir file) filenamePattern).
    + unfold io_bind.
      rewrite (matchesContentRegex_unreadable _ _ e) by exact Hread.
      eexists. reflexivity.
    + eexists. reflexivity.
Qed.

End WalkFacts.

(** ** Version constraints *)

Section SemverFacts.
Import Semver.

Lemma matched_constraint_nonempty (c : string) (op version : string) :
  constraintMatch c = Some (op, version) -> c <> EmptyString.
Proof. intros Hm ->. discriminate Hm. Qed.

(** The result on a constraint the regular expression accepts, when the
    installed version is not the very text of the constraint. *)
Lemma validateSemverMatch_matched (v c op version : string) :
  constraintMatch c = Some (op, version) ->
  v <> c ->
  validateSemverMatch v (Some c)
  = if isRangeOperator op
    then rangePredicate op (installedTriple v) (constraintTriple version)
    else if String.eqb op "=" || String.eqb op EmptyString
    then String.eqb v version
    else false.
Proof.
  intros Hm Hne. unfold validateSemverMatch.
  apply matched_constraint_nonempty in Hm as Hc.
  apply String.eqb_neq in Hc. rewrite Hc.
  apply String.eqb_neq in Hne. rewrite Hne.
  rewrite Hm. unfold isRangeOperator, rangeOperators, rangePredicate.
  cbn [existsb].
  destruct (String.eqb op "^"); [reflexivity|].
  destruct (String.eqb op "~"); [reflexivity|].
  destruct (String.eqb op ">="); [reflexivity|].
  destruct (String.eqb op ">"); [reflexivity|].
  destruct (String.eqb op "<="); [reflexivity|].
  destruct (String.eqb op "<"); reflexivity.
Qed.

(** A version spelled exactly like the constraint is accepted. *)
Lemma validateSemverMatch_same_text (c : string) :
  validateSemverMatch c (Some c) = true.
Proof.
  unfold validateSemverMatch. rewrite String.eqb_refl.
  destruct (String.eqb c EmptyString); reflexivity.
Qed.

(** C7, amended.  An absent constraint yields true, and so does an
    installed version spelled exactly like the constraint.  For a
    constraint with one of the operators [^], [~], [>=], [>], [<=], [<]
    and an installed version that is not the text of the constraint, the
    result is the predicate of the operator on the parsed triples of the
    two versions, so two such installed versions with the same triple get
    the same result.  With [=] or no operator the result is true exactly
    when the installed version string is the text of the constraint or
    the version text of the constraint: a comparison of strings, not of
    triples. *)
Theorem validateSemverMatch_by_triples (v1 v2 c op version : string) :
  constraintMatch c = Some (op, version) ->
  validateSemverMatch v1 None = true /\
  validateSemverMatch c (Some c) = true /\
  (isRangeOperator op = true ->
   v1 <> c -> v2 <> c ->
   installedTriple v1 = installedTriple v2 ->
   validateSemverMatch v1 (Some c)
   = rangePredicate op (installedTriple v1) (constraintTriple version) /\
   validateSemverMatch v1 (Some c) = validateSemverMatch v2 (Some c)) /\
  (op = "=" \/ op = EmptyString ->
   validateSemverMatch v1 (Some c) = String.eqb v1 c || String.eqb v1 version).
Proof.
  intros Hm. split; [reflexivity|]. split; [apply validateSemverMatch_same_text|].
  split.
  - intros Hop Hne1 Hne2 Htriple.
    rewrite (validateSemverMatch_matched v1 c op version Hm Hne1).
    rewrite (validateSemverMatch_matched v2 c op version Hm Hne2).
    rewrite Hop, Htriple. split; reflexivity.
  - intros Hop. destruct (String.eqb_spec v1 c) as [->|Hne1].
    + rewrite validateSemverMatch_same_text. reflexivity.
    + rewrite (validateSemverMatch_matched v1 c op version Hm Hne1).
      destruct Hop as [-> | ->]; reflexivity.
Qed.

Lemma validateSemverMatch_by_triples_witness :
  constraintMatch "^1.2.0" = Some ("^", "1.2.0") /\
  "1.4.2" <> "^1.2.0" /\ "1.4.2-rc.1" <> "^1.2.0" /\
  installedTriple "1.4.2" = installedTriple "1.4.2-rc.1" /\
  isRangeOperator "^" = true /\
  validateSemverMatch "1.4.2" (Some "^1.2.0") = true /\
  validateSemverMatch "1.4.2" (Some "^1.2.0")
  = validateSemverMatch "1.4.2-rc.1" (Some "^1.2.0") /\
  constraintMatch "1.0.0-beta" = Some (EmptyString, "1.0.0") /\
  validateSemverMatch "1.0.0-beta" (Some "1.0.0-beta") = true /\
  validateSemverMatch "1.0.0" (Some "1.0.0-beta") = true /\
  validateSemverMatch "1.0.0-rc" (Some "1.0.0-beta") = false.
Proof.
  assert (Hm : constraintMatch "^1.2.0" = Some ("^", "1.2.0")) by reflexivity.
  assert (Hn1 : "1.4.2" <> "^1.2.0") by discriminate.
  assert (Hn2 : "1.4.2-rc.1" <> "^1.2.0") by discriminate.
  assert (Ht : installedTriple "1.4.2" = installedTriple "1.4.2-rc.1") by reflexivity.
  assert (Hop : isRangeOperator "^" = true) by reflexivity.
  assert (Hb : constraintMatch "1.0.0-beta" = Some (EmptyString, "1.0.0"))
    by reflexivity.
  destruct (validateSemverMatch_by_triples "1.4.2" "1.4.2-rc.1" "^1.2.0" "^" "1.2.0" Hm)
    as (_ & _ & Hrange & _).
  destruct (Hrange Hop Hn1 Hn2 Ht) as [Hpred Hsame].
  destruct (validateSemverMatch_by_triples "1.0.0-beta" "1.0.0" "1.0.0-beta"
              EmptyString "1.0.0" Hb) as (_ & _ & _ & Hexact1).
  destruct (validateSemverMatch_by_triples "1.0.0" "1.0.0" "1.0.0-beta"
              EmptyString "1.0.0" Hb) as (_ & _ & _ & Hexact2).
  destruct (validateSemverMatch_by_triples "1.0.0-rc" "1.0.0" "1.0.0-beta"
              EmptyString "1.0.0" Hb) as (_ & _ & _ & Hexact3).
  split; [exact Hm|]. split; [exact Hn1|]. split; [exact Hn2|].
  split; [exact Ht|]. split; [exact Hop|].
  split; [rewrite Hpred; reflexivity|]. split; [exact Hsame|].
  split; [exact Hb|].
  split; [rewrite (Hexact1 (or_intror eq_refl)); reflexivity|].
  split; [rewrite (Hexact2 (or_intror eq_refl)); reflexivity|].
  rewrite (Hexact3 (or_intror eq_refl)). reflexivity.
Defined.

(** Two installed versions with the same parsed triple on which the same
    constraint gives different results: the exact case compares strings. *)
Lemma same_triple_different_result :
  installedTriple "1.0.0" = installedTriple "1.0.0-beta.1" /\
  validateSemverMatch "1.0.0" (Some "1.0.0") = true /\
  validateSemverMatch "1.0.0-beta.1" (Some "1.0.0") = false.
Proof. repeat split; reflexivity. Qed.

End SemverFacts.

(** ** JSON files and marker files *)

Lemma serialize_entry (e : Consumer.ManagedFileMetadata) :
  JSON.serialize 2 4 (entryToJson e) = entryText e.
Proof. destruct e as [p n v []]; reflexivity. Qed.

(** The serialisation of a marker record is the text of the
    specification. *)
Lemma stringify_marker (record : Consumer.MarkerRecord) :
  JSON.stringify (markerToJson record) 2 ++ JSON.lf = markerText record.
Proof.
  unfold JSON.stringify, markerToJson, markerText.
  cbn [JSON.serialize Nat.add List.map].
  rewrite List.map_map.
  rewrite (List.map_ext _ entryText serialize_entry). reflexivity.
Qed.

Section JsonFileFacts.
Context `{NodePath} `{NodeBuffer} `{JsJSON}.

Lemma lookup_made_directory (fs : FileSystem) (chain : list string) (q : string) :
  In q chain ->
  fold_right (fun a acc => <[a := Directory]> acc) fs chain !! q = Some Directory.
Proof.
  induction chain as [|a chain IH]; simpl; [intros []|].
  intros Hin. destruct (decide (a = q)) as [->|Hne].
  - apply lookup_insert_eq.
  - rewrite lookup_insert_ne by exact Hne. apply IH. tauto.
Qed.

Lemma lookup_beside_directories (fs : FileSystem) (chain : list string) (q : string) :
  ~ In q chain ->
  fold_right (fun a acc => <[a := Directory]> acc) fs chain !! q = fs !! q.
Proof.
  induction chain as [|a chain IH]; simpl; [reflexivity|].
  intros Hnin. rewrite lookup_insert_ne by tauto. apply IH. tauto.
Qed.

(** [ensureDir] on the directory of a file that [parentAvailable] covers. *)
Lemma ensureDir_parent (fs : FileSystem) (filePath : string) :
  parentAvailable fs filePath ->
  targetWritable fs filePath ->
  exists fs1,
    ensureDir fs (dirname filePath) = Js.Return fs1 /\
    fs1 !! dirname filePath = Some Directory /\
    fs1 !! filePath = fs !! filePath /\
    dirname filePath <> filePath /\
    forall q, ~ In q (pathChain (dirname filePath)) -> fs1 !! q = fs !! q.
Proof.
  unfold parentAvailable, targetWritable, ensureDir, existsSync.
  intros Hparent Htarget.
  destruct (fs !! dirname filePath) as [[data mode|]|] eqn:Hdir; try contradiction.
  - exists fs. simpl. repeat split; auto.
    intros Heq. rewrite Heq in Hdir. rewrite Hdir in Htarget. exact Htarget.
  - destruct Hparent as [Hfree Hnotin]. simpl.
    unfold mkdirSync_recursive. rewrite Hfree.
    eexists. split; [reflexivity|].
    assert (Hhead : In (dirname filePath) (pathChain (dirname filePath)))
      by (left; reflexivity).
    rewrite (lookup_made_directory _ _ _ Hhead).
    rewrite (lookup_beside_directories _ _ _ Hnotin).
    repeat split; auto.
    + intros Heq. apply Hnotin. rewrite <- Heq at 1. exact Hhead.
    + intros q Hq. apply lookup_beside_directories. exact Hq.
Qed.

(** What [writeJsonFile] leaves on disk, for any value. *)
Lemma writeJsonFile_writes (fs : FileSystem) (filePath : string) (data : Json) :
  parentAvailable fs filePath ->
  targetWritable fs filePath ->
  exists fs' mode,
    writeJsonFile fs filePath data = Js.Return fs' /\
    fs' !! filePath
    = Some (RegularFile (encode Utf8 (JSON.stringify data 2 ++ JSON.lf)) mode) /\
    fs' !! dirname filePath = Some Directory /\
    forall q, q <> filePath -> ~ In q (pathChain (dirname filePath)) ->
              fs' !! q = fs !! q.
Proof.
  intros Hparent Htarget.
  destruct (ensureDir_parent fs filePath Hparent Htarget)
    as (fs1 & Hensure & Hdir & Hfile & Hne & Hframe).
  unfold writeJsonFile. rewrite Hensure. cbn [mbind completion_bind Js.bind].
  unfold writeFileSync. rewrite Hdir, Hfile.
  unfold targetWritable in Htarget.
  destruct (fs !! filePath) as [[old mode|]|] eqn:Hold; try contradiction.
  - rewrite Htarget. eexists _, mode. split; [reflexivity|].
    rewrite lookup_insert_eq. split; [reflexivity|].
    rewrite lookup_insert_ne by congruence. split; [exact Hdir|].
    intros q Hq Hchain. rewrite lookup_insert_ne by congruence. auto.
  - eexists _, newFileMode. split; [reflexivity|].
    rewrite lookup_insert_eq. split; [reflexivity|].
    rewrite lookup_insert_ne by congruence. split; [exact Hdir|].
    intros q Hq Hchain. rewrite lookup_insert_ne by congruence. auto.
Qed.

(** C8.  Writing a marker record with [writeJsonFile] first makes the
    directory of the file when it is not there, then leaves in the file the
    UTF-8 encoding of the record pretty-printed as JSON, the properties of
    every entry in their declared order, with a newline at the end; other
    paths keep what they held. *)
Theorem writeJsonFile_marker (fs : FileSystem) (filePath : string)
    (record : Consumer.MarkerRecord) :
  parentAvailable fs filePath ->
  targetWritable fs filePath ->
  exists fs' mode,
    writeJsonFile fs filePath (markerToJson record) = Js.Return fs' /\
    fs' !! filePath = Some (RegularFile (encode Utf8 (markerText record)) mode) /\
    fs' !! dirname filePath = Some Directory /\
    forall q, q <> filePath -> ~ In q (pathChain (dirname filePath)) ->
              fs' !! q = fs !! q.
Proof.
  intros Hparent Htarget.
  destruct (writeJsonFile_writes fs filePath (markerToJson record) Hparent Htarget)
    as (fs' & mode & Hrun & Hfile & Hdir & Hframe).
  exists fs', mode. rewrite stringify_marker in Hfile. auto.
Qed.

(** [save] of a marker record, through [writeJsonFile]. *)
Lemma saveMarkerFile_writes (fs : FileSystem) (dir : string)
    (record : Consumer.MarkerRecord) :
  parentAvailable fs (markerPath dir) ->
  targetWritable fs (markerPath dir) ->
  exists fs' mode,
    saveMarkerFile fs dir record = Js.Return fs' /\
    fs' !! markerPath dir
    = Some (RegularFile (encode Utf8 (markerText record)) mode).
Proof.
  intros Hparent Htarget.
  destruct (writeJsonFile_writes fs (markerPath dir) (markerToJson record)
              Hparent Htarget) as (fs' & mode & Hrun & Hfile & _).
  exists fs', mode. rewrite stringify_marker in Hfile. auto.
Qed.

Lemma readFileSync_exists (fs : FileSystem) (p buf : string) :
  readFileSync fs p = Js.Return buf -> existsSync fs p = true.
Proof.
  unfold readFileSync, existsSync.
  destruct (fs !! p) as [[data mode|]|]; [reflexivity | discriminate | discriminate].
Qed.

(** C6.  Loading the marker of a directory returns the empty record when
    the directory holds no marker file, and, when the marker file is there
    and its text is not JSON, fails with an error whose message names the
    file. *)
Theorem loadMarkerFile_spec (fs : FileSystem) (dir : string) :
  (existsSync fs (markerPath dir) = false ->
   loadMarkerFile fs dir = Js.Return (markerToJson [])) /\
  (forall buf e,
     readFileSync fs (markerPath dir) = Js.Return buf ->
     JSON_parse (decode Utf8 buf) = Js.Throw e ->
     loadMarkerFile fs dir = Js.Throw (corruptMarkerMessage dir e) /\
     Js.includes (corruptMarkerMessage dir e) (markerPath dir) = true).
Proof.
  split.
  - intros Habsent. unfold loadMarkerFile. rewrite Habsent. reflexivity.
  - intros buf e Hread Hparse. split.
    + unfold loadMarkerFile. rewrite (readFileSync_exists _ _ _ Hread).
      unfold readJsonFile. rewrite Hread. cbn. rewrite Hparse. reflexivity.
    + apply includes_app.
Qed.

End JsonFileFacts.

(* ================================================================== *)
(** * Properties of Part II                                            *)
(* ================================================================== *)

(** ** Marker records *)

Section MarkerRecordFacts.
Import Consumer.

Lemma isManaged_entriesFor (record : MarkerRecord) (p pk : string) :
  isManaged record p (Some pk) = negb (forallb (fun _ => false) (entriesFor record p pk)).
Proof.
  unfold isManaged, entriesFor.
  induction record as [|e record IH]; simpl; [reflexivity|].
  destruct (String.eqb (path e) p && String.eqb (packageName e) pk); simpl.
  - reflexivity.
  - exact IH.
Qed.


Lemma sameKey_entry (e entry : ManagedFileMetadata) (p pk : string) :
  sameKey e entry = true ->
  String.eqb (path e) p && String.eqb (packageName e) pk
  = String.eqb (path entry) p && String.eqb (packageName entry) pk.
Proof.
  unfold sameKey. rewrite andb_true_iff, !String.eqb_eq.
  intros [-> ->]. reflexivity.
Qed.

(** [upsert] leaves the entries of every other key as they were. *)
Lemma entriesFor_upsert_other (record : MarkerRecord) (entry : ManagedFileMetadata)
    (p pk : string) :
  (path entry, packageName entry) <> (p, pk) ->
  entriesFor (upsert record entry) p pk = entriesFor record p pk.
Proof.
  intros Hne.
  assert (Hentry : String.eqb (path entry) p && String.eqb (packageName entry) pk = false).
  { apply andb_false_iff.
    destruct (String.eqb_spec (path entry) p) as [Hp|Hp]; [|auto].
    destruct (String.eqb_spec (packageName entry) pk) as [Hk|Hk]; [|auto].
    congruence. }
  unfold entriesFor.
  induction record as [|e record IH]; simpl.
  - rewrite Hentry. reflexivity.
  - destruct (sameKey e entry) eqn:Hkey; simpl.
    + rewrite (sameKey_entry _ _ p pk Hkey), Hentry. reflexivity.
    + rewrite IH. reflexivity.
Qed.

(** After [upsert] on a record without an entry of its key, the new entry
    is the one entry of that key. *)
Lemma entriesFor_upsert_new (record : MarkerRecord) (entry : ManagedFileMetadata) :
  entriesFor record (path entry) (packageName entry) = [] ->
  entriesFor (upsert record entry) (path entry) (packageName entry) = [entry].
Proof.
  unfold entriesFor.
  induction record as [|e record IH]; simpl.
  - rewrite !String.eqb_refl. reflexivity.
  - destruct (String.eqb (path e) (path entry)
              && String.eqb (packageName e) (packageName entry)) eqn:He.
    + discriminate.
    + intros Hnone. unfold sameKey. rewrite He. simpl. rewrite He. auto.
Qed.

Lemma isManaged_upsert_same (record : MarkerRecord) (entry : ManagedFileMetadata) :
  isManaged (upsert record entry) (path entry) (Some (packageName entry)) = true.
Proof.
  unfold isManaged.
  induction record as [|e record IH]; simpl.
  - rewrite !String.eqb_refl. reflexivity.
  - destruct (sameKey e entry) eqn:Hkey; simpl.
    + rewrite !String.eqb_refl. reflexivity.
    + rewrite IH. apply orb_true_r.
Qed.

Lemma isManaged_upsert_other (record : MarkerRecord) (entry : ManagedFileMetadata)
    (p pk : string) :
  (path entry, packageName entry) <> (p, pk) ->
  isManaged (upsert record entry) p (Some pk) = isManaged record p (Some pk).
Proof.
  intros Hne. rewrite !isManaged_entriesFor.
  rewrite (entriesFor_upsert_other _ _ _ _ Hne). reflexivity.
Qed.

End MarkerRecordFacts.

(** ** One step of the walk *)

Section StepFacts.
Import Consumer.
Context `{ContentHasher}.

Variable cfg : Config.
Variable pkg : Package.
Variable outputDir : Dir.

Lemma destPath_inj (p q : FilePath) :
  destPath outputDir p = destPath outputDir q -> p = q.
Proof.
  destruct p as [pd pn], q as [qd qn]. unfold destPath. simpl.
  intros [= Hd Hn]. apply app_inv_head in Hd. congruence.
Qed.

Lemma NoDup_fst_filter {A B} (f : A * B -> bool) (l : list (A * B)) :
  List.NoDup (List.map fst l) -> List.NoDup (List.map fst (List.filter f l)).
Proof.
  induction l as [|x l IH]; simpl; [auto|].
  intros Hnd. inversion Hnd as [|? ? Hnotin Hrest]; subst.
  destruct (f x); simpl; [|auto].
  constructor; [|auto].
  intros Hin. apply Hnotin.
  apply in_map_iff in Hin as (y & Hy & Hin).
  apply filter_In in Hin as [Hin _].
  apply in_map_iff. exists y. auto.
Qed.

(** The candidates are files of one tree: their paths are distinct. *)
Lemma candidates_NoDup : List.NoDup (List.map fst (candidates cfg pkg)).
Proof.
  unfold candidates. apply NoDup_fst_filter.
  pose proof (NoDup_fst_map_to_list (sourceFiles pkg)) as Hnd.
  clear -Hnd. induction (map_to_list (sourceFiles pkg)) as [|x l IH]; simpl in *.
  - constructor.
  - inversion Hnd as [|? ? Hnotin Hrest]; subst. constructor.
    + intros Hin. apply Hnotin. apply list_elem_of_In.
      clear -Hin. induction l as [|y l IHl]; simpl in *; [contradiction|].
      destruct Hin as [->|Hin]; [left; reflexivity | right; auto].
    + apply IH. exact Hrest.
Qed.

Lemma load_writeManaged_same (p : FilePath) (content : string) (forced : bool)
    (d : Disk) :
  load (writeManaged pkg outputDir p content forced d) (destPath outputDir p).1
  = upsert (load d (destPath outputDir p).1)
      {| path := (destPath outputDir p).2; packageName := name pkg;
         packageVersion := version pkg; force := forced |}.
Proof. unfold load, writeManaged. simpl. rewrite lookup_insert_eq. reflexivity. Qed.

(** What a write leaves at its destination. *)
Lemma writeManaged_at (p : FilePath) (content : string) (forced : bool) (d : Disk) :
  let d' := writeManaged pkg outputDir p content forced d in
  let dest := destPath outputDir p in
  files d' !! dest = Some {| bytes := content; readOnly := true |} /\
  isManaged (load d' dest.1) dest.2 (Some (name pkg)) = true /\
  (entriesFor (load d dest.1) dest.2 (name pkg) = [] ->
   entriesFor (load d' dest.1) dest.2 (name pkg)
   = [{| path := dest.2; packageName := name pkg;
         packageVersion := version pkg; force := forced |}]).
Proof.
  intros d' dest. subst d' dest. split; [|split].
  - unfold writeManaged. simpl. apply lookup_insert_eq.
  - rewrite load_writeManaged_same.
    apply (isManaged_upsert_same _
             {| path := (destPath outputDir p).2; packageName := name pkg;
                packageVersion := version pkg; force := forced |}).
  - intros Hnone. rewrite load_writeManaged_same.
    apply (entriesFor_upsert_new _
             {| path := (destPath outputDir p).2; packageName := name pkg;
                packageVersion := version pkg; force := forced |}).
    exact Hnone.
Qed.

(** A write touches no other file and no entry of another path. *)
Lemma writeManaged_frame (p : FilePath) (content : string) (forced : bool) (d : Disk)
    (q : FilePath) :
  q <> destPath outputDir p ->
  files (writeManaged pkg outputDir p content forced d) !! q = files d !! q /\
  forall pk,
    entriesFor (load (writeManaged pkg outputDir p content forced d) q.1) q.2 pk
    = entriesFor (load d q.1) q.2 pk.
Proof.
  intros Hne. split.
  - unfold writeManaged. simpl. apply lookup_insert_ne. congruence.
  - intros pk. destruct (decide ((destPath outputDir p).1 = q.1)) as [Hdir|Hdir].
    + rewrite <- Hdir. rewrite load_writeManaged_same.
      apply entriesFor_upsert_other. cbn [path packageName]. intros [= Hn _].
      apply Hne. rewrite (surjective_pairing q), <- Hdir, <- Hn.
      apply surjective_pairing.
    + unfold load, writeManaged. simpl.
      rewrite lookup_insert_ne by exact Hdir. reflexivity.
Qed.

Lemma applyWrite_frame (p : FilePath) (content : string) (forced : bool) (d : Disk)
    (q : FilePath) :
  q <> destPath outputDir p ->
  files (applyWrite cfg pkg outputDir p content forced d) !! q = files d !! q /\
  forall pk,
    entriesFor (load (applyWrite cfg pkg outputDir p content forced d) q.1) q.2 pk
    = entriesFor (load d q.1) q.2 pk.
Proof.
  intros Hne. unfold applyWrite. destruct (dryRun cfg).
  - split; reflexivity.
  - apply writeManaged_frame. exact Hne.
Qed.

(** A step touches no other destination. *)
Lemma processFile_frame (candidate : FilePath * string) (r r' : Run) (q : FilePath) :
  processFile cfg pkg outputDir candidate r = inr r' ->
  q <> destPath outputDir candidate.1 ->
  files (disk r') !! q = files (disk r) !! q /\
  forall pk,
    entriesFor (load (disk r') q.1) q.2 pk = entriesFor (load (disk r) q.1) q.2 pk.
Proof.
  destruct candidate as [p content]. unfold processFile. simpl.
  intros Hstep Hne.
  destruct (classify cfg pkg outputDir (disk r) p content);
    inversion Hstep; subst; simpl;
    try (apply applyWrite_frame; exact Hne).
  split; reflexivity.
Qed.

Lemma processFile_frame_managed (candidate : FilePath * string) (r r' : Run)
    (q : FilePath) (pk : string) :
  processFile cfg pkg outputDir candidate r = inr r' ->
  q <> destPath outputDir candidate.1 ->
  isManaged (load (disk r') q.1) q.2 (Some pk)
  = isManaged (load (disk r) q.1) q.2 (Some pk).
Proof.
  intros Hstep Hne. rewrite !isManaged_entriesFor.
  destruct (processFile_frame _ _ _ q Hstep Hne) as [_ Hentries].
  rewrite Hentries. reflexivity.
Qed.




(** A step that is not a dry run leaves its candidate in place. *)
Lemma processFile_inPlace (candidate : FilePath * string) (r r' : Run) :
  dryRun cfg = false ->
  processFile cfg pkg outputDir candidate r = inr r' ->
  inPlace pkg outputDir (disk r') candidate.
Proof.
  destruct candidate as [p content]. unfold processFile, classify, inPlace. simpl.
  intros Hwet.
  destruct (files (disk r) !! destPath outputDir p) as [onDisk|] eqn:Hfile.
  - destruct (isManaged _ _ _) eqn:Hmanaged.
    + destruct (String.eqb _ _) eqn:Hhash; intros [= <-]; simpl.
      * apply String.eqb_eq in Hhash. eauto.
      * unfold applyWrite. rewrite Hwet.
        destruct (writeManaged_at p content false (disk r)) as (Hf & Hm & _).
        split; [eexists; split; [exact Hf | reflexivity] | exact Hm].
    + destruct (allowConflicts cfg); intros [= <-]; simpl.
      unfold applyWrite. rewrite Hwet.
      destruct (writeManaged_at p content true (disk r)) as (Hf & Hm & _).
      split; [eexists; split; [exact Hf | reflexivity] | exact Hm].
  - intros [= <-]. simpl. unfold applyWrite. rewrite Hwet.
    destruct (writeManaged_at p content false (disk r)) as (Hf & Hm & _).
    split; [eexists; split; [exact Hf | reflexivity] | exact Hm].
Qed.

(** A step on a candidate that is in place skips it. *)
Lemma processFile_skip (candidate : FilePath * string) (r : Run) :
  inPlace pkg outputDir (disk r) candidate ->
  processFile cfg pkg outputDir candidate r
  = inr {| disk := disk r;
           events := (events r
                      ++ [FileSkipped (name pkg) (destPath outputDir candidate.1)])%list;
           changes := {| added := added (changes r);
                         modified := modified (changes r);
                         deleted := deleted (changes r);
                         skipped := (skipped (changes r)
                                     ++ [destPath outputDir candidate.1])%list |} |}.
Proof.
  destruct candidate as [p content]. unfold inPlace, processFile, classify. simpl.
  intros [(onDisk & Hfile & Hhash) Hmanaged].
  rewrite Hfile, Hmanaged, Hhash, String.eqb_refl. reflexivity.
Qed.


End StepFacts.

(** ** The walk over the candidates *)

Section WalkEngineFacts.
Import Consumer.
Context `{ContentHasher}.

Variable cfg : Config.
Variable pkg : Package.
Variable outputDir : Dir.

#[local] Abbreviation dests :=
  (List.map (fun pc : FilePath * string => destPath outputDir pc.1)).

Lemma not_in_dests (p : FilePath) (l : list (FilePath * string)) :
  ~ In p (List.map fst l) -> ~ In (destPath outputDir p) (dests l).
Proof.
  intros Hnotin Hin. apply Hnotin.
  apply in_map_iff in Hin as (y & Heq & Hin).
  apply destPath_inj in Heq. apply in_map_iff. exists y. auto.
Qed.


(** The walk touches no destination of another path. *)
Lemma walk_frame (cands : list (FilePath * string)) (r r' : Run)
    (res : option Error) (q : FilePath) :
  walk cfg pkg outputDir cands r = (res, r') ->
  ~ In q (dests cands) ->
  files (disk r') !! q = files (disk r) !! q /\
  forall pk,
    entriesFor (load (disk r') q.1) q.2 pk = entriesFor (load (disk r) q.1) q.2 pk.
Proof.
  revert r. induction cands as [|c cands IH]; intros r; simpl.
  - intros [= _ <-] _. split; reflexivity.
  - intros Hwalk Hnotin.
    destruct (processFile cfg pkg outputDir c r) as [err|r1] eqn:Hstep.
    + injection Hwalk as _ <-. split; reflexivity.
    + destruct (IH r1 Hwalk) as [Hfiles Hentries]; [tauto|].
      destruct (processFile_frame cfg pkg outputDir c r r1 q Hstep) as [Hf1 He1];
        [intros Heq; apply Hnotin; left; congruence|].
      split; [congruence|].
      intros pk. rewrite Hentries. apply He1.
Qed.


Lemma inPlace_frame (d d' : Disk) (c : FilePath * string) :
  files d' !! destPath outputDir c.1 = files d !! destPath outputDir c.1 ->
  (forall pk,
     entriesFor (load d' (destPath outputDir c.1).1) (destPath outputDir c.1).2 pk
     = entriesFor (load d (destPath outputDir c.1).1) (destPath outputDir c.1).2 pk) ->
  inPlace pkg outputDir d c -> inPlace pkg outputDir d' c.
Proof.
  unfold inPlace. intros Hfiles Hentries [Hfile Hmanaged].
  rewrite Hfiles. split; [exact Hfile|].
  rewrite isManaged_entriesFor, Hentries, <- isManaged_entriesFor. exact Hmanaged.
Qed.

(** A walk that ends without error and is no dry run leaves every
    candidate in place. *)
Lemma walk_inPlace (cands : list (FilePath * string)) (r r' : Run) :
  dryRun cfg = false ->
  List.NoDup (List.map fst cands) ->
  walk cfg pkg outputDir cands r = (None, r') ->
  forall c, In c cands -> inPlace pkg outputDir (disk r') c.
Proof.
  intros Hwet. revert r. induction cands as [|c0 cands IH]; intros r Hnd; simpl.
  - intros _ c [].
  - inversion Hnd as [|? ? Hnotin Hrest]; subst.
    destruct (processFile cfg pkg outputDir c0 r) as [err|r1] eqn:Hstep;
      [discriminate|].
    intros Hwalk c [<-|Hin].
    + destruct (walk_frame cands r1 r' None (destPath outputDir c0.1) Hwalk)
        as [Hfiles Hentries]; [apply not_in_dests; exact Hnotin|].
      apply (inPlace_frame (disk r1)); [exact Hfiles | exact Hentries|].
      apply (processFile_inPlace cfg pkg outputDir c0 r r1 Hwet Hstep).
    + apply (IH r1 Hrest Hwalk c Hin).
Qed.

(** A walk over candidates that are all in place skips them all. *)
Lemma walk_skip_all (cands : list (FilePath * string)) (r : Run) :
  (forall c, In c cands -> inPlace pkg outputDir (disk r) c) ->
  exists r',
    walk cfg pkg outputDir cands r = (None, r') /\
    disk r' = disk r /\
    added (changes r') = added (changes r) /\
    modified (changes r') = modified (changes r).
Proof.
  revert r. induction cands as [|c cands IH]; intros r Hall; simpl.
  - exists r. auto.
  - rewrite (processFile_skip cfg pkg outputDir c r) by (apply Hall; left; reflexivity).
    match goal with |- context [walk _ _ _ _ ?r1] =>
      destruct (IH r1) as (r' & Hwalk & Hdisk & Hadded & Hmodified)
    end.
    + intros c' Hin. simpl. apply Hall. right. exact Hin.
    + exists r'. simpl in *. auto.
Qed.






End WalkEngineFacts.

(** ** Orphan cleanup, extract and check *)

Section ExtractFacts.
Import Consumer.
Context `{ContentHasher}.

Variable cfg : Config.
Variable pkg : Package.
Variable outputDir : Dir.

Lemma lookup_fold_delete {V} (m : gmap FilePath V) (l : list FilePath) (q : FilePath) :
  ~ In q l -> fold_right delete m l !! q = m !! q.
Proof.
  induction l as [|x l IH]; simpl; [reflexivity|].
  intros Hnotin. rewrite lookup_delete_ne by tauto. apply IH. tauto.
Qed.

Lemma load_dropOrphans (ds : list FilePath) (d : Disk) (dir : Dir) :
  load (dropOrphans ds pkg outputDir d) dir
  = List.filter (fun e => negb (isOrphan ds pkg outputDir dir e)) (load d dir).
Proof.
  unfold load, dropOrphans. simpl. rewrite map_lookup_imap.
  destruct (markers d !! dir); reflexivity.
Qed.

(** No orphan is a candidate destination. *)
Lemma orphanPaths_not_dest (ds : list FilePath) (d : Disk) (q : FilePath) :
  In q (orphanPaths ds pkg outputDir d) -> ~ In q ds.
Proof.
  unfold orphanPaths, orphansIn. intros Hin.
  apply in_flat_map in Hin as ([dir record] & _ & Hin). simpl in Hin.
  apply in_map_iff in Hin as (e & <- & He).
  apply filter_In in He as [_ Horphan].
  unfold isOrphan in Horphan.
  apply andb_true_iff in Horphan as [_ Hnot].
  apply negb_true_iff, bool_decide_eq_false in Hnot.
  intros Hds. apply Hnot. apply list_elem_of_In. exact Hds.
Qed.

(** Dropping the orphans touches no candidate destination. *)
Lemma dropOrphans_frame (ds : list FilePath) (d : Disk) (q : FilePath) :
  In q ds ->
  files (dropOrphans ds pkg outputDir d) !! q = files d !! q /\
  forall pk,
    entriesFor (load (dropOrphans ds pkg outputDir d) q.1) q.2 pk
    = entriesFor (load d q.1) q.2 pk.
Proof.
  intros Hin. split.
  - unfold dropOrphans. simpl. apply lookup_fold_delete.
    intros Horphan. exact (orphanPaths_not_dest ds d q Horphan Hin).
  - intros pk. rewrite load_dropOrphans. unfold entriesFor.
    induction (load d q.1) as [|e record IH]; simpl; [reflexivity|].
    destruct (String.eqb (path e) q.2 && String.eqb (packageName e) pk) eqn:Hkey.
    + assert (Hkeep : negb (isOrphan ds pkg outputDir q.1 e) = true).
      { apply andb_true_iff in Hkey as [Hpath _]. apply String.eqb_eq in Hpath.
        unfold isOrphan. rewrite Hpath, <- surjective_pairing.
        rewrite (bool_decide_eq_true_2 (q ∈ ds)) by (apply list_elem_of_In; exact Hin).
        simpl. rewrite andb_false_r. reflexivity. }
      rewrite Hkeep. simpl. rewrite Hkey, IH. reflexivity.
    + destruct (negb (isOrphan ds pkg outputDir q.1 e)); simpl;
        [rewrite Hkey|]; exact IH.
Qed.

Lemma in_candidateDests (c : FilePath * string) :
  In c (candidates cfg pkg) ->
  In (destPath outputDir c.1) (candidateDests cfg pkg outputDir).
Proof.
  intros Hin. unfold candidateDests. apply in_map_iff. exists c. auto.
Qed.

Lemma cleanup_frame (r : Run) (q : FilePath) :
  In q (candidateDests cfg pkg outputDir) ->
  files (disk (cleanup cfg pkg outputDir r)) !! q = files (disk r) !! q /\
  forall pk,
    entriesFor (load (disk (cleanup cfg pkg outputDir r)) q.1) q.2 pk
    = entriesFor (load (disk r) q.1) q.2 pk.
Proof.
  intros Hin. unfold cleanup. simpl. destruct (dryRun cfg).
  - split; reflexivity.
  - apply dropOrphans_frame. exact Hin.
Qed.

Lemma cleanup_inPlace (r : Run) (c : FilePath * string) :
  In c (candidates cfg pkg) ->
  inPlace pkg outputDir (disk r) c ->
  inPlace pkg outputDir (disk (cleanup cfg pkg outputDir r)) c.
Proof.
  intros Hin Hplace.
  destruct (cleanup_frame r (destPath outputDir c.1) (in_candidateDests c Hin))
    as [Hfiles Hentries].
  apply (inPlace_frame pkg outputDir (disk r)); assumption.
Qed.

(** [extract] on one package, in terms of its walk. *)
Lemma extract_one (d : Disk) :
  extract cfg outputDir [pkg] d
  = match walk cfg pkg outputDir (candidates cfg pkg) (beginPackage pkg d []) with
    | (Some err, r) =>
      {| returned := inl err; finalDisk := disk r; delivered := events r |}
    | (None, r) =>
      {| returned :=
           inr {| total := mergeChanges noChanges
                             (changes (cleanup cfg pkg outputDir r));
                  sourcePackages :=
                    [{| pcName := name pkg; pcVersion := version pkg;
                        pcChanges := changes (cleanup cfg pkg outputDir r) |}] |};
         finalDisk := disk (cleanup cfg pkg outputDir r);
         delivered :=
           (events (cleanup cfg pkg outputDir r)
            ++ [PackageEnd (name pkg) (version pkg)])%list |}
    end.
Proof.
  unfold extract. cbn [extractAll]. unfold extractPackage.
  destruct (walk cfg pkg outputDir (candidates cfg pkg) (beginPackage pkg d []))
    as [[err|] r]; reflexivity.
Qed.

(** A dry run writes nothing: every step, and the cleanup, leave the
    output tree as it was. *)
Lemma walk_dry (cands : list (FilePath * string)) (r r' : Run) (res : option Error) :
  dryRun cfg = true ->
  walk cfg pkg outputDir cands r = (res, r') -> disk r' = disk r.
Proof.
  intros Hdry. revert r. induction cands as [|c cands IH]; intros r; cbn [walk].
  - intros [= _ <-]. reflexivity.
  - destruct (processFile cfg pkg outputDir c r) as [err|r1] eqn:Hstep.
    + intros [= _ <-]. reflexivity.
    + intros Hwalk. rewrite (IH r1 Hwalk).
      destruct c as [p content]. unfold processFile, applyWrite in Hstep.
      rewrite Hdry in Hstep.
      destruct (classify cfg pkg outputDir (disk r) p content);
        inversion Hstep; reflexivity.
Qed.

Lemma extract_dry_run (d : Disk) :
  dryRun cfg = true -> finalDisk (extract cfg outputDir [pkg] d) = d.
Proof.
  intros Hdry. rewrite extract_one.
  destruct (walk cfg pkg outputDir (candidates cfg pkg) (beginPackage pkg d []))
    as [[err|] r] eqn:Hwalk; simpl.
  - apply (walk_dry _ _ _ _ Hdry Hwalk).
  - unfold cleanup. simpl. rewrite Hdry. apply (walk_dry _ _ _ _ Hdry Hwalk).
Qed.

(** A check of candidates that are all in place finds no difference. *)
Lemma checkFile_inPlace (d : Disk) (c : FilePath * string) (df : Differences) :
  inPlace pkg outputDir d c -> checkFile pkg outputDir d c df = df.
Proof.
  destruct c as [p content]. unfold inPlace, checkFile. simpl.
  intros [(onDisk & Hfile & Hhash) Hmanaged].
  rewrite Hmanaged, Hfile, Hhash, String.eqb_refl. reflexivity.
Qed.

Lemma check_inPlace (d : Disk) :
  (forall c, In c (candidates cfg pkg) -> inPlace pkg outputDir d c) ->
  check cfg outputDir [(name pkg, Some pkg)] d
  = inr {| ok := true; differences := noDifferences;
           checkedPackages :=
             [{| chkName := name pkg; chkVersion := version pkg; chkOk := true;
                 chkDifferences := noDifferences |}] |}.
Proof.
  intros Hall. unfold check. cbn [checkAll].
  assert (Hdf : checkPackage cfg outputDir pkg d = noDifferences).
  { unfold checkPackage. generalize noDifferences.
    induction (candidates cfg pkg) as [|c cands IH]; intros df; simpl; [reflexivity|].
    rewrite (checkFile_inPlace d c df) by (apply Hall; left; reflexivity).
    apply IH. intros c' Hin. apply Hall. right. exact Hin. }
  rewrite Hdf. reflexivity.
Qed.

(** After an extraction that succeeded and was no dry run, every
    candidate is in place. *)
Lemma extract_inPlace (d : Disk) (result : ConsumerResult) :
  dryRun cfg = false ->
  returned (extract cfg outputDir [pkg] d) = inr result ->
  forall c, In c (candidates cfg pkg) ->
            inPlace pkg outputDir (finalDisk (extract cfg outputDir [pkg] d)) c.
Proof.
  intros Hwet. rewrite extract_one.
  destruct (walk cfg pkg outputDir (candidates cfg pkg) (beginPackage pkg d []))
    as [[err|] r] eqn:Hwalk; simpl; [discriminate|].
  intros _ c Hin. apply cleanup_inPlace; [exact Hin|].
  apply (walk_inPlace cfg pkg outputDir (candidates cfg pkg) _ r Hwet
           (candidates_NoDup cfg pkg) Hwalk c Hin).
Qed.

(** An extraction over candidates that are all in place adds and modifies
    nothing, and leaves them in place. *)
Lemma extract_nothing_to_do (d : Disk) :
  (forall c, In c (candidates cfg pkg) -> inPlace pkg outputDir d c) ->
  exists result,
    returned (extract cfg outputDir [pkg] d) = inr result /\
    added (total result) = [] /\
    modified (total result) = [] /\
    forall c, In c (candidates cfg pkg) ->
              inPlace pkg outputDir (finalDisk (extract cfg outputDir [pkg] d)) c.
Proof.
  intros Hall. rewrite extract_one.
  destruct (walk_skip_all cfg pkg outputDir (candidates cfg pkg)
              (beginPackage pkg d []) Hall)
    as (r & Hwalk & Hdisk & Hadded & Hmodified).
  rewrite Hwalk. eexists. split; [reflexivity|]. simpl.
  rewrite Hadded, Hmodified. simpl. split; [reflexivity|]. split; [reflexivity|].
  intros c Hin. apply cleanup_inPlace; [exact Hin|].
  rewrite Hdisk. apply Hall. exact Hin.
Qed.

End ExtractFacts.

(** ** The conflict policy and idempotence *)

Section ExtractTheorems.
Import Consumer.
Context `{ContentHasher}.

Variable cfg : Config.
Variable pkg : Package.
Variable outputDir : Dir.





(** C2.  When an extraction of a package that is no dry run has succeeded,
    a second extraction of the same package into the same directory, with
    the source unchanged, succeeds with no added and no modified path in
    its result, and a check run after the first or after the second
    extraction reports [ok = true], nothing missing and nothing modified. *)
Theorem extract_idempotent (d : Disk) (result : ConsumerResult) :
  dryRun cfg = false ->
  returned (extract cfg outputDir [pkg] d) = inr result ->
  let first := extract cfg outputDir [pkg] d in
  let second := extract cfg outputDir [pkg] (finalDisk first) in
  (exists result2,
     returned second = inr result2 /\
     added (total result2) = [] /\
     modified (total result2) = []) /\
  (exists report,
     check cfg outputDir [(name pkg, Some pkg)] (finalDisk first) = inr report /\
     ok report = true /\
     missing (differences report) = [] /\
     changed (differences report) = []) /\
  (exists report,
     check cfg outputDir [(name pkg, Some pkg)] (finalDisk second) = inr report /\
     ok report = true /\
     missing (differences report) = [] /\
     changed (differences report) = []).
Proof.
  intros Hwet Hfirst first second.
  pose proof (extract_inPlace cfg pkg outputDir d result Hwet Hfirst) as Hplace.
  destruct (extract_nothing_to_do cfg pkg outputDir (finalDisk first) Hplace)
    as (result2 & Hsecond & Hadded & Hmodified & Hplace2).
  split; [exists result2; auto|]. split.
  - eexists. split; [apply check_inPlace; exact Hplace|]. auto.
  - eexists. split; [apply check_inPlace; exact Hplace2|]. auto.
Qed.

End ExtractTheorems.

(* ================================================================== *)
(** * Concrete runs                                                    *)
(* ================================================================== *)

(** The theorems above at concrete inputs, on the reference instances: a
    process in [/work], the glob matcher, literal regular expressions. *)

Section ConcreteRuns.

#[local] Existing Instance Reference.workPath.
#[local] Existing Instance Reference.globMinimatch.
#[local] Existing Instance Reference.literalRegExp.
#[local] Existing Instance Reference.bytesBuffer.
#[local] Existing Instance Reference.subsetJSON.
#[local] Existing Instance Reference.contentDigest.

(** *** Filename patterns *)

Lemma exclude_takes_precedence_witness :
  In "!**/file.js" (patternList (PatternArray ["**/*.js"; "**/*.md"; "!**/file.js"])) /\
  matchesExclude "test1/test2/file.js" "!**/file.js" /\
  matchesFilenamePattern "test1/test2/file.js"
    (Some (PatternArray ["**/*.js"; "**/*.md"; "!**/file.js"])) = false.
Proof.
  assert (Hin : In "!**/file.js"
                  (patternList (PatternArray ["**/*.js"; "**/*.md"; "!**/file.js"])))
    by (simpl; auto).
  assert (Hex : matchesExclude "test1/test2/file.js" "!**/file.js")
    by (split; vm_compute; reflexivity).
  split; [exact Hin|]. split; [exact Hex|].
  exact (exclude_takes_precedence "test1/test2/file.js"
           (PatternArray ["**/*.js"; "**/*.md"; "!**/file.js"]) "!**/file.js" Hin Hex).
Defined.

(** Assertions of the unit tests of [matchesFilenamePattern]. *)
Example matches_simple_patterns :
  matchesFilenamePattern "test/file.md" (Some (PatternArray ["**/*.md"])) = true /\
  matchesFilenamePattern "file.txt" (Some (PatternArray ["*.md"])) = false /\
  matchesFilenamePattern "README.md" (Some (PatternArray ["README.md"])) = true.
Proof. repeat split; vm_compute; reflexivity. Qed.

Example matches_multiple_patterns :
  matchesFilenamePattern "test/file.md" (Some (PatternArray ["**/*.txt"; "**/*.md"]))
  = true /\
  matchesFilenamePattern "./file.js" (Some (PatternArray ["**/*.txt"; "**/*.md"]))
  = false /\
  matchesFilenamePattern "test/file.js" (Some (PatternArray ["**/*.js"; "!**/*.js"]))
  = false.
Proof. repeat split; vm_compute; reflexivity. Qed.

(** On POSIX every resolved path starts with a slash, and a glob whose
    first segment is a name matches no such path: the two directory globs
    of the default patterns exclude nothing, whatever the path. *)
Lemma resolved_path_is_absolute (cwd p : string) :
  Reference.isAbsolute (Reference.posix_resolve cwd p) = true.
Proof.
  unfold Reference.isAbsolute, Reference.posix_resolve, Js.startsWith. simpl.
  match goal with |- String.prefix EmptyString ?x = true => destruct x; reflexivity end.
Qed.

Lemma directory_glob_misses_absolute (file dir : string) (options : MinimatchOptions) :
  Reference.isAbsolute file = true ->
  dir = "bin" \/ dir = "node_modules" ->
  Reference.glob file (dir ++ "/**") options = false.
Proof.
  intros Habs Hdir. unfold Reference.isAbsolute, Js.startsWith in Habs.
  destruct file as [|c rest]; cbn [String.prefix] in Habs; [discriminate Habs|].
  destruct (ascii_dec "/" c) as [<-|]; [|discriminate Habs].
  destruct Hdir as [-> | ->]; reflexivity.
Qed.

Lemma default_directory_globs_exclude_nothing (filePath : string) :
  matchesFilenamePattern filePath (Some (PatternArray DEFAULT_FILENAME_PATTERNS))
  = negb (minimatch (basename filePath) "package.json" noOptions
          || minimatch (basename filePath) "README.md" noOptions)
    && minimatch (resolve filePath) "**" {| matchBase := true |}.
Proof.
  rewrite default_patterns_verdict.
  change (minimatch (resolve filePath) "bin/**" {| matchBase := true |})
    with (Reference.glob (Reference.posix_resolve "/work" filePath) ("bin" ++ "/**")
            {| matchBase := true |}).
  change (minimatch (resolve filePath) "node_modules/**" {| matchBase := true |})
    with (Reference.glob (Reference.posix_resolve "/work" filePath)
            ("node_modules" ++ "/**") {| matchBase := true |}).
  rewrite !directory_glob_misses_absolute
    by (auto using resolved_path_is_absolute).
  rewrite !orb_false_r. reflexivity.
Qed.

(** C3.  An exclude pattern that does not take precedence.  The path
    [bin/file.js] matches the glob [bin/**], and with the patterns of the
    unit test, [**/*.js] and [!bin/**], the code accepts it where the test
    expects it excluded.  More, [!bin/**] excludes no path at all: the
    pattern holds [**], so the code tests it against the resolved,
    absolute path, which a glob whose first segment is a name does not
    match, and the verdict is the one without the exclude pattern. *)
Theorem exclude_pattern_without_effect (filePath : string) :
  minimatch "bin/file.js" "bin/**" noOptions = true /\
  matchesFilenamePattern "bin/file.js" (Some (PatternArray ["**/*.js"; "!bin/**"]))
  = true /\
  matchesFilenamePattern filePath (Some (PatternArray ["**/*.js"; "!bin/**"]))
  = matchesFilenamePattern filePath (Some (PatternArray ["**/*.js"])).
Proof.
  split; [vm_compute; reflexivity|]. split; [vm_compute; reflexivity|].
  assert (Hmiss : matchesPattern filePath (basename filePath) (resolve filePath)
                    "bin/**" = false).
  { unfold matchesPattern. change (Js.includes "bin/**" "**") with true.
    cbn [minimatch Reference.globMinimatch].
    change (resolve filePath) with (Reference.posix_resolve "/work" filePath).
    apply (directory_glob_misses_absolute _ "bin").
    - apply resolved_path_is_absolute.
    - left. reflexivity. }
  unfold matchesFilenamePattern.
  remember (matchesPattern filePath (basename filePath) (resolve filePath))
    as test eqn:Htest.
  cbn. rewrite Hmiss. reflexivity.
Qed.

(** C5.  The code at a file of [bin/]: under the default patterns
    [bin/file.js] is accepted.  The pattern [bin/**] is matched against the
    resolved path [/work/bin/file.js], which it does not match; the same
    holds with the patterns of the unit test of ['!bin/**']. *)
Theorem default_patterns_accept_bin_file :
  resolve "bin/file.js" = "/work/bin/file.js" /\
  minimatch "/work/bin/file.js" "bin/**" {| matchBase := true |} = false /\
  matchesFilenamePattern "bin/file.js"
    (Some (PatternArray DEFAULT_FILENAME_PATTERNS)) = true /\
  matchesFilenamePattern "bin/file.js"
    (Some (PatternArray ["**/*.js"; "!bin/**"])) = true.
Proof. repeat split; vm_compute; reflexivity. Qed.

(** *** The directory walk *)

(** The literal patterns are plain. *)
Lemma literal_patterns_are_plain (patterns : option RegexArg) : plainPatterns patterns.
Proof.
  destruct patterns as [pats|]; [|exact I].
  intros r _ content store. split; [reflexivity|]. intros store'. reflexivity.
Qed.

(** A file below the walked directory that passes both dimensions of the
    filter (no pattern is given) and is not returned, in a walk that meets
    no failure: it lies in a hidden directory. *)
Lemma hidden_directory_file_is_left_out :
  fileBelow "/pkg" hiddenListing "/pkg/.config/notes.md" /\
  matchesFilenamePattern "/pkg/.config/notes.md" None = true /\
  contentAccepted ∅ "/pkg/.config/notes.md" None (regexps quiet) /\
  walkable (Js.Return hiddenListing) = true /\
  findMatchingFiles ∅ (Js.Return hiddenListing) "/pkg" None None quiet
  = (Js.Return ["/pkg/index.md"], quiet) /\
  ~ In "/pkg/.config/notes.md" ["/pkg/index.md"].
Proof.
  split; [|split; [|split; [|split; [|split]]]].
  - apply (below_sub "/pkg" hiddenListing ".config" [FileEntry "notes.md"]).
    + right. left. reflexivity.
    + change "/pkg/.config/notes.md" with (join (join "/pkg" ".config") "notes.md").
      apply (below_file (join "/pkg" ".config") [FileEntry "notes.md"] "notes.md").
      left. reflexivity.
  - reflexivity.
  - exact I.
  - reflexivity.
  - vm_compute. reflexivity.
  - intros [Heq|[]]. discriminate.
Qed.

Lemma findMatchingFiles_spec_witness :
  plainPatterns (Some (RegexArray ["#"])) /\
  walkable (Js.Return testListing) = true /\
  (exists results w',
     findMatchingFiles testTree (Js.Return testListing) "/tmp/utils-test"
       (Some (PatternArray ["**/*.txt"])) (Some (RegexArray ["#"])) quiet
     = (Js.Return results, w') /\
     forall p,
       In p results <->
       reached "/tmp/utils-test" testListing p /\
       matchesFilenamePattern p (Some (PatternArray ["**/*.txt"])) = true /\
       contentAccepted testTree p (Some (RegexArray ["#"])) (regexps quiet)) /\
  walkable (Js.Return staleLinkListing) = false /\
  exists error w',
    findMatchingFiles testTree (Js.Return staleLinkListing) "/tmp/utils-test"
      (Some (PatternArray ["**/*.txt"])) (Some (RegexArray ["#"])) quiet
    = (Js.Throw error, w').
Proof.
  assert (Hplain : plainPatterns (Some (RegexArray ["#"])))
    by apply literal_patterns_are_plain.
  assert (Hwalk : walkable (Js.Return testListing) = true) by reflexivity.
  assert (Hstale : walkable (Js.Return staleLinkListing) = false) by reflexivity.
  destruct (findMatchingFiles_spec testTree (Some (PatternArray ["**/*.txt"]))
              (Some (@RegexArray Reference.literalRegExp ["#"]))
              testListing "/tmp/utils-test" quiet)
    as (Hreturns & Hthrows & _).
  split; [exact Hplain|]. split; [exact Hwalk|].
  split; [exact (Hreturns Hplain Hwalk)|]. split; [exact Hstale|].
  exact (Hthrows (Js.Return staleLinkListing) Hstale).
Defined.

Lemma unreadable_file_is_skipped_witness :
  readFileSync lockedFs "/pkg/secret.txt"
  = Js.Throw "Error: EACCES: permission denied, open '/pkg/secret.txt'" /\
  matchesContentRegex lockedFs "/pkg/secret.txt" (Some (RegexArray ["#"])) quiet
  = (Js.Return false, warned (skipWarning "/pkg/secret.txt") quiet).
Proof.
  assert (Hread : readFileSync lockedFs "/pkg/secret.txt"
                  = Js.Throw "Error: EACCES: permission denied, open '/pkg/secret.txt'")
    by (vm_compute; reflexivity).
  split; [exact Hread|].
  exact (proj1 (unreadable_file_is_skipped lockedFs None "/pkg/secret.txt"
                  (RegexArray ["#"]) _ quiet Hread)).
Defined.

(** The unit tests of [findMatchingFiles]: by file name, then by content. *)
Example finds_files_matching_pattern :
  findMatchingFiles testTree (Js.Return testListing) "/tmp/utils-test"
    (Some (PatternArray ["**/*.md"])) None quiet
  = (Js.Return ["/tmp/utils-test/file1.md"; "/tmp/utils-test/subdir/file3.md"], quiet).
Proof. vm_compute. reflexivity. Qed.

Example finds_files_matching_content :
  findMatchingFiles testTree (Js.Return testListing) "/tmp/utils-test"
    (Some (PatternArray ["**/*.txt"])) (Some (RegexArray ["#"])) quiet
  = (Js.Return ["/tmp/utils-test/file4.txt"], quiet).
Proof. vm_compute. reflexivity. Qed.

(** A symbolic link whose target is gone makes the walk throw the error
    of [statSync]; the file found before it is lost with the results. *)
Example stale_link_makes_the_walk_throw :
  findMatchingFiles ∅ (Js.Return staleLinkListing) "/pkg" None None quiet
  = (Js.Throw "Error: ENOENT: no such file or directory, stat '/pkg/stale-link'",
     quiet).
Proof. vm_compute. reflexivity. Qed.

(** A pattern with the [g] flag is not plain: of two files with the same
    content the walk returns the first only, the test on the second one
    starting where the match in the first one ended. *)
Example global_pattern_misses_the_second_file :
  fst (@findMatchingFiles _ _ _ Reference.globalRegExp todoTree
         (Js.Return todoListing) "/notes" None
         (Some (@RegexArray Reference.globalRegExp
                  [{| Reference.objectId := 0; Reference.literal := "TODO" |}]))
         quietGlobal)
  = Js.Return ["/notes/a.txt"] /\
  fst (findMatchingFiles todoTree (Js.Return todoListing) "/notes" None
         (Some (RegexArray ["TODO"])) quiet)
  = Js.Return ["/notes/a.txt"; "/notes/b.txt"].
Proof. split; vm_compute; reflexivity. Qed.

(** *** Version constraints *)

Example semver_constraints :
  Semver.validateSemverMatch "1.2.3" (Some "^1.0.0") = true /\
  Semver.validateSemverMatch "2.0.0" (Some "^1.0.0") = false /\
  Semver.validateSemverMatch "1.2.3" (Some "~1.2.0") = true /\
  Semver.validateSemverMatch "1.3.0" (Some "~1.2.0") = false /\
  Semver.validateSemverMatch "1.2.3" (Some ">=1.2.3") = true /\
  Semver.validateSemverMatch "1.2.3" (Some "<1.2.3") = false /\
  Semver.validateSemverMatch "1.2.3" (Some "latest") = false.
Proof. repeat split; reflexivity. Qed.

(** *** Marker files *)

(** The text of a saved marker: the lines above, each ended by a newline. *)
Example marker_text_lines :
  markerText [guideEntry]
  = fold_right (fun line rest => line ++ JSON.lf ++ rest) EmptyString guideMarkerLines.
Proof. vm_compute. reflexivity. Qed.

(** A marker that was saved loads again as the record it holds. *)
Example marker_file_round_trip :
  JSON_parse (markerText [guideEntry]) = Js.Return (markerToJson [guideEntry]).
Proof. vm_compute. reflexivity. Qed.

Lemma writeJsonFile_marker_witness :
  parentAvailable rootOnly "/out/docs/.folder-publisher" /\
  targetWritable rootOnly "/out/docs/.folder-publisher" /\
  exists fs' mode,
    writeJsonFile rootOnly "/out/docs/.folder-publisher" (markerToJson [guideEntry])
    = Js.Return fs' /\
    fs' !! "/out/docs/.folder-publisher"
    = Some (RegularFile (encode Utf8 (markerText [guideEntry])) mode) /\
    fs' !! "/out/docs" = Some Directory.
Proof.
  assert (Hparent : parentAvailable rootOnly "/out/docs/.folder-publisher").
  { unfold parentAvailable.
    change (dirname "/out/docs/.folder-publisher") with "/out/docs".
    change (rootOnly !! "/out/docs") with (@None FsNode).
    split; [vm_compute; reflexivity|].
    vm_compute. intros [Heq|[Heq|[Heq|[]]]]; discriminate. }
  assert (Htarget : targetWritable rootOnly "/out/docs/.folder-publisher")
    by exact I.
  split; [exact Hparent|]. split; [exact Htarget|].
  destruct (writeJsonFile_marker rootOnly "/out/docs/.folder-publisher" [guideEntry]
              Hparent Htarget) as (fs' & mode & Hrun & Hfile & Hdir & _).
  exists fs', mode. auto.
Defined.

Lemma loadMarkerFile_spec_witness :
  loadMarkerFile rootOnly "/out" = Js.Return (markerToJson []) /\
  loadMarkerFile corruptFs "/out"
  = Js.Throw ("Error: Failed to read JSON file /out/.folder-publisher: "
              ++ "SyntaxError: Unexpected token in JSON").
Proof.
  split.
  - apply (proj1 (loadMarkerFile_spec rootOnly "/out")). vm_compute. reflexivity.
  - assert (Hread : readFileSync corruptFs (markerPath "/out")
                    = Js.Return "{ managedFiles: oops") by (vm_compute; reflexivity).
    assert (Hparse : JSON_parse (decode Utf8 "{ managedFiles: oops")
                     = Js.Throw "SyntaxError: Unexpected token in JSON")
      by (vm_compute; reflexivity).
    exact (proj1 (proj2 (loadMarkerFile_spec corruptFs "/out") _ _ Hread Hparse)).
Defined.

(** *** extract and check *)


Lemma extract_idempotent_witness :
  Consumer.dryRun strictConfig = false /\
  Consumer.returned (Consumer.extract strictConfig ["output"] [guidePackage] emptyDisk)
  = inr firstResult /\
  length (Consumer.added (Consumer.total firstResult)) = 2%nat /\
  exists result2,
    Consumer.returned
      (Consumer.extract strictConfig ["output"] [guidePackage]
         (Consumer.finalDisk
            (Consumer.extract strictConfig ["output"] [guidePackage] emptyDisk)))
    = inr result2 /\
    Consumer.added (Consumer.total result2) = [] /\
    Consumer.modified (Consumer.total result2) = [].
Proof.
  assert (Hfirst : Consumer.returned
                     (Consumer.extract strictConfig ["output"] [guidePackage] emptyDisk)
                   = inr firstResult) by (vm_compute; reflexivity).
  split; [reflexivity|]. split; [exact Hfirst|].
  split; [vm_compute; reflexivity|].
  exact (proj1 (extract_idempotent strictConfig guidePackage ["output"] emptyDisk
                  firstResult eq_refl Hfirst)).
Defined.

End ConcreteRuns.

(* ================================================================== *)
(** * Further properties of utils.ts                                   *)
(* ================================================================== *)

(** ** Lists and strings *)

Lemma existsb_Permutation {A} (f : A -> bool) (l l' : list A) :
  Permutation l l' -> existsb f l = existsb f l'.
Proof.
  induction 1 as [|x l l' _ IH|x y l|l l' l'' _ IH1 _ IH2]; simpl.
  - reflexivity.
  - rewrite IH. reflexivity.
  - destruct (f x), (f y); reflexivity.
  - congruence.
Qed.

Lemma List_filter_Permutation {A} (f : A -> bool) (l l' : list A) :
  Permutation l l' -> Permutation (List.filter f l) (List.filter f l').
Proof.
  induction 1 as [|x l l' _ IH|x y l|l l' l'' _ IH1 _ IH2]; simpl.
  - constructor.
  - destruct (f x); [constructor|]; exact IH.
  - destruct (f x), (f y); try reflexivity. constructor.
  - etransitivity; eassumption.
Qed.

Lemma append_empty_r (s : string) : s ++ EmptyString = s.
Proof.
  induction s as [|c s IH]; [reflexivity|].
  change (String c (s ++ EmptyString) = String c s). rewrite IH. reflexivity.
Qed.

Lemma arrayIncludes_In (l : list string) (name : string) :
  arrayIncludes l name = true <-> In name l.
Proof.
  unfold arrayIncludes. rewrite existsb_exists. split.
  - intros (x & Hin & Heq). apply String.eqb_eq in Heq. subst. exact Hin.
  - intros Hin. exists name. split; [exact Hin | apply String.eqb_refl].
Qed.

Lemma arrayIncludes_not_In (l : list string) (name : string) :
  arrayIncludes l name = false <-> ~ In name l.
Proof.
  rewrite <- arrayIncludes_In. destruct (arrayIncludes l name); split; congruence.
Qed.

(** ** Filename patterns *)

Section MoreFilenamePatternFacts.
Context `{NodePath} `{Minimatch}.

(** The verdict on an array of patterns, with the two length tests folded
    away: no exclude pattern matches, and an include pattern matches if
    there is one. *)
Lemma matchesFilenamePattern_array (filePath : string) (ps : list string) :
  matchesFilenamePattern filePath (Some (PatternArray ps))
  = negb (existsb (matchesPattern filePath (basename filePath) (resolve filePath))
            (excludePatterns ps))
    && (match includePatterns ps with
        | [] => true
        | incl => existsb (matchesPattern filePath (basename filePath)
                             (resolve filePath)) incl
        end).
Proof.
  unfold matchesFilenamePattern. cbn [falsyPatterns patternList].
  destruct (excludePatterns ps) as [|g excl] eqn:Hexcl.
  - cbn [length Nat.ltb Nat.leb andb existsb negb].
    destruct (includePatterns ps); reflexivity.
  - change (0 <? length (g :: excl))%nat with true. cbn [andb].
    destruct (existsb _ (g :: excl)); cbn [negb andb]; [reflexivity|].
    destruct (includePatterns ps); reflexivity.
Qed.

(** X1.  The order of the patterns in the array does not change the
    verdict of [matchesFilenamePattern]: an exclude pattern rejects
    whether it comes before or after the include patterns. *)
Theorem pattern_order_is_irrelevant (filePath : string) (ps ps' : list string) :
  Permutation ps ps' ->
  matchesFilenamePattern filePath (Some (PatternArray ps))
  = matchesFilenamePattern filePath (Some (PatternArray ps')).
Proof.
  intros Hperm. rewrite !matchesFilenamePattern_array.
  assert (Hexcl : Permutation (excludePatterns ps) (excludePatterns ps')).
  { unfold excludePatterns. apply Permutation_map, List_filter_Permutation, Hperm. }
  assert (Hincl : Permutation (includePatterns ps) (includePatterns ps')).
  { unfold includePatterns. apply List_filter_Permutation, Hperm. }
  rewrite (existsb_Permutation _ _ _ Hexcl). f_equal.
  destruct (includePatterns ps) as [|a incl] eqn:Ha.
  - apply Permutation.Permutation_nil in Hincl. rewrite Hincl. reflexivity.
  - destruct (includePatterns ps') as [|b incl'] eqn:Hb.
    + symmetry in Hincl. apply Permutation.Permutation_nil in Hincl.
      discriminate Hincl.
    + apply existsb_Permutation, Hincl.
Qed.

(** X2.  A pattern given as one string is treated as the array holding
    just that pattern, except for the empty string: it is falsy and
    accepts every path, where the array holding it is matched as a
    pattern. *)
Theorem single_pattern_as_array (filePath pattern : string) :
  matchesFilenamePattern filePath (Some (OnePattern pattern))
  = if String.eqb pattern EmptyString then true
    else matchesFilenamePattern filePath (Some (PatternArray [pattern])).
Proof.
  unfold matchesFilenamePattern. cbn [falsyPatterns patternList].
  destruct (String.eqb pattern EmptyString); reflexivity.
Qed.

Lemma includePatterns_all_excluding (ps : list string) :
  forallb (fun p => Js.startsWith p "!") ps = true -> includePatterns ps = [].
Proof.
  induction ps as [|p ps IH]; [reflexivity|].
  cbn [forallb]. intros Hall. apply andb_true_iff in Hall as [Hp Hps].
  unfold includePatterns. cbn [List.filter]. rewrite Hp. cbn [negb]. apply IH, Hps.
Qed.

Lemma excludePatterns_all_excluding (ps : list string) :
  forallb (fun p => Js.startsWith p "!") ps = true ->
  excludePatterns ps = List.map Js.slice1 ps.
Proof.
  induction ps as [|p ps IH]; [reflexivity|].
  cbn [forallb]. intros Hall. apply andb_true_iff in Hall as [Hp Hps].
  unfold excludePatterns. cbn [List.filter]. rewrite Hp. cbn [List.map].
  f_equal. apply IH, Hps.
Qed.

(** X3.  When every pattern of the array is an exclude pattern, a path is
    accepted exactly when it matches none of them: without include
    patterns everything that is not excluded passes. *)
Theorem exclude_only_patterns (filePath : string) (ps : list string) :
  forallb (fun p => Js.startsWith p "!") ps = true ->
  matchesFilenamePattern filePath (Some (PatternArray ps)) = true <->
  forall p, In p ps ->
    matchesPattern filePath (basename filePath) (resolve filePath) (Js.slice1 p)
    = false.
Proof.
  intros Hall. rewrite matchesFilenamePattern_array.
  rewrite (includePatterns_all_excluding _ Hall), (excludePatterns_all_excluding _ Hall).
  rewrite andb_true_r, negb_true_iff. split.
  - intros Hnone p Hin.
    destruct (matchesPattern _ _ _ (Js.slice1 p)) eqn:Hm; [|reflexivity].
    assert (Hex : existsb (matchesPattern filePath (basename filePath) (resolve filePath))
                    (List.map Js.slice1 ps) = true).
    { apply existsb_exists. exists (Js.slice1 p). split; [apply in_map, Hin | exact Hm]. }
    congruence.
  - intros Hnone.
    destruct (existsb _ (List.map Js.slice1 ps)) eqn:Hex; [|reflexivity].
    apply existsb_exists in Hex as (g & Hin & Hm).
    apply in_map_iff in Hin as (p & <- & Hin).
    rewrite (Hnone p Hin) in Hm. discriminate Hm.
Qed.

(** X4.  One more exclude pattern never lets a path in: a path accepted
    with the exclude pattern in the array is accepted without it. *)
Theorem more_excludes_reject_more (filePath glob : string) (ps : list string) :
  matchesFilenamePattern filePath (Some (PatternArray (("!" ++ glob) :: ps))) = true ->
  matchesFilenamePattern filePath (Some (PatternArray ps)) = true.
Proof.
  rewrite !matchesFilenamePattern_array.
  unfold excludePatterns, includePatterns. cbn [List.filter List.map].
  change (Js.startsWith ("!" ++ glob) "!") with (String.prefix "!" ("!" ++ glob)).
  rewrite prefix_app. cbn [negb List.map existsb].
  intros Hok. apply andb_true_iff in Hok as [Hex Hin].
  apply negb_true_iff, orb_false_iff in Hex as [_ Hex].
  rewrite Hex. exact Hin.
Qed.

End MoreFilenamePatternFacts.

(** ** Content patterns and the directory walk *)

Section MoreWalkFacts.
Context `{NodePath} `{Minimatch} `{NodeBuffer} `{JsRegExp}.

(** X5.  With the empty array as content patterns [findMatchingFiles]
    finds no file, whatever the directory holds and whatever the filename
    patterns are: a call that returns, returns the empty list, and the
    call returns when the walk meets no failure of [readdirSync] or
    [statSync]. *)
Theorem empty_regex_array_finds_nothing (fs : FileSystem)
    (listing : Js.completion (list DirEntry)) (dir : string)
    (filenamePattern : option PatternArg) (w : World) :
  (forall results w',
     findMatchingFiles fs listing dir filenamePattern (Some (RegexArray [])) w
     = (Js.Return results, w') ->
     results = []) /\
  (walkable listing = true ->
   exists w',
     findMatchingFiles fs listing dir filenamePattern (Some (RegexArray [])) w
     = (Js.Return [], w')).
Proof.
  destruct (walkable listing) eqn:Hwalk.
  - destruct listing as [files|error]; [|discriminate Hwalk].
    assert (Hplain : plainPatterns (Some (RegexArray []))) by (intros r []).
    assert (Hall : Forall (walkEntryOk fs filenamePattern (Some (RegexArray []))) files).
    { apply Forall_forall. intros e _. apply walkEntry_ok, Hplain. }
    destruct (walkDir_ok fs filenamePattern (Some (RegexArray [])) files Hall Hwalk
                dir [] w) as (found & w' & Hrun & _ & Hspec).
    assert (Hnone : found = []).
    { destruct found as [|p found]; [reflexivity|].
      destruct (proj1 (Hspec p)) as [_ [_ (buf & r & _ & [] & _)]].
      left. reflexivity. }
    subst found. unfold findMatchingFiles. rewrite Hrun. split.
    + intros results w0 Heq. injection Heq as <- _. reflexivity.
    + intros _. exists w'. reflexivity.
  - split; [|discriminate].
    destruct (findMatchingFiles_throws fs filenamePattern (Some (RegexArray []))
                listing dir w Hwalk) as (error & w1 & Hthrow).
    intros results w' Hrun. rewrite Hthrow in Hrun. discriminate Hrun.
Qed.

Lemma plainWalkDir_ok filenamePattern es :
  Forall (plainWalkOk filenamePattern) es ->
  forall dir,
    if forallb walkableEntry es
    then exists found, forall fs results w,
           walkDir fs filenamePattern None dir es results w
           = (Js.Return (results ++ found)%list, w)
    else exists error, forall fs results w,
           walkDir fs filenamePattern None dir es results w
           = (Js.Throw error, w).
Proof.
  induction 1 as [|e es He _ IH]; intros dir.
  - exists []. intros fs results w. simpl. unfold io_ret.
    rewrite app_nil_r. reflexivity.
  - cbn [forallb]. specialize (He dir). specialize (IH dir).
    destruct (walkableEntry e); cbn [andb].
    + destruct He as (found1 & Hrun1).
      destruct (forallb walkableEntry es).
      * destruct IH as (found2 & Hrun2).
        exists (found1 ++ found2)%list. intros fs results w.
        simpl. unfold io_bind. rewrite Hrun1, Hrun2, <- app_assoc. reflexivity.
      * destruct IH as (error & Hrun2).
        exists error. intros fs results w.
        simpl. unfold io_bind. rewrite Hrun1, Hrun2. reflexivity.
    + destruct He as (error & Hrun1).
      exists error. intros fs results w.
      simpl. unfold io_bind. rewrite Hrun1. reflexivity.
Qed.

Lemma plainWalkEntry_ok filenamePattern e : plainWalkOk filenamePattern e.
Proof.
  induction e as [file|file entries IH|file error|file error]
    using DirEntry_nested_ind; intros dir.
  - cbn [walkableEntry].
    destruct (matchesFilenamePattern (join dir file) filenamePattern) eqn:Hname.
    + exists [join dir file]. intros fs results w.
      cbn [walkEntry]. rewrite Hname. reflexivity.
    + exists []. intros fs results w.
      cbn [walkEntry]. rewrite Hname. unfold io_ret. rewrite app_nil_r. reflexivity.
  - cbn [walkableEntry]. destruct (Js.startsWith file ".") eqn:Hdot.
    + exists []. intros fs results w. rewrite walkEntry_SubDir, Hdot.
      unfold io_ret. rewrite app_nil_r. reflexivity.
    + pose proof (plainWalkDir_ok filenamePattern entries IH (join dir file)) as Hsub.
      destruct (forallb walkableEntry entries).
      * destruct Hsub as (found & Hrun). exists found. intros fs results w.
        rewrite walkEntry_SubDir, Hdot. apply Hrun.
      * destruct Hsub as (failure & Hrun). exists failure. intros fs results w.
        rewrite walkEntry_SubDir, Hdot. apply Hrun.
  - cbn [walkableEntry]. destruct (Js.startsWith file ".") eqn:Hdot.
    + exists []. intros fs results w. cbn [walkEntry]. rewrite Hdot.
      unfold io_ret. rewrite app_nil_r. reflexivity.
    + exists error. intros fs results w. cbn [walkEntry]. rewrite Hdot. reflexivity.
  - exists error. intros fs results w. reflexivity.
Qed.

(** X6.  Without content patterns [findMatchingFiles] reads no file: what
    it returns or throws is the same on every file system with that
    directory listing, files that cannot be read included, and it writes
    nothing to the console; it returns when the walk meets no failure of
    [readdirSync] or [statSync]. *)
Theorem no_content_patterns_reads_nothing (listing : Js.completion (list DirEntry))
    (dir : string) (filenamePattern : option PatternArg) :
  exists outcome,
    (forall (fs : FileSystem) (w : World),
       findMatchingFiles fs listing dir filenamePattern None w = (outcome, w)) /\
    (walkable listing = true -> exists results, outcome = Js.Return results).
Proof.
  destruct listing as [files|error].
  - assert (Hall : Forall (plainWalkOk filenamePattern) files).
    { apply Forall_forall. intros e _. apply plainWalkEntry_ok. }
    pose proof (plainWalkDir_ok filenamePattern files Hall dir) as Hruns.
    unfold walkable, findMatchingFiles.
    destruct (forallb walkableEntry files).
    + destruct Hruns as (found & Hrun). exists (Js.Return found). split.
      * intros fs w. rewrite Hrun. reflexivity.
      * intros _. exists found. reflexivity.
    + destruct Hruns as (failure & Hrun). exists (Js.Throw failure). split.
      * intros fs w. apply Hrun.
      * discriminate.
  - exists (Js.Throw error). split; [reflexivity | discriminate].
Qed.

Lemma selectingDir_ok fs filenamePattern contentRegex es :
  Forall (selectingOk fs filenamePattern contentRegex) es ->
  forallb walkableEntry es = true ->
  forall dir, exists every,
    (forall fs0 results w,
       walkDir fs0 None None dir es results w
       = (Js.Return (results ++ every)%list, w)) /\
    forall results w, exists found w',
      walkDir fs filenamePattern contentRegex dir es results w
      = (Js.Return (results ++ found)%list, w') /\
      sublist found every.
Proof.
  induction 1 as [|e es He _ IH]; intros Hwalk dir.
  - exists []. split.
    + intros fs0 results w. simpl. unfold io_ret. rewrite app_nil_r. reflexivity.
    + intros results w. exists [], w. split; [|constructor].
      simpl. unfold io_ret. rewrite app_nil_r. reflexivity.
  - cbn [forallb] in Hwalk. apply andb_true_iff in Hwalk as [Hwe Hwes].
    destruct (He Hwe dir) as (every1 & Hplain1 & Hsel1).
    destruct (IH Hwes dir) as (every2 & Hplain2 & Hsel2).
    exists (every1 ++ every2)%list. split.
    + intros fs0 results w. simpl. unfold io_bind.
      rewrite Hplain1, Hplain2, <- app_assoc. reflexivity.
    + intros results w.
      destruct (Hsel1 results w) as (found1 & w1 & Hrun1 & Hsub1).
      destruct (Hsel2 (results ++ found1)%list w1) as (found2 & w2 & Hrun2 & Hsub2).
      exists (found1 ++ found2)%list, w2. split.
      * simpl. unfold io_bind. rewrite Hrun1, Hrun2, <- app_assoc. reflexivity.
      * apply sublist_app; assumption.
Qed.

Lemma selectingEntry_ok fs filenamePattern contentRegex e :
  selectingOk fs filenamePattern contentRegex e.
Proof.
  induction e as [file|file entries IH|file error|file error]
    using DirEntry_nested_ind; intros Hwalk dir.
  - exists [join dir file]. split; [reflexivity|].
    intros results w. cbn [walkEntry].
    destruct (matchesFilenamePattern (join dir file) filenamePattern).
    + destruct (matchesContentRegex_returns fs contentRegex (join dir file) w)
        as (b & w' & Hrun).
      unfold io_bind. rewrite Hrun. destruct b.
      * exists [join dir file], w'. split; reflexivity.
      * exists [], w'. split; [unfold io_ret; rewrite app_nil_r; reflexivity|].
        apply sublist_nil_l.
    + exists [], w. split; [unfold io_ret; rewrite app_nil_r; reflexivity|].
      apply sublist_nil_l.
  - cbn [walkableEntry] in Hwalk. destruct (Js.startsWith file ".") eqn:Hdot.
    + exists []. split.
      * intros fs0 results w. rewrite walkEntry_SubDir, Hdot.
        unfold io_ret. rewrite app_nil_r. reflexivity.
      * intros results w. exists [], w. split; [|constructor].
        rewrite walkEntry_SubDir, Hdot. unfold io_ret. rewrite app_nil_r. reflexivity.
    + destruct (selectingDir_ok fs filenamePattern contentRegex entries IH Hwalk
                  (join dir file)) as (every & Hplain & Hsel).
      exists every. split.
      * intros fs0 results w. rewrite walkEntry_SubDir, Hdot. apply Hplain.
      * intros results w. destruct (Hsel results w) as (found & w' & Hrun & Hsub).
        exists found, w'. split; [|exact Hsub].
        rewrite walkEntry_SubDir, Hdot. exact Hrun.
  - cbn [walkableEntry] in Hwalk.
    destruct (Js.startsWith file ".") eqn:Hdot; [|discriminate Hwalk].
    exists []. split.
    + intros fs0 results w. cbn [walkEntry]. rewrite Hdot.
      unfold io_ret. rewrite app_nil_r. reflexivity.
    + intros results w. exists [], w. split; [|constructor].
      cbn [walkEntry]. rewrite Hdot. unfold io_ret. rewrite app_nil_r. reflexivity.
  - discriminate Hwalk.
Qed.

(** X7.  The patterns only select: when the walk meets no failure of
    [readdirSync] or [statSync], what [findMatchingFiles] returns with
    filename and content patterns is a subsequence, in the same order, of
    what it returns for the same directory without any pattern, whatever
    the flags of the content patterns. *)
Theorem filters_select_from_the_plain_walk (fs : FileSystem)
    (listing : Js.completion (list DirEntry)) (dir : string)
    (filenamePattern : option PatternArg) (contentRegex : option RegexArg)
    (w : World) :
  walkable listing = true ->
  exists found every w',
    findMatchingFiles fs listing dir filenamePattern contentRegex w
    = (Js.Return found, w') /\
    findMatchingFiles fs listing dir None None w = (Js.Return every, w) /\
    sublist found every.
Proof.
  destruct listing as [files|error]; [|discriminate]. intros Hwalk.
  assert (Hall : Forall (selectingOk fs filenamePattern contentRegex) files).
  { apply Forall_forall. intros e _. apply selectingEntry_ok. }
  destruct (selectingDir_ok fs filenamePattern contentRegex files Hall Hwalk dir)
    as (every & Hplain & Hsel).
  destruct (Hsel [] w) as (found & w' & Hrun & Hsub).
  exists found, every, w'. unfold findMatchingFiles.
  rewrite Hrun, Hplain. auto.
Qed.

End MoreWalkFacts.

(** ** Version constraints *)

Section MoreSemverFacts.
Import Semver.

Lemma tilde_caret (i c : Triple) : tilde i c = true -> caret i c = true.
Proof.
  destruct i as [[major minor] patch], c as [[cMajor cMinor] cPatch].
  unfold tilde, caret. intros Ht.
  apply andb_true_iff in Ht as [Ht Hp]. apply andb_true_iff in Ht as [HM Hm].
  rewrite HM, Hm, Hp. cbn. apply orb_true_r.
Qed.

Lemma caret_atLeast (i c : Triple) : caret i c = true -> ordered gt ge i c = true.
Proof.
  destruct i as [[major minor] patch], c as [[cMajor cMinor] cPatch].
  unfold caret, ordered. intros Hc.
  apply andb_true_iff in Hc as [HM Hrest]. rewrite HM. cbn [andb].
  apply orb_true_iff in Hrest as [Hm|Hrest].
  - rewrite Hm. rewrite orb_true_r. reflexivity.
  - rewrite Hrest. apply orb_true_r.
Qed.

Lemma validateSemverMatch_range (v c op version : string) :
  constraintMatch c = Some (op, version) ->
  isRangeOperator op = true ->
  validateSemverMatch v (Some c) = true ->
  v = c \/ rangePredicate op (installedTriple v) (constraintTriple version) = true.
Proof.
  intros Hm Hop Hv. destruct (String.eqb_spec v c) as [->|Hne]; [left; reflexivity|].
  right. rewrite (validateSemverMatch_matched v c op version Hm Hne), Hop in Hv.
  exact Hv.
Qed.

(** X8.  For one version text, the three operators nest: an installed
    version that satisfies the tilde constraint satisfies the caret
    constraint, and one that satisfies the caret constraint satisfies the
    [>=] constraint. *)
Theorem tilde_within_caret_within_at_least (v version tildeC caretC atLeastC : string) :
  constraintMatch tildeC = Some ("~", version) ->
  constraintMatch caretC = Some ("^", version) ->
  constraintMatch atLeastC = Some (">=", version) ->
  v <> tildeC -> v <> caretC ->
  (validateSemverMatch v (Some tildeC) = true ->
   validateSemverMatch v (Some caretC) = true) /\
  (validateSemverMatch v (Some caretC) = true ->
   validateSemverMatch v (Some atLeastC) = true).
Proof.
  intros Ht Hc Ha Hnt Hnc. split; intros Hv.
  - destruct (validateSemverMatch_range v tildeC "~" version Ht eq_refl Hv)
      as [->|Hp]; [contradiction|].
    rewrite (validateSemverMatch_matched v caretC "^" version Hc Hnc).
    apply tilde_caret, Hp.
  - destruct (validateSemverMatch_range v caretC "^" version Hc eq_refl Hv)
      as [->|Hp]; [contradiction|].
    destruct (String.eqb_spec v atLeastC) as [->|Hna].
    + unfold validateSemverMatch. rewrite String.eqb_refl.
      destruct (String.eqb atLeastC EmptyString); reflexivity.
    + rewrite (validateSemverMatch_matched v atLeastC ">=" version Ha Hna).
      apply caret_atLeast, Hp.
Qed.

Lemma ordered_complement (a b c x y z : Z) :
  ordered lt lt (Num a, Num b, Num c) (Num x, Num y, Num z)
  = negb (ordered gt ge (Num a, Num b, Num c) (Num x, Num y, Num z)).
Proof. unfold ordered, lt, gt, ge, strictEq. lia. Qed.

(** X9.  When the installed version and the version of the constraint
    both have three numeric parts, the constraints [<] and [>=] on that
    version are complementary: the installed version satisfies exactly one
    of them. *)
Theorem below_is_the_complement_of_at_least (v version belowC atLeastC : string)
    (a b c x y z : Z) :
  constraintMatch belowC = Some ("<", version) ->
  constraintMatch atLeastC = Some (">=", version) ->
  v <> belowC -> v <> atLeastC ->
  installedTriple v = (Num a, Num b, Num c) ->
  constraintTriple version = (Num x, Num y, Num z) ->
  validateSemverMatch v (Some belowC) = negb (validateSemverMatch v (Some atLeastC)).
Proof.
  intros Hb Ha Hnb Hna Hi Hc.
  rewrite (validateSemverMatch_matched v belowC "<" version Hb Hnb).
  rewrite (validateSemverMatch_matched v atLeastC ">=" version Ha Hna).
  rewrite Hi, Hc. exact (ordered_complement a b c x y z).
Qed.

Lemma ge_undefined (a : JsNumber) : ge a Undefined = false.
Proof. destruct a; reflexivity. Qed.

Lemma firstThree_short (l : list JsNumber) :
  (length l < 3)%nat -> exists a b, firstThree l = (a, b, Undefined).
Proof.
  intros Hlen. destruct l as [|a [|b [|c l]]]; cbn in Hlen; try lia;
    eexists _, _; reflexivity.
Qed.

(** X10.  A constraint whose version has fewer than three parts leaves
    [cPatch] undefined, and no number compares with it: the tilde
    constraint then rejects every installed version, and the caret
    constraint accepts only a greater minor under the same major (the
    identical text apart). *)
Theorem two_part_constraint (v c op version : string) :
  constraintMatch c = Some (op, version) ->
  (length (splitDot version) < 3)%nat ->
  v <> c ->
  (op = "~" -> validateSemverMatch v (Some c) = false) /\
  (op = "^" ->
   validateSemverMatch v (Some c)
   = let '(major, minor, _) := installedTriple v in
     let '(cMajor, cMinor, _) := constraintTriple version in
     strictEq major cMajor && gt minor cMinor).
Proof.
  intros Hm Hlen Hne.
  rewrite (validateSemverMatch_matched v c op version Hm Hne).
  destruct (firstThree_short (List.map (fun x => orZero (parseInt10 x)) (splitDot version)))
    as (cMajor & cMinor & Hc).
  { rewrite length_map. exact Hlen. }
  unfold constraintTriple. rewrite Hc.
  destruct (installedTriple v) as [[major minor] patch].
  split; intros ->; cbn.
  - rewrite ge_undefined, andb_false_r. reflexivity.
  - rewrite ge_undefined, andb_false_r, orb_false_r. reflexivity.
Qed.

(** X11.  A constraint the regular expression accepts with an operator
    that is none of the cases of the [switch] (such as [=>] or [==])
    rejects every installed version but the identical text. *)
Theorem unknown_operator_rejects (v c op version : string) :
  constraintMatch c = Some (op, version) ->
  v <> c ->
  ~ In op ["^"; "~"; ">="; ">"; "<="; "<"; "="; EmptyString] ->
  validateSemverMatch v (Some c) = false.
Proof.
  intros Hm Hne Hop.
  rewrite (validateSemverMatch_matched v c op version Hm Hne).
  unfold isRangeOperator, rangeOperators. cbn [existsb].
  cbn [In] in Hop.
  repeat match goal with
         | |- context [String.eqb op ?s] =>
           destruct (String.eqb_spec op s); [exfalso; apply Hop; subst; tauto|]
         end.
  reflexivity.
Qed.

End MoreSemverFacts.

(** ** Directories and files *)

Section FileOperationFacts.
Context `{NodePath} `{NodeBuffer} `{JsJSON} `{NodeCrypto}.

Lemma made_directories_keep (fs : FileSystem) (chain : list string) (q : string)
    (node : FsNode) :
  existsb (isRegularFile fs) chain = false ->
  fs !! q = Some node ->
  fold_right (fun a acc => <[a := Directory]> acc) fs chain !! q = Some node.
Proof.
  intros Hfree Hq. destruct (in_dec string_dec q chain) as [Hin|Hnin].
  - rewrite (lookup_made_directory _ _ _ Hin).
    destruct node as [data mode|]; [|reflexivity].
    assert (Hex : existsb (isRegularFile fs) chain = true).
    { apply existsb_exists. exists q. split; [exact Hin|].
      unfold isRegularFile. rewrite Hq. reflexivity. }
    congruence.
  - rewrite (lookup_beside_directories _ _ _ Hnin). exact Hq.
Qed.

(** What holds after [ensureDir] has returned. *)
Lemma ensureDir_returned (fs fs' : FileSystem) (dir : string) :
  ensureDir fs dir = Js.Return fs' ->
  (forall q node, fs !! q = Some node -> fs' !! q = Some node) /\
  existsSync fs' dir = true /\
  (existsSync fs dir = true -> fs' = fs) /\
  ensureDir fs' dir = Js.Return fs'.
Proof.
  unfold ensureDir. destruct (existsSync fs dir) eqn:Hthere; cbn [negb].
  - intros [= <-]. rewrite Hthere. auto.
  - unfold mkdirSync_recursive.
    destruct (existsb (isRegularFile fs) (pathChain dir)) eqn:Hfree; [discriminate|].
    remember (fold_right (fun a acc => <[a := Directory]> acc) fs (pathChain dir))
      as made eqn:Hmade.
    intros Heq. injection Heq as <-.
    assert (Hnow : existsSync made dir = true).
    { unfold existsSync. rewrite Hmade, lookup_made_directory; [reflexivity|].
      left. reflexivity. }
    split; [|split; [exact Hnow | split; [discriminate|]]].
    + intros q node Hq. rewrite Hmade.
      exact (made_directories_keep fs (pathChain dir) q node Hfree Hq).
    + rewrite Hnow. reflexivity.
Qed.

(** X12.  [ensureDir] returns when the path is there or no regular file
    stands where a directory has to be made.  It then keeps every entry
    of the file system, the path exists afterwards, a path that was there
    (a regular file too) leaves the file system as it was, and a second
    call changes nothing. *)
Theorem ensureDir_keeps_what_is_there (fs : FileSystem) (dir : string) :
  existsSync fs dir = true \/ existsb (isRegularFile fs) (pathChain dir) = false ->
  exists fs',
    ensureDir fs dir = Js.Return fs' /\
    (forall q node, fs !! q = Some node -> fs' !! q = Some node) /\
    existsSync fs' dir = true /\
    (existsSync fs dir = true -> fs' = fs) /\
    ensureDir fs' dir = Js.Return fs'.
Proof.
  intros Hpre.
  assert (Hruns : exists fs', ensureDir fs dir = Js.Return fs').
  { unfold ensureDir. destruct (existsSync fs dir) eqn:Hthere; cbn [negb]; [eauto|].
    destruct Hpre as [Hpre|Hfree]; [discriminate Hpre|].
    unfold mkdirSync_recursive. rewrite Hfree. eauto. }
  destruct Hruns as [fs' Hrun]. exists fs'. split; [exact Hrun|].
  exact (ensureDir_returned fs fs' dir Hrun).
Qed.

(** X13.  [removeFile] on a path that is not a directory returns and
    leaves the file system without that path: a file is removed whatever
    its permission bits (a read-only file too), a path that is not there
    is no error, and every other path keeps what it held. *)
Theorem removeFile_removes (fs : FileSystem) (filePath : string) :
  fs !! filePath <> Some Directory ->
  removeFile fs filePath = Js.Return (delete filePath fs) /\
  existsSync (delete filePath fs) filePath = false /\
  (forall q, q <> filePath -> delete filePath fs !! q = fs !! q) /\
  (existsSync fs filePath = false -> delete filePath fs = fs).
Proof.
  intros Hfile. split; [|split; [|split]].
  - unfold removeFile, existsSync, chmodSync.
    destruct (fs !! filePath) as [[data mode|]|] eqn:Hp; [|contradiction|].
    + cbn. unfold unlinkSync. rewrite lookup_insert_eq. cbn.
      rewrite delete_insert_eq. reflexivity.
    + cbn. rewrite delete_id by exact Hp. reflexivity.
  - unfold existsSync. rewrite lookup_delete_eq. reflexivity.
  - intros q Hq. apply lookup_delete_ne. congruence.
  - unfold existsSync. destruct (fs !! filePath) eqn:Hp; [discriminate|].
    intros _. apply delete_id. exact Hp.
Qed.

(** X14.  [removeFile] on a directory fails: the error of [unlinkSync] is
    caught and thrown again as [Failed to remove file <path>: <cause>],
    a message that names the path. *)
Theorem removeFile_directory_fails (fs : FileSystem) (filePath : string) :
  fs !! filePath = Some Directory ->
  exists cause,
    unlinkSync fs filePath = Js.Throw cause /\
    removeFile fs filePath
    = Js.Throw ("Error: Failed to remove file " ++ filePath ++ ": " ++ cause) /\
    Js.includes ("Error: Failed to remove file " ++ filePath ++ ": " ++ cause)
      filePath = true.
Proof.
  intros Hdir. unfold removeFile, existsSync, chmodSync. rewrite Hdir. cbn.
  unfold unlinkSync. rewrite Hdir. cbn.
  eexists. split; [reflexivity|]. split; [reflexivity|].
  apply includes_app.
Qed.

(** X15.  [copyFile] of a readable file to a destination whose directory
    is there or can be made, and which can be written: the directory of
    the destination is made, the destination then holds the bytes and the
    mode of the source, and every other entry of the file system, the
    source among them, is kept. *)
Theorem copyFile_copies (fs : FileSystem) (src dest data : string) (mode : N) :
  fs !! src = Some (RegularFile data mode) ->
  ownerCanRead mode = true ->
  parentAvailable fs dest ->
  targetWritable fs dest ->
  exists fs',
    copyFile fs src dest = Js.Return fs' /\
    fs' !! dest = Some (RegularFile data mode) /\
    fs' !! dirname dest = Some Directory /\
    (src <> dest -> fs' !! src = fs !! src) /\
    forall q node, q <> dest -> fs !! q = Some node -> fs' !! q = Some node.
Proof.
  intros Hsrc Hread Hparent Htarget.
  destruct (ensureDir_parent fs dest Hparent Htarget)
    as (fs1 & Hensure & Hdir & Hdest & Hne & _).
  destruct (ensureDir_returned fs fs1 (dirname dest) Hensure) as (Hkeep & _).
  pose proof (Hkeep _ _ Hsrc) as Hsrc1.
  unfold copyFile. rewrite Hensure. cbn [mbind completion_bind Js.bind].
  unfold copyFileSync. rewrite Hsrc1, Hread, Hdir, Hdest.
  unfold targetWritable in Htarget.
  assert (Hpost : forall fs2, fs2 = <[dest := RegularFile data mode]> fs1 ->
            fs2 !! dest = Some (RegularFile data mode) /\
            fs2 !! dirname dest = Some Directory /\
            (src <> dest -> fs2 !! src = fs !! src) /\
            forall q node, q <> dest -> fs !! q = Some node -> fs2 !! q = Some node).
  { intros fs2 ->. rewrite lookup_insert_eq. split; [reflexivity|].
    rewrite lookup_insert_ne by congruence. split; [exact Hdir|]. split.
    - intros Hsd. rewrite lookup_insert_ne by congruence. congruence.
    - intros q node Hq Hnode. rewrite lookup_insert_ne by congruence.
      apply Hkeep, Hnode. }
  destruct (fs !! dest) as [[old destMode|]|]; try contradiction.
  - rewrite Htarget. eexists. split; [reflexivity|]. apply Hpost. reflexivity.
  - eexists. split; [reflexivity|]. apply Hpost. reflexivity.
Qed.

(** X16.  After [copyFile] the destination has the hash [getFileHash]
    gave for the source, and the source still has it. *)
Theorem copyFile_preserves_hash (fs : FileSystem) (src dest digest : string) :
  getFileHash fs src = Js.Return digest ->
  parentAvailable fs dest ->
  targetWritable fs dest ->
  exists fs',
    copyFile fs src dest = Js.Return fs' /\
    getFileHash fs' dest = Js.Return digest /\
    getFileHash fs' src = Js.Return digest.
Proof.
  intros Hhash Hparent Htarget.
  unfold getFileHash, readFileSync in Hhash.
  destruct (fs !! src) as [[data mode|]|] eqn:Hsrc; try discriminate Hhash.
  destruct (ownerCanRead mode) eqn:Hread; [|discriminate Hhash].
  destruct (ensureDir_parent fs dest Hparent Htarget)
    as (fs1 & Hensure & Hdir & Hdest & Hne & _).
  destruct (ensureDir_returned fs fs1 (dirname dest) Hensure) as (Hkeep & _).
  pose proof (Hkeep _ _ Hsrc) as Hsrc1.
  assert (Hcopy : copyFile fs src dest
                  = Js.Return (<[dest := RegularFile data mode]> fs1)).
  { unfold copyFile. rewrite Hensure. cbn [mbind completion_bind Js.bind].
    unfold copyFileSync. rewrite Hsrc1, Hread, Hdir, Hdest.
    unfold targetWritable in Htarget.
    destruct (fs !! dest) as [[old destMode|]|]; try contradiction.
    - rewrite Htarget. reflexivity.
    - reflexivity. }
  eexists. split; [exact Hcopy|].
  assert (Hd : getFileHash (<[dest := RegularFile data mode]> fs1) dest
               = Js.Return digest).
  { unfold getFileHash, readFileSync. rewrite lookup_insert_eq, Hread. exact Hhash. }
  split; [exact Hd|].
  destruct (string_dec src dest) as [->|Hsd]; [exact Hd|].
  unfold getFileHash, readFileSync.
  rewrite lookup_insert_ne by congruence. rewrite Hsrc1, Hread. exact Hhash.
Qed.

(** The mode of the file [writeJsonFile] leaves: that of the file it
    replaced, or that of a new file. *)
Lemma writeJsonFile_mode (fs : FileSystem) (filePath : string) (data : Json) :
  parentAvailable fs filePath ->
  targetWritable fs filePath ->
  exists fs',
    writeJsonFile fs filePath data = Js.Return fs' /\
    fs' !! filePath
    = Some (RegularFile (encode Utf8 (JSON.stringify data 2 ++ JSON.lf))
              match fs !! filePath with
              | Some (RegularFile _ mode) => mode
              | _ => newFileMode
              end).
Proof.
  intros Hparent Htarget.
  destruct (ensureDir_parent fs filePath Hparent Htarget)
    as (fs1 & Hensure & Hdir & Hfile & Hne & Hframe).
  unfold writeJsonFile. rewrite Hensure. cbn [mbind completion_bind Js.bind].
  unfold writeFileSync. rewrite Hdir, Hfile.
  unfold targetWritable in Htarget.
  destruct (fs !! filePath) as [[old mode|]|] eqn:Hold; try contradiction.
  - rewrite Htarget. eexists. split; [reflexivity|]. apply lookup_insert_eq.
  - eexists. split; [reflexivity|]. apply lookup_insert_eq.
Qed.

(** X17.  What [writeJsonFile] has written, [readJsonFile] reads back:
    when [JSON.parse] returns the value for the text [JSON.stringify]
    gave, reading the file that was just written returns the value. *)
Theorem writeJsonFile_then_readJsonFile (fs : FileSystem) (filePath : string)
    (data : Json) :
  parentAvailable fs filePath ->
  targetWritable fs filePath ->
  targetReadable fs filePath ->
  JSON_parse (decode Utf8 (encode Utf8 (JSON.stringify data 2 ++ JSON.lf)))
  = Js.Return data ->
  exists fs',
    writeJsonFile fs filePath data = Js.Return fs' /\
    readJsonFile fs' filePath = Js.Return data.
Proof.
  intros Hparent Htarget Hreadable Hparse.
  destruct (writeJsonFile_mode fs filePath data Hparent Htarget) as (fs' & Hrun & Hfile).
  exists fs'. split; [exact Hrun|].
  unfold readJsonFile, readFileSync. rewrite Hfile.
  unfold targetReadable in Hreadable.
  destruct (fs !! filePath) as [[old mode|]|].
  - rewrite Hreadable. cbn. rewrite Hparse. reflexivity.
  - cbn. rewrite Hparse. reflexivity.
  - cbn. rewrite Hparse. reflexivity.
Qed.

(** X18.  Every failure of [readJsonFile] is the same error: whether the
    file could not be read (absent, a directory, no permission) or its
    text is not JSON, the message is [Failed to read JSON file <path>: ]
    followed by the cause. *)
Theorem readJsonFile_wraps_every_failure (fs : FileSystem) (filePath e : string) :
  readJsonFile fs filePath = Js.Throw e ->
  exists cause,
    e = "Error: Failed to read JSON file " ++ filePath ++ ": " ++ cause /\
    (readFileSync fs filePath = Js.Throw cause \/
     exists buf, readFileSync fs filePath = Js.Return buf /\
                 JSON_parse (decode Utf8 buf) = Js.Throw cause).
Proof.
  unfold readJsonFile.
  destruct (readFileSync fs filePath) as [buf|cause] eqn:Hread; cbn.
  - destruct (JSON_parse (decode Utf8 buf)) as [v|cause] eqn:Hparse; cbn;
      [discriminate|].
    intros [= <-]. exists cause. split; [reflexivity|]. right. exists buf. auto.
  - intros [= <-]. exists cause. split; [reflexivity|]. left. reflexivity.
Qed.

End FileOperationFacts.

(** ** The package manager and the installed version *)

(** X19.  A lock file in the working directory decides, whatever the user
    agent says: [pnpm-lock.yaml] gives pnpm even beside the other lock
    files, [yarn.lock] gives yarn when there is no [pnpm-lock.yaml], and
    [package-lock.json] gives npm when there is neither. *)
Theorem lock_file_decides (lockFiles : list string) (userAgent : option string) :
  (In "pnpm-lock.yaml" lockFiles ->
   detectPackageManager (Js.Return lockFiles) userAgent = Pnpm) /\
  (~ In "pnpm-lock.yaml" lockFiles -> In "yarn.lock" lockFiles ->
   detectPackageManager (Js.Return lockFiles) userAgent = Yarn) /\
  (~ In "pnpm-lock.yaml" lockFiles -> ~ In "yarn.lock" lockFiles ->
   In "package-lock.json" lockFiles ->
   detectPackageManager (Js.Return lockFiles) userAgent = Npm).
Proof.
  unfold detectPackageManager. repeat split.
  - intros Hp. apply arrayIncludes_In in Hp. rewrite Hp. reflexivity.
  - intros Hp Hy. apply arrayIncludes_not_In in Hp. apply arrayIncludes_In in Hy.
    rewrite Hp, Hy. reflexivity.
  - intros Hp Hy Hn. apply arrayIncludes_not_In in Hp. apply arrayIncludes_not_In in Hy.
    apply arrayIncludes_In in Hn. rewrite Hp, Hy, Hn. reflexivity.
Qed.

(** X20.  Without a lock file, and also when the working directory
    cannot be listed, the user agent decides, and there yarn is asked
    first: an agent text with [yarn] in it gives yarn (also when [pnpm] is
    in it), else one with [pnpm] gives pnpm, else, and with the variable
    unset, npm. *)
Theorem user_agent_decides_without_lock_file (cwdListing : Js.completion (list string))
    (userAgent : option string) :
  (forall lockFiles, cwdListing = Js.Return lockFiles ->
     ~ In "pnpm-lock.yaml" lockFiles /\ ~ In "yarn.lock" lockFiles /\
     ~ In "package-lock.json" lockFiles) ->
  detectPackageManager cwdListing userAgent
  = match userAgent with
    | Some agent =>
      if Js.includes agent "yarn" then Yarn
      else if Js.includes agent "pnpm" then Pnpm
      else Npm
    | None => Npm
    end.
Proof.
  intros Hnone. unfold detectPackageManager.
  destruct cwdListing as [lockFiles|e].
  - destruct (Hnone lockFiles eq_refl) as (Hp & Hy & Hn).
    apply arrayIncludes_not_In in Hp. apply arrayIncludes_not_In in Hy.
    apply arrayIncludes_not_In in Hn. rewrite Hp, Hy, Hn.
    destruct userAgent; reflexivity.
  - destruct userAgent; reflexivity.
Qed.

Section InstalledVersionFacts.
Context `{NodeBuffer} `{JsJSON} `{NodeModule}.

(** X21.  [getInstalledPackageVersion] never throws.  It returns the
    [version] property of the package.json it resolved when that file
    parses to an object ([undefined] when the object has none), and
    [null] when the package cannot be resolved or its package.json is not
    there. *)
Theorem getInstalledPackageVersion_never_throws (fs : FileSystem) (packageName : string)
    (packageManager : PackageManager) :
  (exists v, getInstalledPackageVersion fs packageName packageManager = Js.Return v) /\
  (forall pkgPath buf fields,
     require_resolve (packageName ++ "/package.json") None = Js.Return pkgPath ->
     readFileSync fs pkgPath = Js.Return buf ->
     JSON_parse (decode Utf8 buf) = Js.Return (JObject fields) ->
     getInstalledPackageVersion fs packageName packageManager
     = Js.Return (lookupProperty fields "version")) /\
  (forall pkgPath,
     require_resolve (packageName ++ "/package.json") None = Js.Return pkgPath ->
     existsSync fs pkgPath = false ->
     getInstalledPackageVersion fs packageName packageManager = Js.Return (JsOf JNull)) /\
  (forall e,
     require_resolve (packageName ++ "/package.json") None = Js.Throw e ->
     getInstalledPackageVersion fs packageName packageManager = Js.Return (JsOf JNull)).
Proof.
  unfold getInstalledPackageVersion. repeat split.
  - destruct (require_resolve _ None) as [pkgPath|e]; cbn; [|eauto].
    destruct (readFileSync fs pkgPath) as [buf|e]; cbn; [|eauto].
    destruct (JSON_parse (decode Utf8 buf)) as [pkg|e]; cbn; [|eauto].
    destruct pkg; cbn; eauto.
  - intros pkgPath buf fields -> Hread Hparse. cbn. rewrite Hread. cbn.
    rewrite Hparse. reflexivity.
  - intros pkgPath -> Hgone. cbn. unfold readFileSync, existsSync in *.
    destruct (fs !! pkgPath); [discriminate|]. reflexivity.
  - intros e ->. reflexivity.
Qed.

End InstalledVersionFacts.

(** [runCommand] returns what the command printed, and names the command
    in the error of a command that failed. *)
Lemma runCommand_names_the_command `{ChildProcess} (command : string) :
  (forall output, execSync command = Js.Return output ->
                  runCommand command = Js.Return output) /\
  (forall e, execSync command = Js.Throw e ->
             exists message, runCommand command = Js.Throw message /\
                             Js.includes message command = true).
Proof.
  unfold runCommand. split.
  - intros output ->. reflexivity.
  - intros e ->. eexists. split; [reflexivity|].
    exact (includes_app "Error: Command failed: " command (JSON.lf ++ e)).
Qed.

(* ================================================================== *)
(** * Properties of the runner                                         *)
(* ================================================================== *)

Section RunnerFacts.
Context `{NodePath} `{NodeBuffer} `{JsJSON} `{NodeModule}.

(** ** collectPackages *)

Lemma joinComma_strings (l : list string) :
  joinComma (List.map JsOf (stringValues l)) = String.concat "," l.
Proof.
  induction l as [|a [|b l] IH]; [reflexivity | reflexivity |].
  change (joinComma (List.map JsOf (stringValues (a :: b :: l))))
    with (a ++ "," ++ joinComma (List.map JsOf (stringValues (b :: l)))).
  rewrite IH. reflexivity.
Qed.

(** X22.  [collectPackages] on a package.json that parses to an object
    returns the [name] of the package first, then the elements of
    [npmdata.additionalPackages] in their order; without [npmdata], or
    without [additionalPackages] in it, it returns the name alone. *)
Theorem collectPackages_own_name_first (fs : FileSystem) (pkgJsonPath buf : string)
    (fields : list (string * Json)) :
  readFileSync fs pkgJsonPath = Js.Return buf ->
  JSON_parse (decode Utf8 buf) = Js.Return (JObject fields) ->
  (lookupProperty fields "npmdata" = JsUndefined ->
   collectPackages fs pkgJsonPath = Js.Return [lookupProperty fields "name"]) /\
  (forall config,
     lookupProperty fields "npmdata" = JsOf (JObject config) ->
     lookupProperty config "additionalPackages" = JsUndefined ->
     collectPackages fs pkgJsonPath = Js.Return [lookupProperty fields "name"]) /\
  (forall config items,
     lookupProperty fields "npmdata" = JsOf (JObject config) ->
     lookupProperty config "additionalPackages" = JsOf (JArray items) ->
     collectPackages fs pkgJsonPath
     = Js.Return (lookupProperty fields "name" :: List.map JsOf items)).
Proof.
  intros Hread Hparse. unfold collectPackages. rewrite Hread. cbn.
  rewrite Hparse. cbn. unfold additionalPackagesOf. cbn. repeat split.
  - intros ->. reflexivity.
  - intros config -> Hadd. cbn. rewrite Hadd. reflexivity.
  - intros config items -> Hadd. cbn. rewrite Hadd. reflexivity.
Qed.

(** X23.  What [collectPackages] does with an [additionalPackages] that
    is no array: [null] is taken as no packages, a string is spread into
    its characters, one package name each, and a number, a boolean or an
    object makes the call throw a [TypeError]. *)
Theorem collectPackages_of_other_values (fs : FileSystem) (pkgJsonPath buf : string)
    (fields config : list (string * Json)) (value : Json) :
  readFileSync fs pkgJsonPath = Js.Return buf ->
  JSON_parse (decode Utf8 buf) = Js.Return (JObject fields) ->
  lookupProperty fields "npmdata" = JsOf (JObject config) ->
  lookupProperty config "additionalPackages" = JsOf value ->
  match value with
  | JString text =>
    collectPackages fs pkgJsonPath
    = Js.Return (lookupProperty fields "name" :: List.map JsOf (characters text))
  | JNumber _ | JBool _ | JObject _ =>
    collectPackages fs pkgJsonPath = Js.Throw "TypeError: additional is not iterable"
  | JNull => collectPackages fs pkgJsonPath = Js.Return [lookupProperty fields "name"]
  | JArray items =>
    collectPackages fs pkgJsonPath
    = Js.Return (lookupProperty fields "name" :: List.map JsOf items)
  end.
Proof.
  intros Hread Hparse Hnpm Hadd. unfold collectPackages. rewrite Hread. cbn.
  rewrite Hparse. cbn. unfold additionalPackagesOf. cbn. rewrite Hnpm. cbn.
  rewrite Hadd. destruct value; reflexivity.
Qed.

(** ** parseArgs *)

Lemma withFlags_nil (a : RunnerArgs) : withFlags [] a = a.
Proof.
  destruct a. unfold withFlags. cbn. rewrite !orb_false_r. reflexivity.
Qed.

Lemma takesValue_false (arg : string) :
  takesValue arg = false ->
  String.eqb arg "--output" = false /\ String.eqb arg "-o" = false /\
  String.eqb arg "--files" = false /\ String.eqb arg "--content-regex" = false.
Proof.
  unfold takesValue. intros Hv.
  apply orb_false_iff in Hv as [Hv Hc]. apply orb_false_iff in Hv as [Hv Hf].
  apply orb_false_iff in Hv as [Ho Ho']. auto.
Qed.

Ltac flag_step IH Hpre :=
  rewrite IH by exact Hpre; unfold withFlags, arrayIncludes; cbn;
  rewrite !orb_true_r; reflexivity.

(** The loop over a run of flags and unknown arguments, then [rest]. *)
Lemma parseArgsLoop_flags (pre rest : list string) (a : RunnerArgs) :
  forallb (fun arg => negb (takesValue arg)) pre = true ->
  parseArgsLoop (pre ++ rest) a = parseArgsLoop rest (withFlags pre a).
Proof.
  revert a. induction pre as [|arg pre IH]; intros a Hpre.
  - rewrite withFlags_nil. reflexivity.
  - cbn [forallb] in Hpre. apply andb_true_iff in Hpre as [Harg Hpre].
    apply negb_true_iff, takesValue_false in Harg as (Ho & Ho' & Hf & Hc).
    cbn [app parseArgsLoop]. rewrite Ho, Ho', Hf, Hc. cbn [orb].
    unfold withFlags, arrayIncludes. cbn [existsb].
    rewrite (String.eqb_sym "--force"), (String.eqb_sym "--gitignore"),
      (String.eqb_sym "--silent"), (String.eqb_sym "--dry-run"),
      (String.eqb_sym "--upgrade").
    destruct (String.eqb_spec arg "--force") as [->|_]; [flag_step IH Hpre|].
    destruct (String.eqb_spec arg "--gitignore") as [->|_]; [flag_step IH Hpre|].
    destruct (String.eqb_spec arg "--silent") as [->|_]; [flag_step IH Hpre|].
    destruct (String.eqb_spec arg "--dry-run") as [->|_]; [flag_step IH Hpre|].
    destruct (String.eqb_spec arg "--upgrade") as [->|_]; [flag_step IH Hpre|].
    rewrite IH by exact Hpre. reflexivity.
Qed.

Lemma parseArgs_only_flags (extraArgs : list string) :
  forallb (fun arg => negb (takesValue arg)) extraArgs = true ->
  parseArgs extraArgs = withFlags extraArgs initialArgs.
Proof.
  intros Hflags. unfold parseArgs.
  rewrite <- (app_nil_r extraArgs) at 1.
  apply (parseArgsLoop_flags extraArgs [] initialArgs Hflags).
Qed.

(** X24.  When none of the arguments is an option with a value
    ([--output], [-o], [--files], [--content-regex]), [parseArgs] sets a
    flag exactly when it is among the arguments, wherever and however
    often, ignores every other argument, and leaves the three values
    undefined. *)
Theorem parseArgs_flags (extraArgs : list string) :
  forallb (fun arg => negb (takesValue arg)) extraArgs = true ->
  parseArgs extraArgs
  = {| outputDir := None;
       force := arrayIncludes extraArgs "--force";
       gitignore := arrayIncludes extraArgs "--gitignore";
       silent := arrayIncludes extraArgs "--silent";
       dryRun := arrayIncludes extraArgs "--dry-run";
       upgrade := arrayIncludes extraArgs "--upgrade";
       files := None;
       contentRegex := None |}.
Proof.
  intros Hflags. rewrite (parseArgs_only_flags extraArgs Hflags). reflexivity.
Qed.

(** X25.  [--output] and [-o] take the next argument as the output
    directory whatever it is: a flag in that place is not read as a flag.
    The last occurrence wins, and an occurrence that ends the arguments
    sets the directory back to undefined. *)
Theorem parseArgs_output_takes_next (pre : list string) (option value earlier : string) :
  option = "--output" \/ option = "-o" ->
  forallb (fun arg => negb (takesValue arg)) pre = true ->
  parseArgs (pre ++ [option; value])
  = {| outputDir := Some value;
       force := arrayIncludes pre "--force";
       gitignore := arrayIncludes pre "--gitignore";
       silent := arrayIncludes pre "--silent";
       dryRun := arrayIncludes pre "--dry-run";
       upgrade := arrayIncludes pre "--upgrade";
       files := None;
       contentRegex := None |} /\
  outputDir (parseArgs (option :: earlier :: pre ++ [option; value])) = Some value /\
  outputDir (parseArgs (option :: earlier :: pre ++ [option])) = None.
Proof.
  intros Hopt Hpre. unfold parseArgs. split; [|split].
  - rewrite (parseArgsLoop_flags pre _ initialArgs Hpre).
    destruct Hopt as [-> | ->]; reflexivity.
  - destruct Hopt as [-> | ->]; cbn [parseArgsLoop String.eqb Ascii.eqb Bool.eqb orb];
      rewrite (parseArgsLoop_flags pre _ _ Hpre); reflexivity.
  - destruct Hopt as [-> | ->]; cbn [parseArgsLoop String.eqb Ascii.eqb Bool.eqb orb];
      rewrite (parseArgsLoop_flags pre _ _ Hpre); reflexivity.
Qed.

(** ** run *)

(** [run] reads the package.json before it looks at the action. *)
Lemma run_reads_package_json_first (fs : FileSystem) (binDir : string)
    (argv : list string) (e : string) :
  collectPackages fs (join binDir "../package.json") = Js.Throw e ->
  run fs binDir argv = Js.Throw e.
Proof. intros Hpkgs. unfold run. rewrite Hpkgs. reflexivity. Qed.

(** X26.  With an action that is none of [extract], [check] and [list],
    [run] executes no command: it writes a message that quotes the action
    to the error stream and exits with code 1. *)
Theorem run_invalid_action (fs : FileSystem) (binDir : string) (argv : list string)
    (allPackages : list JsValue) (fpCliPath : string) :
  collectPackages fs (join binDir "../package.json") = Js.Return allPackages ->
  require_resolve "npmdata/dist/main.js" (Some [binDir]) = Js.Return fpCliPath ->
  ~ In (actionOf argv) ["extract"; "check"; "list"] ->
  run fs binDir argv = Js.Return (Exits 1 (invalidActionMessage (actionOf argv))) /\
  Js.includes (invalidActionMessage (actionOf argv)) (quoted (actionOf argv)) = true.
Proof.
  intros Hpkgs Hcli Haction. split.
  - unfold run. rewrite Hpkgs. cbn [mbind completion_bind Js.bind]. rewrite Hcli.
    cbn [mbind completion_bind Js.bind].
    destruct (String.eqb_spec (actionOf argv) "extract") as [He|_];
      [exfalso; apply Haction; rewrite He; simpl; tauto|].
    destruct (String.eqb_spec (actionOf argv) "check") as [He|_];
      [exfalso; apply Haction; rewrite He; simpl; tauto|].
    destruct (String.eqb_spec (actionOf argv) "list") as [He|_];
      [exfalso; apply Haction; rewrite He; simpl; tauto|].
    reflexivity.
  - unfold invalidActionMessage. apply includes_app.
Qed.

(** X27.  For the action [list], [run] passes on neither the packages nor
    any flag: with arguments that are flags or unknown, the command is
    [node "<cli>" list] and nothing more. *)
Theorem run_list_passes_no_flag (fs : FileSystem) (binDir node script : string)
    (extraArgs : list string) (allPackages : list JsValue) (fpCliPath : string) :
  collectPackages fs (join binDir "../package.json") = Js.Return allPackages ->
  require_resolve "npmdata/dist/main.js" (Some [binDir]) = Js.Return fpCliPath ->
  forallb (fun arg => negb (takesValue arg)) extraArgs = true ->
  run fs binDir (node :: script :: "list" :: extraArgs)
  = Js.Return (Executes ("node " ++ quoted fpCliPath ++ " list")).
Proof.
  intros Hpkgs Hcli Hflags. unfold run. rewrite Hpkgs.
  cbn [mbind completion_bind Js.bind]. rewrite Hcli.
  cbn [mbind completion_bind Js.bind actionOf nth].
  change (skipn 3 (node :: script :: "list" :: extraArgs)) with extraArgs.
  rewrite (parseArgs_only_flags extraArgs Hflags).
  reflexivity.
Qed.

(** X28.  The order in which flags are given to the bin script does not
    matter: two argument lists of flags that are permutations of each
    other make [run] do the same, the flags of the command being written
    in the fixed order of the code. *)
Theorem run_flag_order_is_irrelevant (fs : FileSystem) (binDir node script action : string)
    (extraArgs extraArgs' : list string) :
  forallb (fun arg => negb (takesValue arg)) extraArgs = true ->
  Permutation extraArgs extraArgs' ->
  run fs binDir (node :: script :: action :: extraArgs)
  = run fs binDir (node :: script :: action :: extraArgs').
Proof.
  intros Hflags Hperm.
  assert (Hflags' : forallb (fun arg => negb (takesValue arg)) extraArgs' = true).
  { apply forallb_forall. intros arg Hin.
    apply (proj1 (forallb_forall _ _) Hflags).
    apply (Permutation_in _ (Permutation_sym Hperm)), Hin. }
  unfold run. cbn [actionOf nth].
  change (skipn 3 (node :: script :: action :: extraArgs)) with extraArgs.
  change (skipn 3 (node :: script :: action :: extraArgs')) with extraArgs'.
  rewrite (parseArgs_only_flags extraArgs Hflags),
    (parseArgs_only_flags extraArgs' Hflags').
  unfold withFlags, arrayIncludes.
  rewrite !(existsb_Permutation _ extraArgs extraArgs' Hperm). reflexivity.
Qed.

(** X29.  Called without an action, [run] extracts: for a package.json
    with a name and an array of additional package names, the command is
    [node "<cli>" extract --packages "<names>"], the names being that of
    the package and then the additional ones, separated by commas, and no
    flag follows. *)
Theorem run_extracts_every_package (fs : FileSystem) (binDir : string)
    (argv : list string) (buf own fpCliPath : string)
    (fields config : list (string * Json)) (additional : list string) :
  readFileSync fs (join binDir "../package.json") = Js.Return buf ->
  JSON_parse (decode Utf8 buf) = Js.Return (JObject fields) ->
  lookupProperty fields "name" = JsOf (JString own) ->
  lookupProperty fields "npmdata" = JsOf (JObject config) ->
  lookupProperty config "additionalPackages" = JsOf (JArray (stringValues additional)) ->
  require_resolve "npmdata/dist/main.js" (Some [binDir]) = Js.Return fpCliPath ->
  (length argv <= 2)%nat ->
  run fs binDir argv
  = Js.Return (Executes ("node " ++ quoted fpCliPath ++ " extract --packages "
                         ++ quoted (String.concat "," (own :: additional)))).
Proof.
  intros Hread Hparse Hname Hnpm Hadd Hcli Hargv.
  unfold run, collectPackages. rewrite Hread. cbn [mbind completion_bind Js.bind].
  rewrite Hparse. cbn [mbind completion_bind Js.bind].
  unfold additionalPackagesOf. cbn [getProperty mbind completion_bind Js.bind].
  rewrite Hnpm. cbn [getProperty mbind completion_bind Js.bind]. rewrite Hadd, Hname.
  cbn [spread mbind completion_bind Js.bind mret completion_ret]. rewrite Hcli.
  cbn [mbind completion_bind Js.bind].
  assert (Haction : actionOf argv = "extract").
  { unfold actionOf. apply nth_overflow. exact Hargv. }
  assert (Hextra : skipn 3 argv = []).
  { apply skipn_all2. lia. }
  rewrite Haction, Hextra.
  change (JsOf (JString own) :: List.map JsOf (stringValues additional))
    with (List.map JsOf (stringValues (own :: additional))).
  cbn [String.eqb Ascii.eqb Bool.eqb negb andb].
  unfold commandLine. cbn [String.eqb Ascii.eqb Bool.eqb].
  rewrite joinComma_strings.
  cbn [parseArgs parseArgsLoop initialArgs outputDir force gitignore silent dryRun
       upgrade files contentRegex whenSet whenTrue String.append].
  rewrite append_empty_r. reflexivity.
Qed.

End RunnerFacts.

(* ================================================================== *)
(** * Concrete runs of the further properties                          *)
(* ================================================================== *)

(** The properties above at sample inputs, on the reference instances of
    the platform. *)

Section FurtherRuns.

#[local] Existing Instance Reference.workPath.
#[local] Existing Instance Reference.globMinimatch.
#[local] Existing Instance Reference.literalRegExp.
#[local] Existing Instance Reference.bytesBuffer.
#[local] Existing Instance Reference.subsetJSON.
#[local] Existing Instance Reference.plainDigest.
#[local] Existing Instance Reference.nodeModules.

(** *** Filename patterns *)

Lemma pattern_order_is_irrelevant_witness :
  Permutation ["*.md"; "!README.md"] ["!README.md"; "*.md"] /\
  matchesFilenamePattern "README.md" (Some (PatternArray ["*.md"; "!README.md"]))
  = matchesFilenamePattern "README.md" (Some (PatternArray ["!README.md"; "*.md"])).
Proof.
  assert (Hperm : Permutation ["*.md"; "!README.md"] ["!README.md"; "*.md"])
    by apply perm_swap.
  split; [exact Hperm|].
  exact (pattern_order_is_irrelevant "README.md" _ _ Hperm).
Defined.

Lemma exclude_only_patterns_witness :
  forallb (fun p => Js.startsWith p "!") ["!package.json"; "!README.md"] = true /\
  (matchesFilenamePattern "docs/guide.md"
     (Some (PatternArray ["!package.json"; "!README.md"])) = true <->
   forall p, In p ["!package.json"; "!README.md"] ->
     matchesPattern "docs/guide.md" (basename "docs/guide.md") (resolve "docs/guide.md")
       (Js.slice1 p) = false).
Proof.
  assert (Hall : forallb (fun p => Js.startsWith p "!") ["!package.json"; "!README.md"]
                 = true) by reflexivity.
  split; [exact Hall|].
  exact (exclude_only_patterns "docs/guide.md" ["!package.json"; "!README.md"] Hall).
Defined.

Lemma more_excludes_reject_more_witness :
  matchesFilenamePattern "docs/guide.md"
    (Some (PatternArray (("!" ++ "README.md") :: ["*.md"]))) = true /\
  matchesFilenamePattern "docs/guide.md" (Some (PatternArray ["*.md"])) = true.
Proof.
  assert (Hwith : matchesFilenamePattern "docs/guide.md"
                    (Some (PatternArray (("!" ++ "README.md") :: ["*.md"]))) = true)
    by (vm_compute; reflexivity).
  split; [exact Hwith|].
  exact (more_excludes_reject_more "docs/guide.md" "README.md" ["*.md"] Hwith).
Defined.

(** *** The directory walk *)

Lemma empty_regex_array_finds_nothing_witness :
  walkable (Js.Return testListing) = true /\
  exists w',
    findMatchingFiles testTree (Js.Return testListing) "/tmp/utils-test" None
      (Some (RegexArray [])) quiet
    = (Js.Return [], w').
Proof.
  assert (Hwalk : walkable (Js.Return testListing) = true) by reflexivity.
  split; [exact Hwalk|].
  exact (proj2 (empty_regex_array_finds_nothing testTree (Js.Return testListing)
                  "/tmp/utils-test" None quiet) Hwalk).
Defined.

Lemma no_content_patterns_reads_nothing_witness :
  walkable (Js.Return testListing) = true /\
  exists outcome,
    (forall (fs : FileSystem) (w : World),
       findMatchingFiles fs (Js.Return testListing) "/tmp/utils-test"
         (Some (PatternArray ["**/*.md"])) None w
       = (outcome, w)) /\
    exists results, outcome = Js.Return results.
Proof.
  assert (Hwalk : walkable (Js.Return testListing) = true) by reflexivity.
  split; [exact Hwalk|].
  destruct (no_content_patterns_reads_nothing (Js.Return testListing)
              "/tmp/utils-test" (Some (PatternArray ["**/*.md"])))
    as (outcome & Hsame & Hreturns).
  exists outcome. split; [exact Hsame | exact (Hreturns Hwalk)].
Defined.

Lemma filters_select_from_the_plain_walk_witness :
  walkable (Js.Return testListing) = true /\
  exists found every w',
    findMatchingFiles testTree (Js.Return testListing) "/tmp/utils-test"
      (Some (PatternArray ["**/*.txt"])) (Some (RegexArray ["#"])) quiet
    = (Js.Return found, w') /\
    findMatchingFiles testTree (Js.Return testListing) "/tmp/utils-test" None None quiet
    = (Js.Return every, quiet) /\
    sublist found every.
Proof.
  assert (Hwalk : walkable (Js.Return testListing) = true) by reflexivity.
  split; [exact Hwalk|].
  exact (filters_select_from_the_plain_walk testTree (Js.Return testListing)
           "/tmp/utils-test" (Some (PatternArray ["**/*.txt"]))
           (Some (@RegexArray Reference.literalRegExp ["#"])) quiet Hwalk).
Defined.

(** *** Version constraints *)

Lemma tilde_within_caret_within_at_least_witness :
  Semver.validateSemverMatch "1.2.5" (Some "~1.2.3") = true /\
  Semver.validateSemverMatch "1.2.5" (Some "^1.2.3") = true /\
  Semver.validateSemverMatch "1.2.5" (Some ">=1.2.3") = true.
Proof.
  assert (Ht : Semver.constraintMatch "~1.2.3" = Some ("~", "1.2.3")) by reflexivity.
  assert (Hc : Semver.constraintMatch "^1.2.3" = Some ("^", "1.2.3")) by reflexivity.
  assert (Ha : Semver.constraintMatch ">=1.2.3" = Some (">=", "1.2.3")) by reflexivity.
  assert (Hnt : "1.2.5" <> "~1.2.3") by discriminate.
  assert (Hnc : "1.2.5" <> "^1.2.3") by discriminate.
  assert (Htilde : Semver.validateSemverMatch "1.2.5" (Some "~1.2.3") = true)
    by reflexivity.
  destruct (tilde_within_caret_within_at_least "1.2.5" "1.2.3" "~1.2.3" "^1.2.3"
              ">=1.2.3" Ht Hc Ha Hnt Hnc) as [Hcaret Hleast].
  split; [exact Htilde|]. split; [exact (Hcaret Htilde)|].
  exact (Hleast (Hcaret Htilde)).
Defined.

Lemma below_is_the_complement_of_at_least_witness :
  Semver.installedTriple "1.2.5" = (Semver.Num 1, Semver.Num 2, Semver.Num 5) /\
  Semver.constraintTriple "1.3.0" = (Semver.Num 1, Semver.Num 3, Semver.Num 0) /\
  Semver.validateSemverMatch "1.2.5" (Some "<1.3.0")
  = negb (Semver.validateSemverMatch "1.2.5" (Some ">=1.3.0")).
Proof.
  assert (Hb : Semver.constraintMatch "<1.3.0" = Some ("<", "1.3.0")) by reflexivity.
  assert (Ha : Semver.constraintMatch ">=1.3.0" = Some (">=", "1.3.0")) by reflexivity.
  assert (Hnb : "1.2.5" <> "<1.3.0") by discriminate.
  assert (Hna : "1.2.5" <> ">=1.3.0") by discriminate.
  assert (Hi : Semver.installedTriple "1.2.5"
               = (Semver.Num 1, Semver.Num 2, Semver.Num 5)) by reflexivity.
  assert (Hc : Semver.constraintTriple "1.3.0"
               = (Semver.Num 1, Semver.Num 3, Semver.Num 0)) by reflexivity.
  split; [exact Hi|]. split; [exact Hc|].
  exact (below_is_the_complement_of_at_least "1.2.5" "1.3.0" "<1.3.0" ">=1.3.0"
           1 2 5 1 3 0 Hb Ha Hnb Hna Hi Hc).
Defined.

Lemma two_part_constraint_witness :
  Semver.constraintMatch "~1.2" = Some ("~", "1.2") /\
  (length (Semver.splitDot "1.2") < 3)%nat /\
  Semver.validateSemverMatch "1.2.5" (Some "~1.2") = false.
Proof.
  assert (Hm : Semver.constraintMatch "~1.2" = Some ("~", "1.2")) by reflexivity.
  assert (Hlen : (length (Semver.splitDot "1.2") < 3)%nat) by (vm_compute; lia).
  assert (Hne : "1.2.5" <> "~1.2") by discriminate.
  split; [exact Hm|]. split; [exact Hlen|].
  exact (proj1 (two_part_constraint "1.2.5" "~1.2" "~" "1.2" Hm Hlen Hne) eq_refl).
Defined.

Lemma unknown_operator_rejects_witness :
  Semver.constraintMatch "=>1.0.0" = Some ("=>", "1.0.0") /\
  Semver.validateSemverMatch "1.0.0" (Some "=>1.0.0") = false.
Proof.
  assert (Hm : Semver.constraintMatch "=>1.0.0" = Some ("=>", "1.0.0")) by reflexivity.
  assert (Hne : "1.0.0" <> "=>1.0.0") by discriminate.
  assert (Hop : ~ In "=>" ["^"; "~"; ">="; ">"; "<="; "<"; "="; EmptyString]).
  { simpl. intros Hin. repeat destruct Hin as [Hin|Hin]; try discriminate Hin.
    exact Hin. }
  split; [exact Hm|].
  exact (unknown_operator_rejects "1.0.0" "=>1.0.0" "=>" "1.0.0" Hm Hne Hop).
Defined.

(** *** Directories and files *)

Lemma ensureDir_keeps_what_is_there_witness :
  exists fs',
    ensureDir rootOnly "/out/docs" = Js.Return fs' /\
    fs' !! "/" = Some Directory /\
    existsSync fs' "/out/docs" = true /\
    ensureDir fs' "/out/docs" = Js.Return fs'.
Proof.
  assert (Hpre : existsSync rootOnly "/out/docs" = true \/
                 existsb (isRegularFile rootOnly) (pathChain "/out/docs") = false)
    by (right; vm_compute; reflexivity).
  destruct (ensureDir_keeps_what_is_there rootOnly "/out/docs" Hpre)
    as (fs' & Hrun & Hkeep & Hthere & _ & Hagain).
  exists fs'. split; [exact Hrun|]. split; [|split; [exact Hthere | exact Hagain]].
  apply Hkeep. reflexivity.
Defined.

Lemma removeFile_removes_witness :
  extractedFs !! "/out/guide.md" = Some (RegularFile "# Guide" 292%N) /\
  ownerCanWrite 292%N = false /\
  removeFile extractedFs "/out/guide.md" = Js.Return (delete "/out/guide.md" extractedFs) /\
  existsSync (delete "/out/guide.md" extractedFs) "/out/guide.md" = false.
Proof.
  assert (Hfile : extractedFs !! "/out/guide.md" = Some (RegularFile "# Guide" 292%N))
    by reflexivity.
  assert (Hnodir : extractedFs !! "/out/guide.md" <> Some Directory)
    by (rewrite Hfile; discriminate).
  destruct (removeFile_removes extractedFs "/out/guide.md" Hnodir)
    as (Hrun & Hgone & _).
  split; [exact Hfile|]. split; [reflexivity|]. split; [exact Hrun | exact Hgone].
Defined.

Lemma removeFile_directory_fails_witness :
  extractedFs !! "/out" = Some Directory /\
  exists cause,
    removeFile extractedFs "/out"
    = Js.Throw ("Error: Failed to remove file " ++ "/out" ++ ": " ++ cause).
Proof.
  assert (Hdir : extractedFs !! "/out" = Some Directory) by reflexivity.
  split; [exact Hdir|].
  destruct (removeFile_directory_fails extractedFs "/out" Hdir)
    as (cause & _ & Hthrown & _).
  exists cause. exact Hthrown.
Defined.

Lemma copyFile_copies_witness :
  parentAvailable extractedFs "/copy/docs/guide.md" /\
  targetWritable extractedFs "/copy/docs/guide.md" /\
  exists fs',
    copyFile extractedFs "/out/guide.md" "/copy/docs/guide.md" = Js.Return fs' /\
    fs' !! "/copy/docs/guide.md" = Some (RegularFile "# Guide" 292%N) /\
    fs' !! "/copy/docs" = Some Directory /\
    fs' !! "/out/guide.md" = Some (RegularFile "# Guide" 292%N).
Proof.
  assert (Hsrc : extractedFs !! "/out/guide.md" = Some (RegularFile "# Guide" 292%N))
    by reflexivity.
  assert (Hread : ownerCanRead 292%N = true) by reflexivity.
  assert (Hparent : parentAvailable extractedFs "/copy/docs/guide.md").
  { unfold parentAvailable.
    change (dirname "/copy/docs/guide.md") with "/copy/docs".
    change (extractedFs !! "/copy/docs") with (@None FsNode).
    split; [vm_compute; reflexivity|].
    vm_compute. intros [Heq|[Heq|[Heq|[]]]]; discriminate. }
  assert (Htarget : targetWritable extractedFs "/copy/docs/guide.md") by exact I.
  split; [exact Hparent|]. split; [exact Htarget|].
  destruct (copyFile_copies extractedFs "/out/guide.md" "/copy/docs/guide.md"
              "# Guide" 292%N Hsrc Hread Hparent Htarget)
    as (fs' & Hrun & Hdest & Hdir & Hsame & _).
  exists fs'. split; [exact Hrun|]. split; [exact Hdest|]. split; [exact Hdir|].
  rewrite Hsame by discriminate. exact Hsrc.
Defined.

Lemma copyFile_preserves_hash_witness :
  getFileHash extractedFs "/out/guide.md" = Js.Return (sha256Hex "# Guide") /\
  exists fs',
    copyFile extractedFs "/out/guide.md" "/copy/docs/guide.md" = Js.Return fs' /\
    getFileHash fs' "/copy/docs/guide.md" = Js.Return (sha256Hex "# Guide") /\
    getFileHash fs' "/out/guide.md" = Js.Return (sha256Hex "# Guide").
Proof.
  assert (Hhash : getFileHash extractedFs "/out/guide.md"
                  = Js.Return (sha256Hex "# Guide")) by reflexivity.
  assert (Hparent : parentAvailable extractedFs "/copy/docs/guide.md").
  { unfold parentAvailable.
    change (dirname "/copy/docs/guide.md") with "/copy/docs".
    change (extractedFs !! "/copy/docs") with (@None FsNode).
    split; [vm_compute; reflexivity|].
    vm_compute. intros [Heq|[Heq|[Heq|[]]]]; discriminate. }
  assert (Htarget : targetWritable extractedFs "/copy/docs/guide.md") by exact I.
  split; [exact Hhash|].
  exact (copyFile_preserves_hash extractedFs "/out/guide.md" "/copy/docs/guide.md"
           (sha256Hex "# Guide") Hhash Hparent Htarget).
Defined.

Lemma writeJsonFile_then_readJsonFile_witness :
  exists fs',
    writeJsonFile rootOnly "/out/docs/.folder-publisher" (markerToJson [guideEntry])
    = Js.Return fs' /\
    readJsonFile fs' "/out/docs/.folder-publisher"
    = Js.Return (markerToJson [guideEntry]).
Proof.
  assert (Hparent : parentAvailable rootOnly "/out/docs/.folder-publisher").
  { unfold parentAvailable.
    change (dirname "/out/docs/.folder-publisher") with "/out/docs".
    change (rootOnly !! "/out/docs") with (@None FsNode).
    split; [vm_compute; reflexivity|].
    vm_compute. intros [Heq|[Heq|[Heq|[]]]]; discriminate. }
  assert (Htarget : targetWritable rootOnly "/out/docs/.folder-publisher")
    by exact I.
  assert (Hreadable : targetReadable rootOnly "/out/docs/.folder-publisher")
    by exact I.
  assert (Hparse : JSON_parse (decode Utf8 (encode Utf8
                     (JSON.stringify (markerToJson [guideEntry]) 2 ++ JSON.lf)))
                   = Js.Return (markerToJson [guideEntry]))
    by (vm_compute; reflexivity).
  exact (writeJsonFile_then_readJsonFile rootOnly "/out/docs/.folder-publisher"
           (markerToJson [guideEntry]) Hparent Htarget Hreadable Hparse).
Defined.

Lemma readJsonFile_wraps_every_failure_witness :
  exists e cause,
    readJsonFile corruptFs "/out/.folder-publisher" = Js.Throw e /\
    e = "Error: Failed to read JSON file " ++ "/out/.folder-publisher" ++ ": " ++ cause.
Proof.
  assert (Hthrows : exists e, readJsonFile corruptFs "/out/.folder-publisher"
                              = Js.Throw e)
    by (eexists; vm_compute; reflexivity).
  destruct Hthrows as [e He].
  destruct (readJsonFile_wraps_every_failure corruptFs "/out/.folder-publisher" e He)
    as (cause & Heq & _).
  exists e, cause. split; [exact He | exact Heq].
Defined.

(** *** The package manager and the installed version *)

Lemma lock_file_decides_witness :
  detectPackageManager (Js.Return ["package.json"; "yarn.lock"; "pnpm-lock.yaml"])
    (Some "yarn/1.22.19 npm/? node/v18.0.0") = Pnpm /\
  detectPackageManager (Js.Return ["package.json"; "package-lock.json"])
    (Some "yarn/1.22.19 npm/? node/v18.0.0") = Npm.
Proof.
  split.
  - apply (proj1 (lock_file_decides ["package.json"; "yarn.lock"; "pnpm-lock.yaml"] _)).
    simpl. tauto.
  - apply (proj2 (proj2 (lock_file_decides ["package.json"; "package-lock.json"] _))).
    + simpl. intros Hin. repeat destruct Hin as [Hin|Hin]; try discriminate Hin.
      exact Hin.
    + simpl. intros Hin. repeat destruct Hin as [Hin|Hin]; try discriminate Hin.
      exact Hin.
    + simpl. tauto.
Defined.

Lemma user_agent_decides_without_lock_file_witness :
  detectPackageManager (Js.Return ["package.json"; "src"])
    (Some "pnpm/8.6.0 with yarn shim") = Yarn /\
  detectPackageManager (Js.Throw "Error: EACCES: permission denied, scandir '.'") None
  = Npm.
Proof.
  split.
  - apply (user_agent_decides_without_lock_file (Js.Return ["package.json"; "src"])
             (Some "pnpm/8.6.0 with yarn shim")).
    intros lockFiles Heq. injection Heq as <-.
    repeat split; simpl; intros Hin;
      repeat destruct Hin as [Hin|Hin]; try discriminate Hin; exact Hin.
  - apply (user_agent_decides_without_lock_file
             (Js.Throw "Error: EACCES: permission denied, scandir '.'") None).
    intros lockFiles Heq. discriminate Heq.
Defined.

Lemma getInstalledPackageVersion_never_throws_witness :
  getInstalledPackageVersion packageFs "my-data" Npm = Js.Return (JsOf (JString "1.2.3")) /\
  getInstalledPackageVersion packageFs "absent" Npm = Js.Return (JsOf JNull).
Proof.
  destruct (getInstalledPackageVersion_never_throws packageFs "my-data" Npm)
    as (_ & Hfound & _).
  destruct (getInstalledPackageVersion_never_throws packageFs "absent" Npm)
    as (_ & _ & Hgone & _).
  split.
  - apply (Hfound "/work/node_modules/my-data/package.json"
             (JSON.stringify dataPackageJson 2)
             [("name", JString "my-data"); ("version", JString "1.2.3");
              ("npmdata",
               JObject [("additionalPackages",
                         JArray [JString "extra-a"; JString "extra-b"])])]).
    + reflexivity.
    + reflexivity.
    + vm_compute. reflexivity.
  - apply (Hgone "/work/node_modules/absent/package.json").
    + reflexivity.
    + reflexivity.
Defined.

(** *** The runner *)

Lemma collectPackages_own_name_first_witness :
  collectPackages packageFs "/pkg/package.json"
  = Js.Return [JsOf (JString "my-data"); JsOf (JString "extra-a");
               JsOf (JString "extra-b")].
Proof.
  assert (Hread : readFileSync packageFs "/pkg/package.json"
                  = Js.Return (JSON.stringify dataPackageJson 2)) by reflexivity.
  assert (Hparse : JSON_parse (decode Utf8 (JSON.stringify dataPackageJson 2))
                   = Js.Return dataPackageJson) by (vm_compute; reflexivity).
  destruct (collectPackages_own_name_first packageFs "/pkg/package.json" _ _
              Hread Hparse) as (_ & _ & Hlisted).
  apply (Hlisted [("additionalPackages", JArray [JString "extra-a"; JString "extra-b"])]
           [JString "extra-a"; JString "extra-b"]); reflexivity.
Defined.

Lemma collectPackages_of_other_values_witness :
  collectPackages mistypedFs "/pkg/package.json"
  = Js.Return [JsOf (JString "my-data"); JsOf (JString "a"); JsOf (JString "b")].
Proof.
  assert (Hread : readFileSync mistypedFs "/pkg/package.json"
                  = Js.Return (JSON.stringify mistypedPackageJson 2)) by reflexivity.
  assert (Hparse : JSON_parse (decode Utf8 (JSON.stringify mistypedPackageJson 2))
                   = Js.Return mistypedPackageJson) by (vm_compute; reflexivity).
  exact (collectPackages_of_other_values mistypedFs "/pkg/package.json" _ _
           [("additionalPackages", JString "ab")] (JString "ab")
           Hread Hparse eq_refl eq_refl).
Defined.

Lemma parseArgs_flags_witness :
  parseArgs ["--silent"; "verbose"; "--force"; "--silent"]
  = {| outputDir := None; force := true; gitignore := false; silent := true;
       dryRun := false; upgrade := false; files := None; contentRegex := None |}.
Proof.
  apply (parseArgs_flags ["--silent"; "verbose"; "--force"; "--silent"]).
  reflexivity.
Defined.

Lemma parseArgs_output_takes_next_witness :
  force (parseArgs (["--silent"] ++ ["-o"; "--force"])) = false /\
  outputDir (parseArgs (["--silent"] ++ ["-o"; "--force"])) = Some "--force" /\
  outputDir (parseArgs ("-o" :: "docs" :: ["--silent"] ++ ["-o"])) = None.
Proof.
  destruct (parseArgs_output_takes_next ["--silent"] "-o" "--force" "docs")
    as (Hall & _ & Hreset); [right; reflexivity | reflexivity |].
  rewrite Hall. split; [reflexivity|]. split; [reflexivity | exact Hreset].
Defined.

Lemma run_invalid_action_witness :
  exists message,
    run packageFs "/pkg/bin" ["node"; "/pkg/bin/cli.js"; "install"]
    = Js.Return (Exits 1 message) /\
    Js.includes message (quoted "install") = true.
Proof.
  assert (Hpkgs : collectPackages packageFs (join "/pkg/bin" "../package.json")
                  = Js.Return [JsOf (JString "my-data"); JsOf (JString "extra-a");
                               JsOf (JString "extra-b")])
    by (vm_compute; reflexivity).
  assert (Hcli : require_resolve "npmdata/dist/main.js" (Some ["/pkg/bin"])
                 = Js.Return "/work/node_modules/npmdata/dist/main.js")
    by reflexivity.
  assert (Haction : ~ In (actionOf ["node"; "/pkg/bin/cli.js"; "install"])
                      ["extract"; "check"; "list"]).
  { simpl. intros Hin. repeat destruct Hin as [Hin|Hin]; try discriminate Hin.
    exact Hin. }
  eexists.
  exact (run_invalid_action packageFs "/pkg/bin" ["node"; "/pkg/bin/cli.js"; "install"]
           _ _ Hpkgs Hcli Haction).
Defined.

Lemma run_list_passes_no_flag_witness :
  run packageFs "/pkg/bin" ["node"; "/pkg/bin/cli.js"; "list"; "--silent"; "--force"]
  = Js.Return (Executes ("node " ++ quoted "/work/node_modules/npmdata/dist/main.js"
                         ++ " list")).
Proof.
  assert (Hpkgs : collectPackages packageFs (join "/pkg/bin" "../package.json")
                  = Js.Return [JsOf (JString "my-data"); JsOf (JString "extra-a");
                               JsOf (JString "extra-b")])
    by (vm_compute; reflexivity).
  assert (Hcli : require_resolve "npmdata/dist/main.js" (Some ["/pkg/bin"])
                 = Js.Return "/work/node_modules/npmdata/dist/main.js")
    by reflexivity.
  exact (run_list_passes_no_flag packageFs "/pkg/bin" "node" "/pkg/bin/cli.js"
           ["--silent"; "--force"] _ _ Hpkgs Hcli eq_refl).
Defined.

Lemma run_flag_order_is_irrelevant_witness :
  run packageFs "/pkg/bin" ["node"; "/pkg/bin/cli.js"; "check"; "--silent"; "--force"]
  = run packageFs "/pkg/bin" ["node"; "/pkg/bin/cli.js"; "check"; "--force"; "--silent"].
Proof.
  apply (run_flag_order_is_irrelevant packageFs "/pkg/bin" "node" "/pkg/bin/cli.js"
           "check" ["--silent"; "--force"] ["--force"; "--silent"]).
  - reflexivity.
  - apply perm_swap.
Defined.

Lemma run_extracts_every_package_witness :
  run packageFs "/pkg/bin" ["node"; "/pkg/bin/cli.js"]
  = Js.Return (Executes ("node " ++ quoted "/work/node_modules/npmdata/dist/main.js"
                         ++ " extract --packages " ++ quoted "my-data,extra-a,extra-b")).
Proof.
  apply (run_extracts_every_package packageFs "/pkg/bin" ["node"; "/pkg/bin/cli.js"]
           (JSON.stringify dataPackageJson 2) "my-data"
           "/work/node_modules/npmdata/dist/main.js"
           [("name", JString "my-data"); ("version", JString "1.2.3");
            ("npmdata",
             JObject [("additionalPackages",
                       JArray [JString "extra-a"; JString "extra-b"])])]
           [("additionalPackages", JArray [JString "extra-a"; JString "extra-b"])]
           ["extra-a"; "extra-b"]).
  - vm_compute. reflexivity.
  - vm_compute. reflexivity.
  - reflexivity.
  - reflexivity.
  - reflexivity.
  - reflexivity.
  - simpl. lia.
Defined.

(** The command [run] builds when every option is given, written out. *)
Example run_command_with_every_option :
  run packageFs "/pkg/bin"
    ["node"; "/pkg/bin/cli.js"; "check"; "--upgrade"; "--files"; "*.md"; "-o"; "docs";
     "--dry-run"; "--content-regex"; "TODO"; "--gitignore"; "--force"; "--silent"]
  = Js.Return
      (Executes
         ("node " ++ quoted "/work/node_modules/npmdata/dist/main.js"
          ++ " check --packages " ++ quoted "my-data,extra-a,extra-b"
          ++ " --output " ++ quoted "docs"
          ++ " --force --gitignore --silent --dry-run --upgrade"
          ++ " --files " ++ quoted "*.md"
          ++ " --content-regex " ++ quoted "TODO")).
Proof. vm_compute. reflexivity. Qed.

End FurtherRuns.
